(** * PyMinitel: the Sequence byte buffer and the Minitel link engine

    A shallow embedding of [minitel/Sequence.py] and of the framing,
    transaction, mode, speed and character-redefinition methods of
    [minitel/Minitel.py], with the properties of the specification that speak
    about them.

    Conventions.
    - A Python [int] is a [Z]; [bool] being a subclass of [int], [True] and
      [False] are the integers 1 and 0.
    - A Python [str] is the list of its code points ([list Z]); [py_str]
      turns a literal of the source into that form.
    - Raised exceptions are explicit results: [Err] for the methods of
      Sequence, [Raise] for the methods of Minitel, which also thread the
      state of the engine; a call that waits for ever on the inbound queue is
      [Bloque]. *)

From Stdlib Require Import ZArith List String Ascii Bool Lia.
Import ListNotations.
Local Open Scope Z_scope.
Local Open Scope list_scope.

(** ** Python values *)

Set Warnings "-register-all".

(** Code points of a source literal. *)
Definition py_str (s : string) : list Z :=
  map (fun a => Z.of_N (N_of_ascii a)) (list_ascii_of_string s).

(** The values the methods accept or meet: [None], integers, text, lists of
    anything and Sequence objects (by the value of their three attributes at
    the time of the call). *)
Inductive pyval : Type :=
| PNone
| PInt (n : Z)
| PStr (s : list Z)
| PList (l : list pyval)
| PSeq (valeurs : list pyval) (longueur : Z) (standard : list Z).

Inductive exn : Type :=
| AssertionError
| Empty
| ValueError
| TypeError
| IndexError
| UnicodeDecodeError.

Inductive result (A : Type) : Type :=
| Ok (a : A)
| Err (e : exn).
Arguments Ok {A} a.
Arguments Err {A} e.

Fixpoint list_eqb {A : Type} (eqb : A -> A -> bool) (l1 l2 : list A) : bool :=
  match l1, l2 with
  | [], [] => true
  | x :: r1, y :: r2 => eqb x y && list_eqb eqb r1 r2
  | _, _ => false
  end.

(** Python's [==]. Integers, text and lists compare by value. Sequence defines
    no [__eq__]; its objects compare here attribute by attribute, which is
    what identity gives on one and the same object (the case is never reached
    from a canonical value list, which holds integers only). *)
Fixpoint py_eqb (a b : pyval) : bool :=
  match a, b with
  | PNone, PNone => true
  | PInt m, PInt n => m =? n
  | PStr s, PStr t => list_eqb Z.eqb s t
  | PList l, PList m =>
      (fix liste (l m : list pyval) : bool :=
         match l, m with
         | [], [] => true
         | x :: r1, y :: r2 => py_eqb x y && liste r1 r2
         | _, _ => false
         end) l m
  | PSeq v1 n1 s1, PSeq v2 n2 s2 =>
      (fix liste (l m : list pyval) : bool :=
         match l, m with
         | [], [] => true
         | x :: r1, y :: r2 => py_eqb x y && liste r1 r2
         | _, _ => false
         end) v1 v2 && (n1 =? n2) && list_eqb Z.eqb s1 s2
  | _, _ => false
  end.

(** [x in l] *)
Definition py_in (x : pyval) (l : list pyval) : bool := existsb (py_eqb x) l.

Definition est_sequence (v : pyval) : bool :=
  match v with PSeq _ _ _ => true | _ => false end.

(** [isinstance(v, (list, int, str, Sequence))] *)
Definition isinstance_lisS (v : pyval) : bool :=
  match v with PNone => false | _ => true end.

(** ** Sequence.py *)

Module Sequence.

(** The two conversion tables, keyed by code point, with the hexadecimal text
    of the source as value. *)
Definition UNICODEVERSVIDEOTEX : list (Z * string) :=
  [ (163, "1923"); (176, "1930"); (177, "1931");
    (8592, "192C"); (8593, "192D"); (8594, "192E"); (8595, "192F");
    (188, "193C"); (189, "193D"); (190, "193E");
    (231, "194B63"); (8217, "194B27");
    (224, "194161"); (225, "194261"); (226, "194361"); (228, "194861");
    (232, "194165"); (233, "194265"); (234, "194365"); (235, "194865");
    (236, "194169"); (237, "194269"); (238, "194369"); (239, "194869");
    (242, "19416F"); (243, "19426F"); (244, "19436F"); (246, "19486F");
    (249, "194175"); (250, "194275"); (251, "194375"); (252, "194875");
    (338, "196A"); (339, "197A");
    (223, "197B"); (946, "197B") ]%string.

Definition UNICODEVERSAUTRE : list (Z * string) :=
  [ (163, "0E230F");
    (176, "0E5B0F"); (231, "0E5C0F"); (8217, "27"); (96, "60");
    (167, "0E5D0F");
    (224, "0E400F"); (232, "0E7F0F"); (233, "0E7B0F"); (249, "0E7C0F") ]%string.

(** [caractere in table] and [table[caractere]] *)
Fixpoint dict_get (table : list (Z * string)) (caractere : Z) : option string :=
  match table with
  | [] => None
  | (k, v) :: reste => if k =? caractere then Some v else dict_get reste caractere
  end.

Definition hex_digit (a : ascii) : option Z :=
  let n := Z.of_N (N_of_ascii a) in
  if (48 <=? n) && (n <=? 57) then Some (n - 48)
  else if (65 <=? n) && (n <=? 70) then Some (n - 55)
  else if (97 <=? n) && (n <=? 102) then Some (n - 87)
  else None.

(** [binascii.unhexlify]: two hexadecimal digits per byte. The error it raises
    on an odd length or on a character that is no digit is not modelled: the
    digits are read as 0 there, and [tables_hexadecimales] shows that no entry
    of the two tables is of that kind. *)
Fixpoint unhexlify (s : string) : list Z :=
  match s with
  | String a (String b reste) =>
      (16 * match hex_digit a with Some h => h | None => 0 end
       + match hex_digit b with Some h => h | None => 0 end) :: unhexlify reste
  | _ => []
  end.

Fixpoint hexadecimal (s : string) : bool :=
  match s with
  | EmptyString => true
  | String a (String b reste) =>
      match hex_digit a, hex_digit b with
      | Some _, Some _ => hexadecimal reste
      | _, _ => false
      end
  | _ => false
  end.

(** [str.encode('ascii', 'replace')]: a code point outside ASCII becomes '?'. *)
Definition encode_ascii_replace (s : list Z) : list Z :=
  map (fun c => if (0 <=? c) && (c <? 128) then c else 63) s.

Definition VIDEOTEX : list Z := py_str "VIDEOTEX".
Definition MIXTE : list Z := py_str "MIXTE".
Definition TELEINFORMATIQUE : list Z := py_str "TELEINFORMATIQUE".

Definition str_eqb (s t : list Z) : bool := list_eqb Z.eqb s t.

(** [standard in ['VIDEOTEX', 'MIXTE', 'TELEINFORMATIQUE']] *)
Definition standard_connu (standard : list Z) : bool :=
  existsb (str_eqb standard) [VIDEOTEX; MIXTE; TELEINFORMATIQUE].

Record t : Type := mk {
  valeurs : list pyval;
  longueur : Z;
  standard : list Z
}.

(** A Sequence object handed over as an argument. *)
Definition objet (s : t) : pyval := PSeq (valeurs s) (longueur s) (standard s).

Section Unicode.

(** [unicodedata.normalize('NFKD', c)] of the one-character text [c]: the
    decomposition table of the Unicode database, taken as it is. *)
Variable normalize_NFKD : Z -> list Z.

Definition unicode_vers_minitel (standard : list Z) (caractere : Z) : list Z :=
  if str_eqb standard VIDEOTEX then
    match dict_get UNICODEVERSVIDEOTEX caractere with
    | Some hex => unhexlify hex
    | None => encode_ascii_replace (normalize_NFKD caractere)
    end
  else
    match dict_get UNICODEVERSAUTRE caractere with
    | Some hex => unhexlify hex
    | None => encode_ascii_replace (normalize_NFKD caractere)
    end.

(** The bytes of a text element: each character through
    [unicode_vers_minitel], each byte appended. *)
Definition texte (standard : list Z) (element : list Z) : list pyval :=
  flat_map (fun caractere => map PInt (unicode_vers_minitel standard caractere))
           element.

(** One turn of the loop [for element in valeur] of [canonise]: what the
    element adds to the local list. An element that is neither text, nor an
    integer, nor a list falls through the three tests and adds nothing. *)
Fixpoint canonise_element (standard : list Z) (element : pyval) : list pyval :=
  match element with
  | PStr s => texte standard s
  | PInt n => [PInt n]
  | PList l => flat_map (canonise_element standard) l
  | _ => []
  end.

(** What [for element in valeur] visits: the items of a list, the
    one-character texts of a text. *)
Definition iterer (valeur : pyval) : list pyval :=
  match valeur with
  | PList l => l
  | PStr s => map (fun c => PStr [c]) s
  | _ => []
  end.

Definition canonise (self : t) (valeur : pyval) : result (list pyval) :=
  if negb (isinstance_lisS valeur) then Err AssertionError
  else match valeur with
       | PInt n => Ok [PInt n]
       | PSeq v _ _ => Ok v
       | _ => Ok (flat_map (canonise_element (standard self)) (iterer valeur))
       end.

Definition ajoute (self : t) (valeur : pyval) : result t :=
  if negb (isinstance_lisS valeur) then Err AssertionError
  else match canonise self valeur with
       | Err e => Err e
       | Ok c =>
           let valeurs' := valeurs self ++ c in
           Ok (mk valeurs' (Z.of_nat (List.length valeurs')) (standard self))
       end.

(** [Sequence(valeur, standard)] *)
Definition init (valeur : pyval) (standard : list Z) : result t :=
  if negb (standard_connu standard) then Err AssertionError
  else
    let self := mk [] 0 standard in
    match valeur with
    | PNone => Ok self
    | _ => ajoute self valeur
    end.

Definition egale (self : t) (sequence : pyval) : result bool :=
  if negb (isinstance_lisS sequence) then Err AssertionError
  else match sequence with
       | PSeq v _ _ => Ok (list_eqb py_eqb (valeurs self) v)
       | _ =>
           match init sequence VIDEOTEX with
           | Err e => Err e
           | Ok s => Ok (list_eqb py_eqb (valeurs self) (valeurs s))
           end
       end.

End Unicode.

End Sequence.

(** ** Minitel.py *)

Module Minitel.

(** Modelled from the spec: [minitel/constantes.py] is not among the sources.
    The names that the methods below import from it are the fields of this
    record and their values are left open: the control codes compared with
    received integers are integers, the command fragments placed inside the
    lists handed to [envoyer] and [appeler] are any values. *)
Record constantes : Type := {
  SS2 : Z;
  SEP : Z;
  ESC : Z;
  US : Z;
  PRO2 : pyval;
  MIXTE1 : pyval;
  MIXTE2 : pyval;
  TELINFO : pyval;
  PROG : pyval;
  B300 : pyval;
  B1200 : pyval;
  B4800 : pyval;
  B9600 : pyval;
  LONGUEUR_PRO2 : Z
}.

(** The dictionary [capacite], with the keys listed by [identifier]. *)
Record capacites : Type := {
  nom : list Z;
  retournable : bool;
  clavier : option (list Z);
  vitesse_max : Z;
  constructeur : list Z;
  colonnes80 : bool;
  caracteres : bool;
  version : list Z
}.

(** The engine. Time is counted in milliseconds (a wait of 0.1 s is 100).
    The inbound side is the list of the bytes that the reader thread puts on
    [self.entree], each with the time of its [put], in the order of the puts
    (times do not decrease): the queue holds those whose time has come, the
    others are still to arrive. [sortie] is the outbound queue;
    [emis] are the characters that the writer thread has taken from it and
    written to the port, which the model records at [sortie.join()], the one
    place where the methods wait for it. *)
Record t : Type := mk {
  mode : list Z;
  vitesse : Z;
  capacite : capacites;
  horloge : N;
  arrivees : list (N * Z);
  sortie : list Z;
  emis : list Z;
  baudrate : Z
}.

Definition avec_mode (x : list Z) (m : t) : t :=
  mk x (vitesse m) (capacite m) (horloge m) (arrivees m) (sortie m) (emis m) (baudrate m).
Definition avec_vitesse (x : Z) (m : t) : t :=
  mk (mode m) x (capacite m) (horloge m) (arrivees m) (sortie m) (emis m) (baudrate m).
Definition avec_horloge (x : N) (m : t) : t :=
  mk (mode m) (vitesse m) (capacite m) x (arrivees m) (sortie m) (emis m) (baudrate m).
Definition avec_arrivees (x : list (N * Z)) (m : t) : t :=
  mk (mode m) (vitesse m) (capacite m) (horloge m) x (sortie m) (emis m) (baudrate m).
Definition avec_sortie (x : list Z) (m : t) : t :=
  mk (mode m) (vitesse m) (capacite m) (horloge m) (arrivees m) x (emis m) (baudrate m).
Definition avec_emis (x : list Z) (m : t) : t :=
  mk (mode m) (vitesse m) (capacite m) (horloge m) (arrivees m) (sortie m) x (baudrate m).
Definition avec_baudrate (x : Z) (m : t) : t :=
  mk (mode m) (vitesse m) (capacite m) (horloge m) (arrivees m) (sortie m) (emis m) x.

(** What a method call comes to: a value and the engine after it, an
    exception and the engine at that point, or a wait without end. *)
Inductive outcome (A : Type) : Type :=
| Ret (a : A) (m : t)
| Raise (e : exn) (m : t)
| Bloque.
Arguments Ret {A} a m.
Arguments Raise {A} e m.
Arguments Bloque {A}.

Definition M (A : Type) : Type := t -> outcome A.

Definition ret {A : Type} (a : A) : M A := fun m => Ret a m.

Definition bind {A B : Type} (c : M A) (k : A -> M B) : M B :=
  fun m =>
    match c m with
    | Ret a m' => k a m'
    | Raise e m' => Raise e m'
    | Bloque => Bloque
    end.

Definition raise {A : Type} (e : exn) : M A := fun m => Raise e m.

(** A method of Sequence called from a method of Minitel. *)
Definition lift {A : Type} (r : result A) : M A :=
  match r with
  | Ok a => ret a
  | Err e => raise e
  end.

(** [try: c  except Empty: h] *)
Definition sauf_Empty {A : Type} (c : M A) (h : M A) : M A :=
  fun m =>
    match c m with
    | Raise Empty m' => h m'
    | o => o
    end.

Declare Scope minitel_scope.
Delimit Scope minitel_scope with minitel.
Notation "x <- c ;; k" := (bind c (fun x => k))
  (at level 61, c at next level, right associativity) : minitel_scope.
Notation "c ;;; k" := (bind c (fun _ => k))
  (at level 61, right associativity) : minitel_scope.
Local Open Scope minitel_scope.

(** [Queue()] put in the place of [self.entree]: the bytes that were waiting
    in the old queue are gone. *)
Fixpoint oublier (maintenant : N) (a : list (N * Z)) : list (N * Z) :=
  match a with
  | (instant, octet) :: reste =>
      if (instant <=? maintenant)%N then oublier maintenant reste else a
  | [] => []
  end.

(** [self.entree.get(block, timeout)]: the byte at the head of the queue if
    there is one; else [Empty] at once when [block] is false, the next byte
    when it comes before the timeout, [Empty] at the timeout, and without a
    timeout a wait until a byte comes. *)
Definition entree_get (block : bool) (timeout : option N) : M Z :=
  fun self =>
    match arrivees self with
    | (instant, octet) :: reste =>
        if (instant <=? horloge self)%N then Ret octet (avec_arrivees reste self)
        else if negb block then Raise Empty self
        else
          match timeout with
          | None => Ret octet (avec_arrivees reste (avec_horloge instant self))
          | Some delai =>
              if (instant <=? horloge self + delai)%N
              then Ret octet (avec_arrivees reste (avec_horloge instant self))
              else Raise Empty (avec_horloge (horloge self + delai) self)
          end
    | [] =>
        if negb block then Raise Empty self
        else
          match timeout with
          | None => Bloque
          | Some delai => Raise Empty (avec_horloge (horloge self + delai) self)
          end
    end.

(** [bytes.decode()] of the one byte read from the port. *)
Definition decode (octet : Z) : result pyval :=
  if (0 <=? octet) && (octet <? 128) then Ok (PStr [octet])
  else Err UnicodeDecodeError.

(** [chr(valeur)] *)
Definition chr (valeur : pyval) : result Z :=
  match valeur with
  | PInt n => if (0 <=? n) && (n <? 0x110000) then Ok n else Err ValueError
  | _ => Err TypeError
  end.

(** [int(octet, 2)] on a text of '0' and '1'. *)
Definition int2 (octet : list Z) : Z :=
  fold_left (fun acc c => 2 * acc + (c - 48)) octet 0.

Definition G0 : list Z := py_str "G0".
Definition G1 : list Z := py_str "G1".

Section Engine.

Variable normalize_NFKD : Z -> list Z.
Variable C : constantes.

(** The time [sortie.join()] has to wait for the characters in the queue to
    leave at the current rate. *)
Variable duree_emission : Z -> list Z -> N.

(** Modelled from the spec: [CSI] comes from the missing [constantes.py]; the
    framing compares the value list with it, and it is Escape followed by
    0x5b. *)
Definition CSI : pyval := PList [PInt (ESC C); PInt 0x5b].

Definition Sequence_init := Sequence.init normalize_NFKD.
Definition Sequence_ajoute := Sequence.ajoute normalize_NFKD.
Definition Sequence_egale := Sequence.egale normalize_NFKD.

(** [self.sortie.put(chr(valeur))] for each value in turn. *)
Fixpoint mettre (valeurs : list pyval) : M unit :=
  match valeurs with
  | [] => ret tt
  | valeur :: reste =>
      c <- lift (chr valeur) ;;
      (fun self => Ret tt (avec_sortie (sortie self ++ [c]) self)) ;;;
      mettre reste
  end.

Definition envoyer (contenu : pyval) : M unit :=
  match contenu with
  | PSeq valeurs _ _ => mettre valeurs
  | _ =>
      s <- lift (Sequence_init contenu Sequence.VIDEOTEX) ;;
      mettre (Sequence.valeurs s)
  end.

Definition recevoir (bloque : bool) (attente : option N) : M pyval :=
  octet <- entree_get bloque attente ;;
  lift (decode octet).

(** [sequence.valeurs[-1]] *)
Definition dernier (s : Sequence.t) : M pyval :=
  match rev (Sequence.valeurs s) with
  | v :: _ => ret v
  | [] => raise IndexError
  end.

(** [sequence.ajoute(self.recevoir(bloque, attente))] *)
Definition recevoir_dans (sequence : Sequence.t) (bloque : bool)
    (attente : option N) : M Sequence.t :=
  caractere <- recevoir bloque attente ;;
  lift (Sequence_ajoute sequence caractere).

Definition recevoir_sequence (bloque : bool) (attente : option N)
    : M Sequence.t :=
  sequence <- lift (Sequence_init PNone Sequence.VIDEOTEX) ;;
  sequence <- recevoir_dans sequence bloque attente ;;
  if Sequence.longueur sequence =? 0 then raise AssertionError
  else
    d <- dernier sequence ;;
    if py_in d [PInt (SS2 C); PInt (SEP C)] then
      recevoir_dans sequence true None
    else if py_eqb d (PInt (ESC C)) then
      sauf_Empty
        (sequence <- recevoir_dans sequence true (Some 100%N) ;;
         sauf_Empty
           (if py_eqb (PList (Sequence.valeurs sequence)) CSI then
              sequence <- recevoir_dans sequence true None ;;
              sauf_Empty
                (d <- dernier sequence ;;
                 if py_in d [PInt 0x32; PInt 0x34] then
                   recevoir_dans sequence true None
                 else ret sequence)
                (ret sequence)
            else ret sequence)
           (ret sequence))
        (ret sequence)
    else ret sequence.

(** The loop of [appeler]: at most [n] more bytes, each awaited one second,
    [break] at the first [Empty]. *)
Fixpoint collecter (n : nat) (retour : Sequence.t) : M Sequence.t :=
  match n with
  | O => ret retour
  | S k =>
      fun self =>
        match entree_get true (Some 1000%N) self with
        | Raise Empty self' => Ret retour self'
        | Raise e self' => Raise e self'
        | Bloque => Bloque
        | Ret octet self' =>
            (caractere <- lift (decode octet) ;;
             retour <- lift (Sequence_ajoute retour caractere) ;;
             collecter k retour) self'
        end
  end.

(** [self.sortie.join()] *)
Definition sortie_join : M unit :=
  fun self =>
    Ret tt (avec_sortie []
             (avec_emis (emis self ++ sortie self)
               (avec_horloge
                  (horloge self + duree_emission (baudrate self) (sortie self))
                  self))).

Definition appeler (contenu : pyval) (attente : Z) : M Sequence.t :=
  (fun self => Ret tt (avec_arrivees (oublier (horloge self) (arrivees self)) self)) ;;;
  envoyer contenu ;;;
  sortie_join ;;;
  retour <- lift (Sequence_init PNone Sequence.VIDEOTEX) ;;
  collecter (Z.to_nat attente) retour.

(** The end of [definir_mode]: the new mode is kept when the change has taken
    place. *)
Definition garder_mode (mode : list Z) (resultat : bool) : M bool :=
  fun self => Ret resultat (if resultat then avec_mode mode self else self).

Definition definir_mode (mode : pyval) : M bool :=
  match mode with
  | PStr mode =>
      if negb (existsb (Sequence.str_eqb mode)
                 [Sequence.VIDEOTEX; Sequence.MIXTE; Sequence.TELEINFORMATIQUE])
      then ret false
      else
        actuel <- (fun self => Ret (Minitel.mode self) self) ;;
        if Sequence.str_eqb actuel mode then ret true
        else if Sequence.str_eqb actuel Sequence.TELEINFORMATIQUE
                && Sequence.str_eqb mode Sequence.VIDEOTEX then
          retour <- appeler (PList [CSI; PInt 0x3f; PInt 0x7b]) 2 ;;
          resultat <- lift (Sequence_egale retour (PList [PInt (SEP C); PInt 0x5e])) ;;
          garder_mode mode resultat
        else if Sequence.str_eqb actuel Sequence.TELEINFORMATIQUE
                && Sequence.str_eqb mode Sequence.MIXTE then
          retour <- appeler (PList [CSI; PInt 0x3f; PInt 0x7b]) 2 ;;
          resultat <- lift (Sequence_egale retour (PList [PInt (SEP C); PInt 0x5e])) ;;
          if negb resultat then ret false
          else
            retour <- appeler (PList [PRO2 C; MIXTE1 C]) 2 ;;
            resultat <- lift (Sequence_egale retour (PList [PInt (SEP C); PInt 0x70])) ;;
            garder_mode mode resultat
        else if Sequence.str_eqb actuel Sequence.VIDEOTEX
                && Sequence.str_eqb mode Sequence.MIXTE then
          retour <- appeler (PList [PRO2 C; MIXTE1 C]) 2 ;;
          resultat <- lift (Sequence_egale retour (PList [PInt (SEP C); PInt 0x70])) ;;
          garder_mode mode resultat
        else if Sequence.str_eqb actuel Sequence.VIDEOTEX
                && Sequence.str_eqb mode Sequence.TELEINFORMATIQUE then
          retour <- appeler (PList [PRO2 C; TELINFO C]) 4 ;;
          resultat <- lift (Sequence_egale retour (PList [CSI; PInt 0x3f; PInt 0x7a])) ;;
          garder_mode mode resultat
        else if Sequence.str_eqb actuel Sequence.MIXTE
                && Sequence.str_eqb mode Sequence.VIDEOTEX then
          retour <- appeler (PList [PRO2 C; MIXTE2 C]) 2 ;;
          resultat <- lift (Sequence_egale retour (PList [PInt (SEP C); PInt 0x71])) ;;
          garder_mode mode resultat
        else if Sequence.str_eqb actuel Sequence.MIXTE
                && Sequence.str_eqb mode Sequence.TELEINFORMATIQUE then
          retour <- appeler (PList [PRO2 C; TELINFO C]) 4 ;;
          resultat <- lift (Sequence_egale retour (PList [CSI; PInt 0x3f; PInt 0x7a])) ;;
          garder_mode mode resultat
        else garder_mode mode false
  | _ => raise AssertionError
  end.

(** [vitesses = {300: B300, 1200: B1200, 4800: B4800, 9600: B9600}] *)
Definition vitesses (vitesse : Z) : option pyval :=
  if vitesse =? 300 then Some (B300 C)
  else if vitesse =? 1200 then Some (B1200 C)
  else if vitesse =? 4800 then Some (B4800 C)
  else if vitesse =? 9600 then Some (B9600 C)
  else None.

Definition definir_vitesse (vitesse : Z) : M bool :=
  fun self =>
    match vitesses vitesse with
    | None => Ret false self
    | Some code =>
        if vitesse >? vitesse_max (capacite self) then Ret false self
        else
          (retour <- appeler (PList [PRO2 C; PROG C; code]) (LONGUEUR_PRO2 C) ;;
           if Sequence.longueur retour =? LONGUEUR_PRO2 C then ret false
           else
             fun self' =>
               Ret true (avec_vitesse vitesse (avec_baudrate vitesse self'))) self
    end.

(** The loop of [redefinir] over the characters of [dessins], from the
    current [octet] and [compte_pixel]. *)
Fixpoint dessiner (dessins : list Z) (octet : list Z) (compte_pixel : Z)
    : M unit :=
  match dessins with
  | [] => ret tt
  | pixel :: reste =>
      if negb (pixel =? 48) && negb (pixel =? 49) then
        dessiner reste octet compte_pixel
      else
        let octet := octet ++ [pixel] in
        let compte_pixel := compte_pixel + 1 in
        octet <- (if Z.of_nat (List.length octet) =? 6
                  then envoyer (PInt (0x40 + int2 octet)) ;;; ret []
                  else ret octet) ;;
        etat <- (if compte_pixel =? 80
                 then envoyer (PInt (0x40 + int2 (octet ++ py_str "0000"))) ;;;
                      envoyer (PInt 0x30) ;;;
                      ret ([], 0)
                 else ret (octet, compte_pixel)) ;;
        dessiner reste (fst etat) (snd etat)
  end.

Definition redefinir (depuis dessins jeu : pyval) : M unit :=
  if negb (py_eqb jeu (PStr G0) || py_eqb jeu (PStr G1)) then raise AssertionError
  else
    match depuis, dessins with
    | PStr d, PStr pixels =>
        if negb (Z.of_nat (List.length d) =? 1) then raise AssertionError
        else
          (if py_eqb jeu (PStr G0)
           then envoyer (PList [PInt (US C); PInt 0x23; PInt 0x20; PInt 0x20;
                                PInt 0x20; PInt 0x42; PInt 0x49])
           else envoyer (PList [PInt (US C); PInt 0x23; PInt 0x20; PInt 0x20;
                                PInt 0x20; PInt 0x43; PInt 0x49])) ;;;
          envoyer (PList [PInt (US C); PInt 0x23; depuis; PInt 0x30]) ;;;
          dessiner pixels [] 0 ;;;
          envoyer (PList [PInt (US C); PInt 0x41; PInt 0x41]) ;;;
          if py_eqb jeu (PStr (py_str "GO"))
          then envoyer (PList [PInt (ESC C); PInt 0x28; PInt 0x20; PInt 0x42])
          else envoyer (PList [PInt (ESC C); PInt 0x29; PInt 0x20; PInt 0x43])
    | _, _ => raise AssertionError
    end.

End Engine.

End Minitel.

(** ** Notions used by the statements *)

(** An integer of the range of a byte. *)
Definition est_octet (n : Z) : bool := (0 <=? n) && (n <=? 255).

Definition tout_entier (n : Z) : bool := true.

(** Every integer that canonicalization will meet in [valeur] (the value
    itself, or an item of a list at any depth) passes the test [I]. *)
Fixpoint entiers (I : Z -> bool) (valeur : pyval) : bool :=
  match valeur with
  | PInt n => I n
  | PList l => forallb (entiers I) l
  | _ => true
  end.

(** The 7-bit bytes that the port delivers (7 data bits, even parity). *)
Definition sept_bits (a : list (N * Z)) : bool :=
  forallb (fun e => (0 <=? snd e) && (snd e <? 128)) a.

(** The values that [chr] takes. *)
Definition caracteres_valides (l : list pyval) : bool :=
  forallb (fun v => match v with
                    | PInt n => (0 <=? n) && (n <? 0x110000)
                    | _ => false
                    end) l.

(** An integer that [I] lets through or that fits a byte. *)
Definition admis (I : Z -> bool) (v : pyval) : Prop :=
  exists n, v = PInt n /\ (I n = true \/ 0 <= n <= 255).

(** The canonical form: a flat list of such integers, and its length kept. *)
Definition forme (I : Z -> bool) (s : Sequence.t) : Prop :=
  Forall (admis I) (Sequence.valeurs s) /\
  Sequence.longueur s = Z.of_nat (List.length (Sequence.valeurs s)).

(** The Sequence that holds the bytes [l]. *)
Definition trame (l : list Z) : Sequence.t :=
  Sequence.mk (map PInt l) (Z.of_nat (List.length l)) Sequence.VIDEOTEX.

(** The integers of a canonical value list. *)
Definition codes (l : list pyval) : list Z :=
  map (fun v => match v with PInt n => n | _ => 0 end) l.

(** No byte is waiting in the inbound queue. *)
Definition entree_vide (self : Minitel.t) : bool :=
  match Minitel.arrivees self with
  | [] => true
  | (instant, _) :: _ => negb (instant <=? Minitel.horloge self)%N
  end.

(** The three ways [Queue.get] ends. *)
Inductive issue_get (block : bool) (timeout : option N) (self : Minitel.t)
    : Minitel.outcome Z -> Prop :=
| issue_octet instant octet reste horloge' :
    Minitel.arrivees self = (instant, octet) :: reste ->
    issue_get block timeout self
      (Minitel.Ret octet
         (Minitel.avec_arrivees reste (Minitel.avec_horloge horloge' self)))
| issue_Empty horloge' :
    entree_vide self = true ->
    (block = false \/ timeout <> None) ->
    issue_get block timeout self
      (Minitel.Raise Empty (Minitel.avec_horloge horloge' self))
| issue_Bloque :
    Minitel.arrivees self = [] -> block = true -> timeout = None ->
    issue_get block timeout self Minitel.Bloque.

(** Two states of the engine that differ by the clock and the inbound side
    only. *)
Definition meme_engin (a b : Minitel.t) : Prop :=
  Minitel.mode b = Minitel.mode a /\
  Minitel.vitesse b = Minitel.vitesse a /\
  Minitel.capacite b = Minitel.capacite a /\
  Minitel.baudrate b = Minitel.baudrate a /\
  Minitel.sortie b = Minitel.sortie a /\
  Minitel.emis b = Minitel.emis a.

(** Values of the videotex protocol for the names of [constantes], used in
    the examples. *)
Definition protocole : Minitel.constantes :=
  {| Minitel.SS2 := 0x19;
     Minitel.SEP := 0x13;
     Minitel.ESC := 0x1b;
     Minitel.US := 0x1f;
     Minitel.PRO2 := PList [PInt 0x1b; PInt 0x3a];
     Minitel.MIXTE1 := PList [PInt 0x32; PInt 0x7d];
     Minitel.MIXTE2 := PList [PInt 0x32; PInt 0x7e];
     Minitel.TELINFO := PList [PInt 0x31; PInt 0x7d];
     Minitel.PROG := PInt 0x6b;
     Minitel.B300 := PInt 0x52;
     Minitel.B1200 := PInt 0x64;
     Minitel.B4800 := PInt 0x76;
     Minitel.B9600 := PInt 0x7f;
     Minitel.LONGUEUR_PRO2 := 4 |}.

Definition capacites_exemple : Minitel.capacites :=
  {| Minitel.nom := py_str "Minitel 2";
     Minitel.retournable := false;
     Minitel.clavier := Some (py_str "Azerty");
     Minitel.vitesse_max := 9600;
     Minitel.constructeur := py_str "Philips";
     Minitel.colonnes80 := true;
     Minitel.caracteres := true;
     Minitel.version := py_str "v" |}.

(** An engine at time 0, in the given mode, at 1200 bps, with nothing to
    send and the given bytes to come. *)
Definition engin (mode : list Z) (arrivees : list (N * Z)) : Minitel.t :=
  Minitel.mk mode 1200 capacites_exemple 0%N arrivees [] [] 1200.

(** One millisecond for each character, whatever the rate: the duration of
    [sortie.join()] in the examples. *)
Definition duree_exemple (baudrate : Z) (caracteres : list Z) : N :=
  N.of_nat (List.length caracteres).

Section Envois.

Variable normalize_NFKD : Z -> list Z.
Variable C : Minitel.constantes.

(** Calls of [envoyer] one after the other. *)
Fixpoint executer (contenus : list pyval) : Minitel.M unit :=
  match contenus with
  | [] => Minitel.ret tt
  | contenu :: reste =>
      Minitel.bind (Minitel.envoyer normalize_NFKD contenu)
                   (fun _ => executer reste)
  end.

(** The contents that the loop of [redefinir] hands to [envoyer], in order. *)
Fixpoint dessiner_envois (dessins : list Z) (octet : list Z) (compte_pixel : Z)
    : list pyval :=
  match dessins with
  | [] => []
  | pixel :: reste =>
      if negb (pixel =? 48) && negb (pixel =? 49) then
        dessiner_envois reste octet compte_pixel
      else
        let octet := octet ++ [pixel] in
        let compte_pixel := compte_pixel + 1 in
        let six := Z.of_nat (List.length octet) =? 6 in
        let octet' := if six then [] else octet in
        (if six then [PInt (0x40 + Minitel.int2 octet)] else []) ++
        (if compte_pixel =? 80
         then [PInt (0x40 + Minitel.int2 (octet' ++ py_str "0000")); PInt 0x30]
         else []) ++
        dessiner_envois reste
          (if compte_pixel =? 80 then [] else octet')
          (if compte_pixel =? 80 then 0 else compte_pixel)
  end.

(** The contents that [redefinir] hands to [envoyer] before the selection of
    the character set. *)
Definition redefinir_envois (depuis : Z) (dessins jeu : list Z) : list pyval :=
  PList [PInt (Minitel.US C); PInt 0x23; PInt 0x20; PInt 0x20; PInt 0x20;
         PInt (if Sequence.str_eqb jeu Minitel.G0 then 0x42 else 0x43); PInt 0x49]
  :: PList [PInt (Minitel.US C); PInt 0x23; PStr [depuis]; PInt 0x30]
  :: dessiner_envois dessins [] 0
  ++ [PList [PInt (Minitel.US C); PInt 0x41; PInt 0x41]].

End Envois.

(** A stand-in for the Unicode database in the examples: the decomposition
    that leaves a character as it is, which is what NFKD does on ASCII. *)
Definition sans_decomposition (c : Z) : list Z := [c].

Section Construction.

Variable normalize_NFKD : Z -> list Z.

(** The Sequence objects that the constructor and [ajoute] produce, from
    arguments whose integers pass [I]; an argument that is a Sequence is
    itself such an object. *)
Inductive construite (I : Z -> bool) : Sequence.t -> Prop :=
| construite_init valeur standard s :
    est_sequence valeur = false ->
    entiers I valeur = true ->
    Sequence.init normalize_NFKD valeur standard = Ok s ->
    construite I s
| construite_copie a standard s :
    construite I a ->
    Sequence.init normalize_NFKD (Sequence.objet a) standard = Ok s ->
    construite I s
| construite_ajoute self valeur s :
    construite I self ->
    est_sequence valeur = false ->
    entiers I valeur = true ->
    Sequence.ajoute normalize_NFKD self valeur = Ok s ->
    construite I s
| construite_ajoute_sequence self a s :
    construite I self ->
    construite I a ->
    Sequence.ajoute normalize_NFKD self (Sequence.objet a) = Ok s ->
    construite I s.

(** [s = Sequence(a, standard); s.ajoute(b); s.ajoute(c)] *)
Definition grouper_a_gauche (a b c : pyval) (standard : list Z)
    : result Sequence.t :=
  match Sequence.init normalize_NFKD a standard with
  | Err e => Err e
  | Ok s =>
      match Sequence.ajoute normalize_NFKD s b with
      | Err e => Err e
      | Ok s => Sequence.ajoute normalize_NFKD s c
      end
  end.

(** [t = Sequence(b, standard); t.ajoute(c); s = Sequence(a, standard);
    s.ajoute(t)] *)
Definition grouper_a_droite (a b c : pyval) (standard : list Z)
    : result Sequence.t :=
  match Sequence.init normalize_NFKD b standard with
  | Err e => Err e
  | Ok t =>
      match Sequence.ajoute normalize_NFKD t c with
      | Err e => Err e
      | Ok t =>
          match Sequence.init normalize_NFKD a standard with
          | Err e => Err e
          | Ok s => Sequence.ajoute normalize_NFKD s (Sequence.objet t)
          end
      end
  end.

End Construction.

(** ** Notions used by the further properties *)

(** The settings of the engine: mode, stored speed, capabilities and rate of
    the port. *)
Definition reglages (m : Minitel.t) : list Z * Z * Minitel.capacites * Z :=
  (Minitel.mode m, Minitel.vitesse m, Minitel.capacite m, Minitel.baudrate m).

(** The engine at the end of a call, when the call ends. *)
Definition etat_final {A : Type} (P : Minitel.t -> Prop) (o : Minitel.outcome A)
    : Prop :=
  match o with
  | Minitel.Ret _ m => P m
  | Minitel.Raise _ m => P m
  | Minitel.Bloque => True
  end.

(** A computation that leaves the settings as they are, however it ends. *)
Definition conserve {A : Type} (c : Minitel.M A) : Prop :=
  forall self, etat_final (fun m => reglages m = reglages self) (c self).

(** What a change of mode towards [nom] may leave behind: on a result, the
    mode is [nom] when the result is True and the former mode otherwise, and
    the other settings are the former ones; on an exception, all settings are
    the former ones. *)
Definition issue_mode (nom : list Z) (self : Minitel.t) (o : Minitel.outcome bool)
    : Prop :=
  match o with
  | Minitel.Ret r m =>
      Minitel.mode m = (if r then nom else Minitel.mode self) /\
      Minitel.vitesse m = Minitel.vitesse self /\
      Minitel.capacite m = Minitel.capacite self /\
      Minitel.baudrate m = Minitel.baudrate self
  | Minitel.Raise _ m => reglages m = reglages self
  | Minitel.Bloque => True
  end.


(** ** Minitel.py: detection of the speed, configuration of the keyboard *)

Module Negociation.

(** Modelled from the spec: names of the missing [minitel/constantes.py] that
    [deviner_vitesse], [configurer_clavier] and [echo] use besides those of
    [Minitel.constantes]; their values are left open. *)
Record constantes : Type := {
  PRO1 : pyval;
  PRO3 : pyval;
  STATUS_TERMINAL : pyval;
  START : pyval;
  STOP : pyval;
  RCPT_CLAVIER : pyval;
  ETEN : pyval;
  C0 : pyval;
  MINUSCULES : pyval;
  AIGUILLAGE_ON : pyval;
  AIGUILLAGE_OFF : pyval;
  RCPT_ECRAN : pyval;
  EMET_MODEM : pyval;
  LONGUEUR_PRO3 : Z
}.

Section Negociation.

Variable normalize_NFKD : Z -> list Z.
Variable C : Minitel.constantes.
Variable K : constantes.
Variable duree_emission : Z -> list Z -> N.

Local Notation "x <- c ;; k" := (Minitel.bind c (fun x => k))
  (at level 61, c at next level, right associativity).
Local Notation "c ;;; k" := (Minitel.bind c (fun _ => k))
  (at level 61, right associativity).

(** The loop of [deviner_vitesse] over the speeds still to try. *)
Fixpoint essayer (vitesses : list Z) : Minitel.M Z :=
  match vitesses with
  | [] => Minitel.ret (-1)
  | vitesse :: reste =>
      (fun self => Minitel.Ret tt (Minitel.avec_baudrate vitesse self)) ;;;
      retour <- Minitel.appeler normalize_NFKD duree_emission
                  (PList [PRO1 K; STATUS_TERMINAL K]) (Minitel.LONGUEUR_PRO2 C) ;;
      if Sequence.longueur retour =? Minitel.LONGUEUR_PRO2 C then
        fun self => Minitel.Ret vitesse (Minitel.avec_vitesse vitesse self)
      else essayer reste
  end.

Definition deviner_vitesse : Minitel.M Z := essayer [9600; 4800; 1200; 300].

(** The loop of [configurer_clavier] over the calls still to make. *)
Fixpoint appels_un_par_un (appels : list (pyval * Z)) : Minitel.M bool :=
  match appels with
  | [] => Minitel.ret true
  | (commande, longueur) :: reste =>
      retour <- Minitel.appeler normalize_NFKD duree_emission commande longueur ;;
      if negb (Sequence.longueur retour =? longueur) then Minitel.ret false
      else appels_un_par_un reste
  end.

(** [bascules = { True: START, False: STOP }] *)
Definition bascules (b : bool) : pyval := if b then START K else STOP K.

Definition configurer_clavier (etendu curseur minuscule : bool) : Minitel.M bool :=
  appels_un_par_un
    [ (PList [PRO3 K; bascules etendu; RCPT_CLAVIER K; ETEN K], LONGUEUR_PRO3 K);
      (PList [PRO3 K; bascules curseur; RCPT_CLAVIER K; C0 K], LONGUEUR_PRO3 K);
      (PList [Minitel.PRO2 C; bascules minuscule; MINUSCULES K],
       Minitel.LONGUEUR_PRO2 C) ].

Definition echo (actif : bool) : Minitel.M bool :=
  retour <- Minitel.appeler normalize_NFKD duree_emission
              (PList [PRO3 K; if actif then AIGUILLAGE_ON K else AIGUILLAGE_OFF K;
                      RCPT_ECRAN K; EMET_MODEM K]) (LONGUEUR_PRO3 K) ;;
  Minitel.ret (Sequence.longueur retour =? LONGUEUR_PRO3 K).

End Negociation.

End Negociation.

(** Values of the videotex protocol for the names of
    [Negociation.constantes], used in the examples. *)
Definition protocole_clavier : Negociation.constantes :=
  {| Negociation.PRO1 := PList [PInt 0x1b; PInt 0x39];
     Negociation.PRO3 := PList [PInt 0x1b; PInt 0x3b];
     Negociation.STATUS_TERMINAL := PInt 0x70;
     Negociation.START := PInt 0x69;
     Negociation.STOP := PInt 0x6a;
     Negociation.RCPT_CLAVIER := PInt 0x59;
     Negociation.ETEN := PInt 0x41;
     Negociation.C0 := PInt 0x43;
     Negociation.MINUSCULES := PInt 0x45;
     Negociation.AIGUILLAGE_ON := PInt 0x61;
     Negociation.AIGUILLAGE_OFF := PInt 0x60;
     Negociation.RCPT_ECRAN := PInt 0x58;
     Negociation.EMET_MODEM := PInt 0x52;
     Negociation.LONGUEUR_PRO3 := 5 |}.


(** ** Notions used for the redefinition of characters *)

(** The two characters that [redefinir] reads as pixels: '0' and '1'. *)
Definition est_pixel (c : Z) : bool := (c =? 48) || (c =? 49).

(** The first [n] groups of six characters of a text. *)
Fixpoint groupes (n : nat) (l : list Z) : list (list Z) :=
  match n with
  | O => []
  | S k => firstn 6 l :: groupes k (skipn 6 l)
  end.

(** The six pixels that a data byte of a redefinition stands for, as '0' and
    '1', the first pixel in the heaviest of the six low bits. *)
Definition bits6 (v : Z) : list Z :=
  map (fun i => if Z.testbit (v - 0x40) i then 49 else 48) [5; 4; 3; 2; 1; 0].

(** A drawing for the examples: eighty pixels, one lit out of two. *)
Definition damier : list Z := List.concat (repeat (py_str "01") 40).


(** * Lists read by index, as the interface elements do *)

(** [range(debut, fin)] and [range(debut, fin, -1)]. *)
Definition range (debut fin : Z) : list Z :=
  map (fun k => debut + Z.of_nat k) (seq 0 (Z.to_nat (fin - debut))).

Definition range_decroissant (debut fin : Z) : list Z :=
  map (fun k => debut - Z.of_nat k) (seq 0 (Z.to_nat (debut - fin))).

(** [l[i]]: a negative index counts from the end of the list, an index that
    falls outside the list raises IndexError. *)
Definition indice {A : Type} (l : list A) (i : Z) : result A :=
  let j := if i <? 0 then i + Z.of_nat (List.length l) else i in
  if j <? 0 then Err IndexError
  else match nth_error l (Z.to_nat j) with
       | Some x => Ok x
       | None => Err IndexError
       end.

(** The search loops of the interface: go through the indices in their
    order, stop at the first one whose element passes the test and return
    it; past the last index, return nothing. *)
Fixpoint premier_indice {A : Type} (garde : A -> bool) (l : list A)
    (indices : list Z) : result (option Z) :=
  match indices with
  | [] => Ok None
  | i :: suite =>
      match indice l i with
      | Err e => Err e
      | Ok x => if garde x then Ok (Some i) else premier_indice garde l suite
      end
  end.

(** The element at an index passes the test. *)
Definition verifie {A : Type} (garde : A -> bool) (l : list A) (i : Z) : bool :=
  match indice l i with
  | Ok x => garde x
  | Err _ => false
  end.

(** What a search finds over the indices from [a] up to [b] excluded: the
    nearest index whose element passes the test, or nothing when none does. *)
Definition trouve_apres {A : Type} (garde : A -> bool) (l : list A) (a b : Z)
    (r : result (option Z)) : Prop :=
  match r with
  | Ok (Some i) =>
      a <= i < b /\ verifie garde l i = true /\
      forall j, a <= j < i -> verifie garde l j = false
  | Ok None => forall j, a <= j < b -> verifie garde l j = false
  | Err _ => False
  end.

(** The same over the indices from [a] down to [b] excluded. *)
Definition trouve_avant {A : Type} (garde : A -> bool) (l : list A) (a b : Z)
    (r : result (option Z)) : Prop :=
  match r with
  | Ok (Some i) =>
      b < i <= a /\ verifie garde l i = true /\
      forall j, i < j <= a -> verifie garde l j = false
  | Ok None => forall j, b < j <= a -> verifie garde l j = false
  | Err _ => False
  end.

(** * Menus (minitel/ui/Menu.py): the search for the neighbouring option *)

Module Menu.

(** The text that stands for a separator in the list of options. *)
Definition separateur : list Z := py_str "-".

(** The test [self.options[i] != '-']. *)
Definition pas_separateur (option : list Z) : bool :=
  negb (Sequence.str_eqb option separateur).

Definition numero_valide (options : list (list Z)) (numero : Z) : bool :=
  (numero >=? 0) && (numero <? Z.of_nat (List.length options)).

Definition option_suivante (options : list (list Z)) (numero : Z)
  : result (option Z) :=
  if negb (numero_valide options numero) then Err AssertionError
  else premier_indice pas_separateur options
         (range (numero + 1) (Z.of_nat (List.length options))).

Definition option_precedente (options : list (list Z)) (numero : Z)
  : result (option Z) :=
  if negb (numero_valide options numero) then Err AssertionError
  else premier_indice pas_separateur options
         (range_decroissant (numero - 1) (-1)).

End Menu.

(** The line [i] of a menu is a separator, or is an option that can be
    selected. *)
Definition est_separateur (options : list (list Z)) (i : Z) : bool :=
  match indice options i with
  | Ok o => Sequence.str_eqb o Menu.separateur
  | Err _ => false
  end.

Definition selectionnable (options : list (list Z)) (i : Z) : bool :=
  verifie Menu.pas_separateur options i.

(** A menu for the examples. *)
Definition menu_exemple : list (list Z) :=
  [py_str "Nouveau"; py_str "Ouvrir"; py_str "-"; py_str "-"; py_str "Quitter";
   py_str "-"].


(** * Containers (minitel/ui/Conteneur.py): the active element *)

Module Conteneur.

(** An element of the interface as the container uses it: the object itself
    (two elements are the same object when they have the same identity), its
    attribute [activable] and its colour. *)
Record element : Type := {
  ident : Z;
  activable : bool;
  couleur : pyval
}.

(** The attributes of a container that the navigation reads and writes;
    [element_actif] designates an object, by its identity. *)
Record t : Type := mk {
  elements : list element;
  element_actif : option Z;
  couleur_conteneur : pyval
}.

(** The container that the constructor gives. *)
Definition vide (couleur : pyval) : t := mk [] None couleur.

Definition ajoute (self : t) (element : element) : result t :=
  if existsb (fun e => ident e =? ident element) (elements self)
  then Err AssertionError
  else
    let element :=
      if py_eqb (couleur element) PNone
      then {| ident := ident element; activable := activable element;
              couleur := couleur_conteneur self |}
      else element in
    Ok (mk (elements self ++ [element])
           (match element_actif self with
            | None => if activable element then Some (ident element) else None
            | Some actif => Some actif
            end)
           (couleur_conteneur self)).

(** [self.elements.index(objet)]: the first place of the object in the list,
    ValueError when it is not there. *)
Fixpoint index (l : list element) (objet : Z) : result Z :=
  match l with
  | [] => Err ValueError
  | e :: reste =>
      if ident e =? objet then Ok 0
      else match index reste objet with
           | Ok i => Ok (i + 1)
           | Err x => Err x
           end
  end.

(** [self.element_actif = self.elements[index]; return True]. *)
Definition activer (self : t) (i : Z) : result (bool * t) :=
  match indice (elements self) i with
  | Ok e => Ok (true, mk (elements self) (Some (ident e)) (couleur_conteneur self))
  | Err x => Err x
  end.

(** The loop [while index < len(self.elements) - 1: index += 1 ...] visits
    the indices of [range(index + 1, len(self.elements))] in their order. *)
Definition suivant (self : t) : result (bool * t) :=
  let longueur := Z.of_nat (List.length (elements self)) in
  if longueur =? 0 then Ok (false, self)
  else
    match (match element_actif self with
           | None => Ok (-1)
           | Some actif => index (elements self) actif
           end) with
    | Err x => Err x
    | Ok depart =>
        match premier_indice activable (elements self)
                (range (depart + 1) longueur) with
        | Err x => Err x
        | Ok (Some i) => activer self i
        | Ok None => Ok (false, self)
        end
    end.

(** The loop [while index > 0: index -= 1 ...] visits the indices of
    [range(index - 1, -1, -1)] in their order. *)
Definition precedent (self : t) : result (bool * t) :=
  let longueur := Z.of_nat (List.length (elements self)) in
  if longueur =? 0 then Ok (false, self)
  else
    match (match element_actif self with
           | None => Ok longueur
           | Some actif => index (elements self) actif
           end) with
    | Err x => Err x
    | Ok depart =>
        match premier_indice activable (elements self)
                (range_decroissant (depart - 1) (-1)) with
        | Err x => Err x
        | Ok (Some i) => activer self i
        | Ok None => Ok (false, self)
        end
    end.

End Conteneur.

(** The containers that the methods can produce from the one the
    constructor gives. *)
Inductive accessible : Conteneur.t -> Prop :=
| acc_vide couleur : accessible (Conteneur.vide couleur)
| acc_ajoute c e c' :
    accessible c -> Conteneur.ajoute c e = Ok c' -> accessible c'
| acc_suivant c b c' :
    accessible c -> Conteneur.suivant c = Ok (b, c') -> accessible c'
| acc_precedent c b c' :
    accessible c -> Conteneur.precedent c = Ok (b, c') -> accessible c'.

(** The elements of a container are distinct objects, and its active
    element is one of them that can be activated, or there is none and no
    element can be activated. *)
Definition coherent (c : Conteneur.t) : Prop :=
  NoDup (map Conteneur.ident (Conteneur.elements c)) /\
  match Conteneur.element_actif c with
  | None =>
      forall e, In e (Conteneur.elements c) -> Conteneur.activable e = false
  | Some actif =>
      exists e, In e (Conteneur.elements c) /\ Conteneur.ident e = actif /\
                Conteneur.activable e = true
  end.

(** The place of the active element in the list, [defaut] when there is
    none. *)
Definition place_active (defaut : Z) (c : Conteneur.t) : result Z :=
  match Conteneur.element_actif c with
  | None => Ok defaut
  | Some actif => Conteneur.index (Conteneur.elements c) actif
  end.

(** A form for the examples: a label, two fields, a label, a field. *)
Definition formulaire : Conteneur.t :=
  Conteneur.mk
    [ {| Conteneur.ident := 10; Conteneur.activable := false;
         Conteneur.couleur := PNone |};
      {| Conteneur.ident := 11; Conteneur.activable := true;
         Conteneur.couleur := PNone |};
      {| Conteneur.ident := 12; Conteneur.activable := false;
         Conteneur.couleur := PNone |};
      {| Conteneur.ident := 13; Conteneur.activable := true;
         Conteneur.couleur := PNone |} ]
    (Some 11) PNone.

(** Induction on values, through the lists they hold. *)
Section pyval_induction.

Variable P : pyval -> Prop.
Hypothesis HNone : P PNone.
Hypothesis HInt : forall n, P (PInt n).
Hypothesis HStr : forall s, P (PStr s).
Hypothesis HList : forall l, Forall P l -> P (PList l).
Hypothesis HSeq : forall v n s, Forall P v -> P (PSeq v n s).

Fixpoint pyval_induction (v : pyval) : P v :=
  match v with
  | PNone => HNone
  | PInt n => HInt n
  | PStr s => HStr s
  | PList l =>
      HList l ((fix tous (l : list pyval) : Forall P l :=
                  match l with
                  | [] => Forall_nil P
                  | x :: r => Forall_cons x (pyval_induction x) (tous r)
                  end) l)
  | PSeq v n s =>
      HSeq v n s ((fix tous (l : list pyval) : Forall P l :=
                     match l with
                     | [] => Forall_nil P
                     | x :: r => Forall_cons x (pyval_induction x) (tous r)
                     end) v)
  end.

End pyval_induction.

(** ** Sequence: canonical form, associativity, equality *)

Lemma list_eqb_refl {A : Type} (eqb : A -> A -> bool) (l : list A) :
  Forall (fun x => eqb x x = true) l -> list_eqb eqb l l = true.
Proof.
  induction 1 as [|x r Hx _ IH]; simpl; [reflexivity|].
  now rewrite Hx, IH.
Qed.

Lemma list_eqb_sym {A : Type} (eqb : A -> A -> bool) (l : list A) :
  Forall (fun x => forall y, eqb x y = eqb y x) l ->
  forall m, list_eqb eqb l m = list_eqb eqb m l.
Proof.
  induction 1 as [|x r Hx _ IH]; intros [|y m]; simpl; try reflexivity.
  now rewrite Hx, IH.
Qed.

Lemma py_eqb_liste (l m : list pyval) :
  (fix liste (l m : list pyval) : bool :=
     match l, m with
     | [], [] => true
     | x :: r1, y :: r2 => py_eqb x y && liste r1 r2
     | _, _ => false
     end) l m = list_eqb py_eqb l m.
Proof.
  revert m; induction l as [|x r IH]; intros [|y m]; simpl; try reflexivity.
  now rewrite IH.
Qed.

Lemma Z_list_eqb_refl (s : list Z) : list_eqb Z.eqb s s = true.
Proof.
  apply list_eqb_refl. apply Forall_forall. intros x _. apply Z.eqb_refl.
Qed.

Lemma Z_list_eqb_sym (s t : list Z) : list_eqb Z.eqb s t = list_eqb Z.eqb t s.
Proof.
  apply list_eqb_sym. apply Forall_forall. intros x _ y. apply Z.eqb_sym.
Qed.

Lemma py_eqb_refl (v : pyval) : py_eqb v v = true.
Proof.
  induction v as [| n | s | l IH | w n s IH] using pyval_induction; simpl.
  - reflexivity.
  - apply Z.eqb_refl.
  - apply Z_list_eqb_refl.
  - rewrite py_eqb_liste. now apply list_eqb_refl.
  - rewrite py_eqb_liste, list_eqb_refl, Z.eqb_refl, Z_list_eqb_refl by assumption.
    reflexivity.
Qed.

Lemma py_eqb_sym (a : pyval) : forall b, py_eqb a b = py_eqb b a.
Proof.
  induction a as [| n | s | l IH | w n s IH] using pyval_induction;
    intros [| n' | s' | l' | w' n' s']; simpl; try reflexivity.
  - apply Z.eqb_sym.
  - apply Z_list_eqb_sym.
  - rewrite !py_eqb_liste. now apply list_eqb_sym.
  - rewrite !py_eqb_liste.
    rewrite (list_eqb_sym py_eqb w IH w'), (Z.eqb_sym n n'), (Z_list_eqb_sym s s').
    reflexivity.
Qed.

Lemma valeurs_eqb_refl (l : list pyval) : list_eqb py_eqb l l = true.
Proof.
  apply list_eqb_refl, Forall_forall. intros x _. apply py_eqb_refl.
Qed.

Lemma valeurs_eqb_sym (l m : list pyval) :
  list_eqb py_eqb l m = list_eqb py_eqb m l.
Proof.
  apply list_eqb_sym, Forall_forall. intros x _. apply py_eqb_sym.
Qed.

(** Every entry of the two tables is an even number of hexadecimal digits,
    and no key occurs twice. *)
Lemma tables_hexadecimales :
  forallb (fun kv => Sequence.hexadecimal (snd kv))
          (Sequence.UNICODEVERSVIDEOTEX ++ Sequence.UNICODEVERSAUTRE) = true /\
  NoDup (map fst Sequence.UNICODEVERSVIDEOTEX) /\
  NoDup (map fst Sequence.UNICODEVERSAUTRE).
Proof.
  split; [reflexivity|].
  split; simpl; repeat (constructor; [simpl; intuition discriminate|]);
    constructor.
Qed.

Lemma hex_digit_borne (a : ascii) (h : Z) : Sequence.hex_digit a = Some h -> 0 <= h <= 15.
Proof.
  unfold Sequence.hex_digit.
  set (n := Z.of_N (N_of_ascii a)).
  destruct ((48 <=? n) && (n <=? 57)) eqn:E1;
    [|destruct ((65 <=? n) && (n <=? 70)) eqn:E2;
      [|destruct ((97 <=? n) && (n <=? 102)) eqn:E3]];
    intros H; inversion H; subst; clear H; lia.
Qed.

Lemma unhexlify_octets : forall s, Forall (fun n => 0 <= n <= 255) (Sequence.unhexlify s).
Proof.
  fix IH 1. intros [|a [|b r]]; cbn [Sequence.unhexlify]; try constructor.
  - pose proof (hex_digit_borne a) as Ha. pose proof (hex_digit_borne b) as Hb.
    destruct (Sequence.hex_digit a) as [x|]; destruct (Sequence.hex_digit b) as [y|];
      try (specialize (Ha x eq_refl)); try (specialize (Hb y eq_refl));
      clear IH; lia.
  - apply IH.
Qed.

Lemma encode_ascii_replace_octets (s : list Z) :
  Forall (fun n => 0 <= n <= 255) (Sequence.encode_ascii_replace s).
Proof.
  unfold Sequence.encode_ascii_replace. apply Forall_forall. intros n Hn.
  apply in_map_iff in Hn. destruct Hn as [c [<- _]].
  destruct ((0 <=? c) && (c <? 128)) eqn:E; lia.
Qed.

Section SequenceFacts.

Variable normalize_NFKD : Z -> list Z.

Local Abbreviation unicode_vers_minitel := (Sequence.unicode_vers_minitel normalize_NFKD).
Local Abbreviation canonise_element := (Sequence.canonise_element normalize_NFKD).
Local Abbreviation canonise := (Sequence.canonise normalize_NFKD).
Local Abbreviation ajoute := (Sequence.ajoute normalize_NFKD).
Local Abbreviation init := (Sequence.init normalize_NFKD).
Local Abbreviation egale := (Sequence.egale normalize_NFKD).

Lemma unicode_vers_minitel_octets (standard : list Z) (caractere : Z) :
  Forall (fun n => 0 <= n <= 255) (unicode_vers_minitel standard caractere).
Proof.
  unfold Sequence.unicode_vers_minitel.
  destruct (Sequence.str_eqb standard Sequence.VIDEOTEX);
    match goal with |- context [Sequence.dict_get ?t ?c] =>
      destruct (Sequence.dict_get t c) end;
    auto using unhexlify_octets, encode_ascii_replace_octets.
Qed.

Lemma Forall_flat_map {A B : Type} (P : B -> Prop) (f : A -> list B) (l : list A) :
  Forall (fun x => Forall P (f x)) l -> Forall P (flat_map f l).
Proof.
  induction 1 as [|x r Hx _ IH]; simpl; [constructor|].
  apply Forall_app; split; assumption.
Qed.

Lemma texte_admis (I : Z -> bool) (standard s : list Z) :
  Forall (admis I) (Sequence.texte normalize_NFKD standard s).
Proof.
  unfold Sequence.texte. apply Forall_flat_map, Forall_forall. intros c _.
  apply Forall_forall. intros v Hv. apply in_map_iff in Hv.
  destruct Hv as [n [<- Hn]]. exists n. split; [reflexivity|right].
  pose proof (unicode_vers_minitel_octets standard c) as H.
  rewrite Forall_forall in H. now apply H.
Qed.

Lemma canonise_element_admis (I : Z -> bool) (standard : list Z) (element : pyval) :
  entiers I element = true -> Forall (admis I) (canonise_element standard element).
Proof.
  induction element as [| n | s | l IH | w n s IH] using pyval_induction;
    simpl; intros HI.
  - constructor.
  - constructor; [|constructor]. exists n. auto.
  - apply texte_admis.
  - apply Forall_flat_map. rewrite forallb_forall in HI.
    rewrite Forall_forall in IH |- *. intros x Hx. apply IH; auto.
  - constructor.
Qed.

Lemma canonise_admis (I : Z -> bool) (self : Sequence.t) (valeur : pyval) (c : list pyval) :
  est_sequence valeur = false -> entiers I valeur = true ->
  canonise self valeur = Ok c -> Forall (admis I) c.
Proof.
  intros Hs HI. unfold Sequence.canonise.
  destruct valeur as [| n | s | l | w n s]; simpl in *; try discriminate;
    intros H; inversion H; subst; clear H.
  - constructor; [|constructor]. exists n. auto.
  - apply Forall_flat_map, Forall_forall. intros x Hx.
    apply in_map_iff in Hx. destruct Hx as [ch [<- _]].
    apply (canonise_element_admis I _ (PStr [ch])). reflexivity.
  - apply Forall_flat_map. rewrite forallb_forall in HI.
    apply Forall_forall. intros x Hx. apply canonise_element_admis; auto.
Qed.

Lemma ajoute_Ok (self : Sequence.t) (valeur : pyval) (s : Sequence.t) :
  ajoute self valeur = Ok s ->
  exists c, canonise self valeur = Ok c /\
            s = Sequence.mk (Sequence.valeurs self ++ c)
                  (Z.of_nat (List.length (Sequence.valeurs self ++ c)))
                  (Sequence.standard self).
Proof.
  unfold Sequence.ajoute.
  destruct (negb (isinstance_lisS valeur)); [discriminate|].
  destruct (canonise self valeur) as [c|e]; [|discriminate].
  intros H; inversion H. exists c. auto.
Qed.

Lemma init_Ok (valeur : pyval) (standard : list Z) (s : Sequence.t) :
  init valeur standard = Ok s ->
  Sequence.standard_connu standard = true /\
  ((valeur = PNone /\ s = Sequence.mk [] 0 standard) \/
   ajoute (Sequence.mk [] 0 standard) valeur = Ok s).
Proof.
  unfold Sequence.init.
  destruct (Sequence.standard_connu standard); simpl; [|discriminate].
  intros H. split; [reflexivity|].
  destruct valeur; auto. left. inversion H. auto.
Qed.

Lemma canonise_objet (self a : Sequence.t) :
  canonise self (Sequence.objet a) = Ok (Sequence.valeurs a).
Proof. reflexivity. Qed.

Lemma forme_ajoute (I : Z -> bool) (self s : Sequence.t) (valeur : pyval) (c : list pyval) :
  forme I self -> canonise self valeur = Ok c -> Forall (admis I) c ->
  ajoute self valeur = Ok s -> forme I s.
Proof.
  intros [Hv _] Hc Hadm Ha. apply ajoute_Ok in Ha.
  destruct Ha as [c' [Hc' ->]]. rewrite Hc in Hc'. inversion Hc'; subst c'.
  split; simpl; [apply Forall_app; split; assumption | reflexivity].
Qed.

Lemma forme_vide (I : Z -> bool) (standard : list Z) :
  forme I (Sequence.mk [] 0 standard).
Proof. split; simpl; [constructor | reflexivity]. Qed.

Lemma construite_forme (I : Z -> bool) (s : Sequence.t) :
  construite normalize_NFKD I s -> forme I s.
Proof.
  induction 1 as [valeur standard s Hs HI Hinit
                 | a standard s Ha IHa Hinit
                 | self valeur s Hself IHself Hs HI Haj
                 | self a s Hself IHself Ha IHa Haj].
  - apply init_Ok in Hinit. destruct Hinit as [_ [[-> ->] | Haj]].
    + apply forme_vide.
    + destruct (ajoute_Ok _ _ _ Haj) as [c [Hc _]].
      apply (forme_ajoute I _ s valeur c (forme_vide I standard) Hc); auto.
      eapply canonise_admis; eauto.
  - apply init_Ok in Hinit. destruct Hinit as [_ [[Habs _] | Haj]].
    + discriminate.
    + apply (forme_ajoute I _ s _ _ (forme_vide I standard)
               (canonise_objet _ a)); auto. apply IHa.
  - destruct (ajoute_Ok _ _ _ Haj) as [c [Hc _]].
    apply (forme_ajoute I _ s valeur c IHself Hc); auto.
    eapply canonise_admis; eauto.
  - apply (forme_ajoute I _ s _ _ IHself (canonise_objet _ a)); auto. apply IHa.
Qed.

Lemma canonise_total (self : Sequence.t) (valeur : pyval) :
  isinstance_lisS valeur = true ->
  exists c, forall self', Sequence.standard self' = Sequence.standard self ->
                          canonise self' valeur = Ok c.
Proof.
  intros Hv. unfold Sequence.canonise. rewrite Hv. simpl.
  destruct valeur; try discriminate; eexists; intros self' Hst;
    try rewrite Hst; reflexivity.
Qed.

Lemma ajoute_total (self : Sequence.t) (valeur : pyval) (c : list pyval) :
  isinstance_lisS valeur = true -> canonise self valeur = Ok c ->
  ajoute self valeur =
  Ok (Sequence.mk (Sequence.valeurs self ++ c)
        (Z.of_nat (List.length (Sequence.valeurs self ++ c)))
        (Sequence.standard self)).
Proof.
  intros Hv Hc. unfold Sequence.ajoute. now rewrite Hv, Hc.
Qed.

Lemma init_total (valeur : pyval) (standard : list Z) :
  Sequence.standard_connu standard = true ->
  exists c, (forall self, Sequence.standard self = standard ->
                          valeur <> PNone -> canonise self valeur = Ok c) /\
            init valeur standard =
            Ok (Sequence.mk c (Z.of_nat (List.length c)) standard).
Proof.
  intros Hs. unfold Sequence.init. rewrite Hs. simpl.
  destruct valeur as [| n | t | l | w n t].
  - exists []. split; [intros self _ H; now elim H | reflexivity].
  - exists [PInt n]. split; [reflexivity | reflexivity].
  - eexists. split; [intros self Hst _; unfold Sequence.canonise; rewrite Hst;
                     reflexivity | reflexivity].
  - eexists. split; [intros self Hst _; unfold Sequence.canonise; rewrite Hst;
                     reflexivity | reflexivity].
  - exists w. split; [reflexivity | reflexivity].
Qed.

(** C5 (as amended). After construction and after every [ajoute] with an
    argument of a supported kind, the value list is flat, made of integers
    only, and the stored length is the number of its elements; each element
    is either a byte in [0,255] produced from text or an integer that the
    caller supplied, kept as it is: all elements lie in [0,255] as soon as
    all supplied integers do. *)
Theorem sequence_forme_canonique (I : Z -> bool) (s : Sequence.t) :
  construite normalize_NFKD I s ->
  Forall (fun v => exists n, v = PInt n /\ (I n = true \/ 0 <= n <= 255))
         (Sequence.valeurs s) /\
  Sequence.longueur s = Z.of_nat (List.length (Sequence.valeurs s)).
Proof.
  intros H. exact (construite_forme I s H).
Qed.

(** C6. Appending is associative: for [a], [b], [c] of the supported kinds,
    the Sequence built from [a] to which [b] then [c] are appended has the
    same value list as the Sequence built from [a] to which is appended the
    Sequence built from [b] and [c]; both constructions succeed, and the two
    results are equal for [egale]. The same holds of the groupings by nested
    lists. *)
Theorem ajoute_associatif (a b c : pyval) (standard : list Z) :
  Sequence.standard_connu standard = true ->
  isinstance_lisS b = true ->
  isinstance_lisS c = true ->
  (exists g d,
      grouper_a_gauche normalize_NFKD a b c standard = Ok g /\
      grouper_a_droite normalize_NFKD a b c standard = Ok d /\
      Sequence.valeurs g = Sequence.valeurs d /\
      Sequence.longueur g = Sequence.longueur d /\
      egale g (Sequence.objet d) = Ok true) /\
  init (PList [PList [a; b]; c]) standard = init (PList [a; PList [b; c]]) standard.
Proof.
  intros Hs Hb Hc. split.
  - destruct (init_total a standard Hs) as [ca [_ Ha]].
    destruct (init_total b standard Hs) as [cb [Hcb Hb']].
    assert (Hbn : b <> PNone) by (intros ->; discriminate).
    assert (Hcn : c <> PNone) by (intros ->; discriminate).
    destruct (canonise_total (Sequence.mk [] 0 standard) c Hc) as [cc Hcc].
    unfold grouper_a_gauche, grouper_a_droite. rewrite Ha, Hb'.
    set (sa := Sequence.mk ca (Z.of_nat (List.length ca)) standard).
    set (sb := Sequence.mk cb (Z.of_nat (List.length cb)) standard).
    rewrite (ajoute_total sa b cb Hb (Hcb sa eq_refl Hbn)).
    rewrite (ajoute_total sb c cc Hc (Hcc sb eq_refl)).
    match goal with |- context [ajoute ?s c] =>
      rewrite (ajoute_total s c cc Hc (Hcc s eq_refl)) end.
    match goal with |- context [ajoute sa ?o] =>
      rewrite (ajoute_total sa o (cb ++ cc) eq_refl eq_refl) end.
    do 2 eexists. split; [reflexivity|split; [reflexivity|]]. simpl.
    rewrite <- app_assoc. repeat split.
    unfold Sequence.egale. simpl. now rewrite valeurs_eqb_refl.
  - unfold Sequence.init, Sequence.ajoute, Sequence.canonise. simpl.
    now rewrite !app_nil_r, app_assoc.
Qed.

(** C7. [egale] is reflexive, symmetric, and consistent with coercion: for a
    raw value [v] of a supported kind, [s.egale(v)] is [s.egale(Sequence(v))]. *)
Theorem egale_equivalence (s1 s2 : Sequence.t) (v : pyval) :
  isinstance_lisS v = true ->
  egale s1 (Sequence.objet s1) = Ok true /\
  egale s1 (Sequence.objet s2) = egale s2 (Sequence.objet s1) /\
  exists t, init v Sequence.VIDEOTEX = Ok t /\
            egale s1 v = egale s1 (Sequence.objet t).
Proof.
  intros Hv. split; [|split].
  - unfold Sequence.egale. simpl. now rewrite valeurs_eqb_refl.
  - unfold Sequence.egale. simpl. now rewrite valeurs_eqb_sym.
  - destruct (init_total v Sequence.VIDEOTEX eq_refl) as [cv [_ Hi]].
    eexists. split; [exact Hi|].
    unfold Sequence.egale. rewrite Hv. simpl.
    destruct v as [| n | t | l | w n t]; try discriminate; rewrite ?Hi; simpl;
      try reflexivity.
    unfold Sequence.init in Hi. simpl in Hi. inversion Hi. reflexivity.
Qed.

(** C9. A Sequence object that is a direct element of a list adds nothing:
    canonicalization, [ajoute] and the constructor give for the list what
    they give for the list without that element. *)
Theorem canonise_ignore_sequence_dans_liste
    (self : Sequence.t) (l1 l2 w : list pyval) (n : Z) (standard st : list Z) :
  canonise self (PList (l1 ++ PSeq w n st :: l2)) = canonise self (PList (l1 ++ l2)) /\
  ajoute self (PList (l1 ++ PSeq w n st :: l2)) = ajoute self (PList (l1 ++ l2)) /\
  init (PList (l1 ++ PSeq w n st :: l2)) standard = init (PList (l1 ++ l2)) standard.
Proof.
  assert (H : forall self', canonise self' (PList (l1 ++ PSeq w n st :: l2)) =
                            canonise self' (PList (l1 ++ l2))).
  { intros self'. unfold Sequence.canonise. simpl.
    now rewrite !flat_map_app. }
  split; [apply H|split].
  - unfold Sequence.ajoute. now rewrite H.
  - unfold Sequence.init, Sequence.ajoute. now rewrite H.
Qed.

End SequenceFacts.

(** Witness of [sequence_forme_canonique]: [Sequence([65, 'b', [0x1b]])]. *)
Lemma sequence_forme_canonique_temoin :
  construite sans_decomposition est_octet
    (Sequence.mk [PInt 65; PInt 98; PInt 27] 3 Sequence.VIDEOTEX) /\
  (Forall (fun v => exists n, v = PInt n /\ (est_octet n = true \/ 0 <= n <= 255))
          [PInt 65; PInt 98; PInt 27] /\
   3 = Z.of_nat (List.length [PInt 65; PInt 98; PInt 27])).
Proof.
  assert (H : construite sans_decomposition est_octet
                (Sequence.mk [PInt 65; PInt 98; PInt 27] 3 Sequence.VIDEOTEX)).
  { apply (construite_init sans_decomposition est_octet
             (PList [PInt 65; PStr [98]; PList [PInt 27]]) Sequence.VIDEOTEX);
      reflexivity. }
  split; [exact H|].
  exact (sequence_forme_canonique sans_decomposition est_octet _ H).
Defined.

(** C5 as stated fails on integers outside a byte: [Sequence(300)] is
    constructed from a supported argument and holds 300. *)
Lemma sequence_entier_hors_octet :
  Sequence.init sans_decomposition (PInt 300) Sequence.VIDEOTEX =
    Ok (Sequence.mk [PInt 300] 1 Sequence.VIDEOTEX) /\
  construite sans_decomposition tout_entier
    (Sequence.mk [PInt 300] 1 Sequence.VIDEOTEX) /\
  ~ Forall (fun v => exists n, v = PInt n /\ 0 <= n <= 255)
      (Sequence.valeurs (Sequence.mk [PInt 300] 1 Sequence.VIDEOTEX)).
Proof.
  split; [reflexivity|split].
  - apply (construite_init sans_decomposition tout_entier (PInt 300)
             Sequence.VIDEOTEX); reflexivity.
  - intros H. inversion H as [|x r [n [Hn Hr]] _]; subst.
    inversion Hn; subst. lia.
Qed.

(** Witness of [ajoute_associatif]: 0x1b, 'é' and [['A'], 66]. *)
Lemma ajoute_associatif_temoin :
  (exists g d,
      grouper_a_gauche sans_decomposition (PInt 27) (PStr [233])
        (PList [PList [PStr [65]]; PInt 66]) Sequence.VIDEOTEX = Ok g /\
      grouper_a_droite sans_decomposition (PInt 27) (PStr [233])
        (PList [PList [PStr [65]]; PInt 66]) Sequence.VIDEOTEX = Ok d /\
      Sequence.valeurs g = Sequence.valeurs d /\
      Sequence.longueur g = Sequence.longueur d /\
      Sequence.egale sans_decomposition g (Sequence.objet d) = Ok true) /\
  Sequence.init sans_decomposition
    (PList [PList [PInt 27; PStr [233]]; PList [PList [PStr [65]]; PInt 66]])
    Sequence.VIDEOTEX =
  Sequence.init sans_decomposition
    (PList [PInt 27; PList [PStr [233]; PList [PList [PStr [65]]; PInt 66]]])
    Sequence.VIDEOTEX.
Proof.
  apply (ajoute_associatif sans_decomposition (PInt 27) (PStr [233])
           (PList [PList [PStr [65]]; PInt 66]) Sequence.VIDEOTEX);
    reflexivity.
Defined.

(** Witness of [egale_equivalence]: the acknowledgment [0x13, 0x5e]. *)
Lemma egale_equivalence_temoin :
  isinstance_lisS (PList [PInt 19; PInt 94]) = true /\
  (Sequence.egale sans_decomposition
     (Sequence.mk [PInt 19; PInt 94] 2 Sequence.VIDEOTEX)
     (Sequence.objet (Sequence.mk [PInt 19; PInt 94] 2 Sequence.VIDEOTEX)) = Ok true /\
   Sequence.egale sans_decomposition
     (Sequence.mk [PInt 19; PInt 94] 2 Sequence.VIDEOTEX)
     (Sequence.objet (Sequence.mk [PInt 19] 1 Sequence.MIXTE)) =
   Sequence.egale sans_decomposition
     (Sequence.mk [PInt 19] 1 Sequence.MIXTE)
     (Sequence.objet (Sequence.mk [PInt 19; PInt 94] 2 Sequence.VIDEOTEX)) /\
   exists t, Sequence.init sans_decomposition (PList [PInt 19; PInt 94])
               Sequence.VIDEOTEX = Ok t /\
             Sequence.egale sans_decomposition
               (Sequence.mk [PInt 19; PInt 94] 2 Sequence.VIDEOTEX)
               (PList [PInt 19; PInt 94]) =
             Sequence.egale sans_decomposition
               (Sequence.mk [PInt 19; PInt 94] 2 Sequence.VIDEOTEX)
               (Sequence.objet t)).
Proof.
  split; [reflexivity|].
  apply (egale_equivalence sans_decomposition
           (Sequence.mk [PInt 19; PInt 94] 2 Sequence.VIDEOTEX)
           (Sequence.mk [PInt 19] 1 Sequence.MIXTE)
           (PList [PInt 19; PInt 94])).
  reflexivity.
Defined.

(** ** Minitel: queues, sending, transactions *)

Lemma dict_get_absent (table : list (Z * string)) (c : Z) :
  Forall (fun kv => fst kv <> c) table -> Sequence.dict_get table c = None.
Proof.
  induction 1 as [|[k v] r Hk _ IH]; simpl; [reflexivity|].
  simpl in Hk. destruct (Z.eqb_spec k c); [contradiction|assumption].
Qed.

Lemma videotex_ascii_absent (c : Z) :
  0 <= c < 128 -> Sequence.dict_get Sequence.UNICODEVERSVIDEOTEX c = None.
Proof.
  intros Hc. apply dict_get_absent. unfold Sequence.UNICODEVERSVIDEOTEX.
  repeat (constructor; [simpl; lia|]). constructor.
Qed.

Lemma avec_sortie_meme (self : Minitel.t) :
  Minitel.avec_sortie (Minitel.sortie self) self = self.
Proof. now destruct self. Qed.

Lemma sept_bits_oublier (maintenant : N) (a : list (N * Z)) :
  sept_bits a = true -> sept_bits (Minitel.oublier maintenant a) = true.
Proof.
  induction a as [|[t b] r IH]; simpl; [reflexivity|].
  intros H. destruct (t <=? maintenant)%N; [|exact H].
  apply andb_true_iff in H. now apply IH.
Qed.

Lemma avec_horloge_meme (self : Minitel.t) :
  Minitel.avec_horloge (Minitel.horloge self) self = self.
Proof. now destruct self. Qed.

Lemma entree_get_issue (block : bool) (timeout : option N) (self : Minitel.t) :
  issue_get block timeout self (Minitel.entree_get block timeout self).
Proof.
  unfold Minitel.entree_get.
  destruct (Minitel.arrivees self) as [|[t b] r] eqn:Ha.
  - destruct block; simpl.
    + destruct timeout as [d|].
      * apply issue_Empty; [unfold entree_vide; now rewrite Ha | right; discriminate].
      * now apply issue_Bloque.
    + rewrite <- (avec_horloge_meme self) at 2.
      apply issue_Empty; [unfold entree_vide; now rewrite Ha | now left].
  - destruct (t <=? Minitel.horloge self)%N eqn:Ht.
    + rewrite <- (avec_horloge_meme self) at 2. now apply issue_octet with t.
    + assert (Hv : entree_vide self = true)
        by (unfold entree_vide; now rewrite Ha, Ht).
      destruct block; simpl.
      * destruct timeout as [d|].
        -- destruct (t <=? Minitel.horloge self + d)%N.
           ++ now apply issue_octet with t.
           ++ apply issue_Empty; [exact Hv | right; discriminate].
        -- now apply issue_octet with t.
      * rewrite <- (avec_horloge_meme self) at 2.
        apply issue_Empty; [exact Hv | now left].
Qed.

Section MinitelFacts.

Variable normalize_NFKD : Z -> list Z.
Variable C : Minitel.constantes.
Variable duree_emission : Z -> list Z -> N.

Local Abbreviation envoyer := (Minitel.envoyer normalize_NFKD).
Local Abbreviation appeler := (Minitel.appeler normalize_NFKD duree_emission).
Local Abbreviation collecter := (Minitel.collecter normalize_NFKD).
Local Abbreviation recevoir_dans := (Minitel.recevoir_dans normalize_NFKD).
Local Abbreviation recevoir_sequence := (Minitel.recevoir_sequence normalize_NFKD C).
Local Abbreviation definir_mode := (Minitel.definir_mode normalize_NFKD C duree_emission).
Local Abbreviation definir_vitesse := (Minitel.definir_vitesse normalize_NFKD C duree_emission).
Local Abbreviation redefinir := (Minitel.redefinir normalize_NFKD C).

Lemma mettre_valides (l : list pyval) (self : Minitel.t) :
  caracteres_valides l = true ->
  Minitel.mettre l self =
  Minitel.Ret tt (Minitel.avec_sortie (Minitel.sortie self ++ codes l) self).
Proof.
  revert self. induction l as [|v r IH]; intros self H.
  - destruct self. unfold Minitel.avec_sortie. simpl. now rewrite app_nil_r.
  - simpl. simpl in H. apply andb_true_iff in H. destruct H as [Hv Hr].
    destruct v as [| n | | |]; try discriminate.
    unfold Minitel.bind, Minitel.lift, Minitel.chr. rewrite Hv.
    unfold Minitel.ret. rewrite (IH _ Hr). simpl.
    rewrite <- app_assoc. reflexivity.
Qed.

(** The canonical values of a list handed to [envoyer] or [appeler]. *)
Lemma init_liste (l : list pyval) :
  Sequence.init normalize_NFKD (PList l) Sequence.VIDEOTEX =
  Ok (Sequence.mk
        (flat_map (Sequence.canonise_element normalize_NFKD Sequence.VIDEOTEX) l)
        (Z.of_nat (List.length
           (flat_map (Sequence.canonise_element normalize_NFKD Sequence.VIDEOTEX) l)))
        Sequence.VIDEOTEX).
Proof. reflexivity. Qed.

Lemma envoyer_liste (l : list pyval) (self : Minitel.t) :
  caracteres_valides
    (flat_map (Sequence.canonise_element normalize_NFKD Sequence.VIDEOTEX) l) = true ->
  envoyer (PList l) self =
  Minitel.Ret tt
    (Minitel.avec_sortie
       (Minitel.sortie self ++
        codes (flat_map (Sequence.canonise_element normalize_NFKD Sequence.VIDEOTEX) l))
       self).
Proof.
  intros H. unfold Minitel.envoyer, Minitel.Sequence_init.
  rewrite init_liste. unfold Minitel.bind, Minitel.lift, Minitel.ret. simpl.
  now apply mettre_valides.
Qed.

Lemma envoyer_entier (n : Z) (self : Minitel.t) :
  0 <= n < 0x110000 ->
  envoyer (PInt n) self =
  Minitel.Ret tt (Minitel.avec_sortie (Minitel.sortie self ++ [n]) self).
Proof.
  intros H. unfold Minitel.envoyer, Minitel.Sequence_init.
  change (Sequence.init normalize_NFKD (PInt n) Sequence.VIDEOTEX)
    with (Ok (Sequence.mk [PInt n] 1 Sequence.VIDEOTEX)).
  unfold Minitel.bind, Minitel.lift, Minitel.ret.
  apply (mettre_valides [PInt n]).
  unfold caracteres_valides, forallb.
  rewrite andb_true_r. apply andb_true_iff. split; lia.
Qed.

Lemma decode_sept_bits (octet : Z) :
  (0 <=? octet) && (octet <? 128) = true ->
  Minitel.decode octet = Ok (PStr [octet]).
Proof. intros H. unfold Minitel.decode. now rewrite H. Qed.

Lemma ajoute_caractere (retour : Sequence.t) (octet : Z) :
  exists c,
    Sequence.ajoute normalize_NFKD retour (PStr [octet]) =
    Ok (Sequence.mk (Sequence.valeurs retour ++ c)
          (Z.of_nat (List.length (Sequence.valeurs retour ++ c)))
          (Sequence.standard retour)).
Proof. eexists. reflexivity. Qed.

(** The loop of [appeler] ends, with a reply and an engine changed on its
    inbound side only. *)
Lemma collecter_retourne (n : nat) :
  forall (retour : Sequence.t) (self : Minitel.t),
    sept_bits (Minitel.arrivees self) = true ->
    exists r self',
      collecter n retour self = Minitel.Ret r self' /\
      meme_engin self self' /\
      sept_bits (Minitel.arrivees self') = true /\
      Sequence.standard r = Sequence.standard retour /\
      (Sequence.longueur retour = Z.of_nat (List.length (Sequence.valeurs retour)) ->
       Sequence.longueur r = Z.of_nat (List.length (Sequence.valeurs r))).
Proof.
  induction n as [|k IH]; intros retour self H7.
  - exists retour, self. simpl. unfold Minitel.ret, meme_engin. tauto.
  - simpl. destruct (entree_get_issue true (Some 1000%N) self)
      as [t b reste h' Ha | h' Hv _ | _ _ Habs]; [| |discriminate].
    + rewrite Ha in H7. simpl in H7. apply andb_true_iff in H7.
      destruct H7 as [Hb Hr]. simpl in Hb.
      unfold Minitel.bind at 1. unfold Minitel.lift at 1.
      rewrite (decode_sept_bits b Hb). unfold Minitel.ret at 1.
      destruct (ajoute_caractere retour b) as [c Hc].
      unfold Minitel.bind, Minitel.Sequence_ajoute, Minitel.lift.
      rewrite Hc. unfold Minitel.ret at 1.
      match goal with |- context [collecter k ?r ?s] =>
        destruct (IH r s) as [r' [self' [Hcol [Hm [H7' [Hst Hl]]]]]] end;
        [exact Hr|].
      exists r', self'. rewrite Hcol. split; [reflexivity|].
      split; [|split; [exact H7'|split; [exact Hst|intros _; now apply Hl]]].
      unfold meme_engin in *. simpl in Hm. exact Hm.
    + eexists retour, _. split; [reflexivity|].
      unfold meme_engin. simpl. tauto.
Qed.

(** A transaction whose command is made of characters that [chr] accepts
    ends: the command has left by the port, after what was still queued, and
    the reply is a well-formed Sequence. *)
Lemma appeler_retourne (l : list pyval) (n : Z) (self : Minitel.t) :
  caracteres_valides
    (flat_map (Sequence.canonise_element normalize_NFKD Sequence.VIDEOTEX) l) = true ->
  sept_bits (Minitel.arrivees self) = true ->
  exists r self',
    appeler (PList l) n self = Minitel.Ret r self' /\
    Minitel.mode self' = Minitel.mode self /\
    Minitel.vitesse self' = Minitel.vitesse self /\
    Minitel.capacite self' = Minitel.capacite self /\
    Minitel.baudrate self' = Minitel.baudrate self /\
    Minitel.sortie self' = [] /\
    Minitel.emis self' =
      Minitel.emis self ++ Minitel.sortie self ++
      codes (flat_map (Sequence.canonise_element normalize_NFKD Sequence.VIDEOTEX) l) /\
    sept_bits (Minitel.arrivees self') = true /\
    Sequence.standard r = Sequence.VIDEOTEX /\
    Sequence.longueur r = Z.of_nat (List.length (Sequence.valeurs r)).
Proof.
  intros Hc H7. unfold Minitel.appeler.
  unfold Minitel.bind at 1. unfold Minitel.bind at 1.
  rewrite (envoyer_liste l _ Hc).
  unfold Minitel.bind at 1. unfold Minitel.sortie_join.
  unfold Minitel.bind at 1. unfold Minitel.Sequence_init.
  change (Sequence.init normalize_NFKD PNone Sequence.VIDEOTEX)
    with (Ok (Sequence.mk [] 0 Sequence.VIDEOTEX)).
  unfold Minitel.lift, Minitel.ret.
  match goal with |- context [Minitel.collecter _ ?k ?r ?s] =>
    destruct (collecter_retourne k r s) as [r' [self' [Hcol [Hm [H7' [Hst Hl]]]]]]
  end.
  { simpl. now apply sept_bits_oublier. }
  exists r', self'. split; [exact Hcol|].
  destruct Hm as [Hmode [Hvit [Hcap [Hbaud [Hsort Hemis]]]]].
  simpl in Hmode, Hvit, Hcap, Hbaud, Hsort, Hemis.
  rewrite Hmode, Hvit, Hcap, Hbaud, Hsort, Hemis, Hst.
  repeat split; try assumption. now apply Hl.
Qed.

Lemma egale_liste (r : Sequence.t) (l : list pyval) :
  Sequence.egale normalize_NFKD r (PList l) =
  Ok (list_eqb py_eqb (Sequence.valeurs r)
        (flat_map (Sequence.canonise_element normalize_NFKD Sequence.VIDEOTEX) l)).
Proof. reflexivity. Qed.

(** C3. From TeleInformatique, [definir_mode('MIXTE')] first runs the
    transaction to Videotex ([CSI, 0x3f, 0x7b], two bytes awaited). If the
    reply is not [SEP, 0x5e] it returns False at once: nothing more is sent
    and the mode is still TeleInformatique. Otherwise it runs the transaction
    to Mixed ([PRO2, MIXTE1], two bytes awaited), and keeps the mode MIXTE
    exactly when that reply is [SEP, 0x70]. *)
Theorem definir_mode_teleinformatique_vers_mixte (self : Minitel.t) :
  Minitel.mode self = Sequence.TELEINFORMATIQUE ->
  0 <= Minitel.ESC C < 0x110000 ->
  caracteres_valides
    (flat_map (Sequence.canonise_element normalize_NFKD Sequence.VIDEOTEX)
       [Minitel.PRO2 C; Minitel.MIXTE1 C]) = true ->
  sept_bits (Minitel.arrivees self) = true ->
  exists r1 self1,
    appeler (PList [Minitel.CSI C; PInt 0x3f; PInt 0x7b]) 2 self =
      Minitel.Ret r1 self1 /\
    Minitel.emis self1 =
      Minitel.emis self ++ Minitel.sortie self ++ [Minitel.ESC C; 0x5b; 0x3f; 0x7b] /\
    (Sequence.egale normalize_NFKD r1 (PList [PInt (Minitel.SEP C); PInt 0x5e]) = Ok false ->
     definir_mode (PStr Sequence.MIXTE) self = Minitel.Ret false self1 /\
     Minitel.mode self1 = Sequence.TELEINFORMATIQUE) /\
    (Sequence.egale normalize_NFKD r1 (PList [PInt (Minitel.SEP C); PInt 0x5e]) = Ok true ->
     exists r2 self2 resultat,
       appeler (PList [Minitel.PRO2 C; Minitel.MIXTE1 C]) 2 self1 =
         Minitel.Ret r2 self2 /\
       Sequence.egale normalize_NFKD r2 (PList [PInt (Minitel.SEP C); PInt 0x70]) =
         Ok resultat /\
       Minitel.emis self2 =
         Minitel.emis self1 ++
         codes (flat_map (Sequence.canonise_element normalize_NFKD Sequence.VIDEOTEX)
                  [Minitel.PRO2 C; Minitel.MIXTE1 C]) /\
       definir_mode (PStr Sequence.MIXTE) self =
         Minitel.Ret resultat
           (if resultat then Minitel.avec_mode Sequence.MIXTE self2 else self2)).
Proof.
  intros Hmode Hesc Hcmd H7.
  destruct (appeler_retourne [Minitel.CSI C; PInt 0x3f; PInt 0x7b] 2 self)
    as [r1 [self1 [H1 [Hm1 [_ [_ [_ [Hs1 [He1 [H71 _]]]]]]]]]]; [|exact H7|].
  { unfold caracteres_valides. simpl.
    replace ((0 <=? Minitel.ESC C) && (Minitel.ESC C <? 1114112)) with true by lia.
    reflexivity. }
  exists r1, self1. split; [exact H1|]. split; [exact He1|].
  assert (Hdm : definir_mode (PStr Sequence.MIXTE) self =
    match Sequence.egale normalize_NFKD r1 (PList [PInt (Minitel.SEP C); PInt 0x5e]) with
    | Ok true =>
        match appeler (PList [Minitel.PRO2 C; Minitel.MIXTE1 C]) 2 self1 with
        | Minitel.Ret r2 self2 =>
            match Sequence.egale normalize_NFKD r2
                    (PList [PInt (Minitel.SEP C); PInt 0x70]) with
            | Ok resultat =>
                Minitel.Ret resultat
                  (if resultat then Minitel.avec_mode Sequence.MIXTE self2 else self2)
            | Err e => Minitel.Raise e self2
            end
        | Minitel.Raise e m => Minitel.Raise e m
        | Minitel.Bloque => Minitel.Bloque
        end
    | Ok false => Minitel.Ret false self1
    | Err e => Minitel.Raise e self1
    end).
  { unfold Minitel.definir_mode.
    replace (negb (existsb (Sequence.str_eqb Sequence.MIXTE)
               [Sequence.VIDEOTEX; Sequence.MIXTE; Sequence.TELEINFORMATIQUE]))
      with false by reflexivity.
    unfold Minitel.bind at 1. rewrite Hmode.
    replace (Sequence.str_eqb Sequence.TELEINFORMATIQUE Sequence.MIXTE)
      with false by reflexivity.
    replace (Sequence.str_eqb Sequence.TELEINFORMATIQUE Sequence.TELEINFORMATIQUE)
      with true by reflexivity.
    replace (Sequence.str_eqb Sequence.MIXTE Sequence.VIDEOTEX)
      with false by reflexivity.
    replace (Sequence.str_eqb Sequence.MIXTE Sequence.MIXTE)
      with true by reflexivity.
    cbv beta iota delta [andb].
    unfold Minitel.bind at 1. rewrite H1.
    unfold Minitel.bind at 1. unfold Minitel.Sequence_egale.
    rewrite !egale_liste. unfold Minitel.lift at 1, Minitel.ret at 1.
    destruct (list_eqb py_eqb (Sequence.valeurs r1) _); cbv beta iota delta [negb];
      [|reflexivity].
    unfold Minitel.bind at 1.
    destruct (Minitel.appeler _ _ _ _ self1) as [r2 self2 | e m |]; try reflexivity. }
  split.
  - intros He. rewrite Hdm, He. split; [reflexivity|]. now rewrite Hm1.
  - intros He. rewrite Hdm, He.
    destruct (appeler_retourne [Minitel.PRO2 C; Minitel.MIXTE1 C] 2 self1 Hcmd H71)
      as [r2 [self2 [H2 [_ [_ [_ [_ [_ [He2 _]]]]]]]]].
    rewrite H2, egale_liste. rewrite Hs1 in He2.
    eexists r2, self2, _. repeat split; try reflexivity. exact He2.
Qed.

(** C4. For a supported rate within the capability of the device,
    [definir_vitesse] runs the speed-programming transaction
    [PRO2, PROG, code] and then: on a reply of the full length LONGUEUR_PRO2
    it returns False, port rate and stored speed as they were; on any other
    reply (a shorter one) it sets the port and the stored speed to the rate
    and returns True. *)
Theorem definir_vitesse_acquittement (vitesse : Z) (code : pyval) (self : Minitel.t) :
  Minitel.vitesses C vitesse = Some code ->
  vitesse <= Minitel.vitesse_max (Minitel.capacite self) ->
  caracteres_valides
    (flat_map (Sequence.canonise_element normalize_NFKD Sequence.VIDEOTEX)
       [Minitel.PRO2 C; Minitel.PROG C; code]) = true ->
  sept_bits (Minitel.arrivees self) = true ->
  exists retour self1,
    appeler (PList [Minitel.PRO2 C; Minitel.PROG C; code])
      (Minitel.LONGUEUR_PRO2 C) self = Minitel.Ret retour self1 /\
    Minitel.emis self1 =
      Minitel.emis self ++ Minitel.sortie self ++
      codes (flat_map (Sequence.canonise_element normalize_NFKD Sequence.VIDEOTEX)
               [Minitel.PRO2 C; Minitel.PROG C; code]) /\
    Minitel.baudrate self1 = Minitel.baudrate self /\
    Minitel.vitesse self1 = Minitel.vitesse self /\
    (Sequence.longueur retour = Minitel.LONGUEUR_PRO2 C ->
     definir_vitesse vitesse self = Minitel.Ret false self1) /\
    (Sequence.longueur retour <> Minitel.LONGUEUR_PRO2 C ->
     exists self2,
       definir_vitesse vitesse self = Minitel.Ret true self2 /\
       Minitel.baudrate self2 = vitesse /\
       Minitel.vitesse self2 = vitesse /\
       self2 = Minitel.avec_vitesse vitesse (Minitel.avec_baudrate vitesse self1)).
Proof.
  intros Hv Hmax Hcmd H7.
  destruct (appeler_retourne _ (Minitel.LONGUEUR_PRO2 C) self Hcmd H7)
    as [r [self1 [H1 [_ [Hvit [_ [Hbaud [_ [He _]]]]]]]]].
  exists r, self1. repeat (split; [assumption|]).
  assert (Hdv : definir_vitesse vitesse self =
    if Sequence.longueur r =? Minitel.LONGUEUR_PRO2 C then Minitel.Ret false self1
    else Minitel.Ret true
           (Minitel.avec_vitesse vitesse (Minitel.avec_baudrate vitesse self1))).
  { unfold Minitel.definir_vitesse. rewrite Hv.
    replace (vitesse >? Minitel.vitesse_max (Minitel.capacite self)) with false by lia.
    unfold Minitel.bind. rewrite H1.
    destruct (Sequence.longueur r =? Minitel.LONGUEUR_PRO2 C); reflexivity. }
  split; intros Hl; rewrite Hdv.
  - apply Z.eqb_eq in Hl. now rewrite Hl.
  - apply Z.eqb_neq in Hl. rewrite Hl. eexists. repeat split.
Qed.

(** C8 (as amended). A mode name outside VIDEOTEX, MIXTE and TELEINFORMATIQUE
    is refused at once by the result False; no exception is raised, nothing
    is sent and the engine is unchanged. *)
Theorem definir_mode_nom_inconnu (mode : list Z) (self : Minitel.t) :
  existsb (Sequence.str_eqb mode)
    [Sequence.VIDEOTEX; Sequence.MIXTE; Sequence.TELEINFORMATIQUE] = false ->
  definir_mode (PStr mode) self = Minitel.Ret false self.
Proof.
  intros H. unfold Minitel.definir_mode. now rewrite H.
Qed.

Lemma get_vide (attente : option N) (self : Minitel.t) :
  entree_vide self = true ->
  Minitel.entree_get false attente self = Minitel.Raise Empty self.
Proof.
  unfold entree_vide, Minitel.entree_get.
  destruct (Minitel.arrivees self) as [|[t b] r]; [reflexivity|].
  intros H. apply negb_true_iff in H. now rewrite H.
Qed.

(** C2 (as amended). Called with [bloque = False] while no byte waits in the
    inbound queue, [recevoir_sequence] returns no Sequence: the exception
    Empty of the queue goes up to the caller, and the engine is unchanged. *)
Theorem recevoir_sequence_file_vide (attente : option N) (self : Minitel.t) :
  entree_vide self = true ->
  recevoir_sequence false attente self = Minitel.Raise Empty self.
Proof.
  intros H. unfold Minitel.recevoir_sequence, Minitel.Sequence_init.
  change (Sequence.init normalize_NFKD PNone Sequence.VIDEOTEX)
    with (Ok (Sequence.mk [] 0 Sequence.VIDEOTEX)).
  unfold Minitel.bind at 1. unfold Minitel.lift at 1, Minitel.ret at 1.
  unfold Minitel.bind at 1. unfold Minitel.recevoir_dans at 1.
  unfold Minitel.bind at 1. unfold Minitel.recevoir at 1.
  unfold Minitel.bind at 1. now rewrite (get_vide attente self H).
Qed.

Section Cadrage.

Hypothesis NFKD_ascii : forall c, 0 <= c < 128 -> normalize_NFKD c = [c].

Lemma ajoute_trame (l : list Z) (octet : Z) :
  0 <= octet < 128 ->
  Sequence.ajoute normalize_NFKD (trame l) (PStr [octet]) = Ok (trame (l ++ [octet])).
Proof.
  intros H. unfold Sequence.ajoute, Sequence.canonise, trame. simpl.
  unfold Sequence.unicode_vers_minitel.
  replace (Sequence.str_eqb Sequence.VIDEOTEX Sequence.VIDEOTEX) with true
    by reflexivity.
  rewrite (videotex_ascii_absent octet H), (NFKD_ascii octet H).
  unfold Sequence.encode_ascii_replace. simpl.
  replace ((0 <=? octet) && (octet <? 128)) with true by lia. simpl.
  rewrite map_app, !length_app, length_map. reflexivity.
Qed.

Lemma recevoir_dans_octet (l : list Z) (bloque : bool) (attente : option N)
    (self self' : Minitel.t) (octet : Z) :
  0 <= octet < 128 ->
  Minitel.entree_get bloque attente self = Minitel.Ret octet self' ->
  recevoir_dans (trame l) bloque attente self =
  Minitel.Ret (trame (l ++ [octet])) self'.
Proof.
  intros Ho Hg. unfold Minitel.recevoir_dans, Minitel.recevoir, Minitel.bind.
  rewrite Hg. unfold Minitel.lift, Minitel.decode.
  replace ((0 <=? octet) && (octet <? 128)) with true by lia.
  unfold Minitel.ret, Minitel.Sequence_ajoute. now rewrite ajoute_trame.
Qed.

Lemma recevoir_dans_exception (s : Sequence.t) (bloque : bool)
    (attente : option N) (self self' : Minitel.t) (e : exn) :
  Minitel.entree_get bloque attente self = Minitel.Raise e self' ->
  recevoir_dans s bloque attente self = Minitel.Raise e self'.
Proof.
  intros Hg. unfold Minitel.recevoir_dans, Minitel.recevoir, Minitel.bind.
  now rewrite Hg.
Qed.

End Cadrage.

Lemma get_bloquant (self : Minitel.t) (instant : N) (octet : Z)
    (reste : list (N * Z)) :
  Minitel.arrivees self = (instant, octet) :: reste ->
  exists self',
    Minitel.entree_get true None self = Minitel.Ret octet self' /\
    Minitel.arrivees self' = reste.
Proof.
  intros Ha. unfold Minitel.entree_get. rewrite Ha.
  destruct (instant <=? Minitel.horloge self)%N; eexists; split; reflexivity.
Qed.

Lemma get_delai (self : Minitel.t) (delai instant : N) (octet : Z)
    (reste : list (N * Z)) :
  Minitel.arrivees self = (instant, octet) :: reste ->
  (instant <= Minitel.horloge self + delai)%N ->
  exists self',
    Minitel.entree_get true (Some delai) self = Minitel.Ret octet self' /\
    Minitel.arrivees self' = reste.
Proof.
  intros Ha Ht. unfold Minitel.entree_get. rewrite Ha.
  destruct (instant <=? Minitel.horloge self)%N;
    [eexists; split; reflexivity|]. simpl.
  apply N.leb_le in Ht. rewrite Ht. eexists; split; reflexivity.
Qed.

Lemma get_delai_passe (self : Minitel.t) (delai : N) :
  (Minitel.arrivees self = [] \/
   exists instant octet reste,
     Minitel.arrivees self = (instant, octet) :: reste /\
     (Minitel.horloge self + delai < instant)%N) ->
  Minitel.entree_get true (Some delai) self =
  Minitel.Raise Empty (Minitel.avec_horloge (Minitel.horloge self + delai) self).
Proof.
  unfold Minitel.entree_get. intros [Ha | [t [b [r [Ha Ht]]]]]; rewrite Ha.
  - reflexivity.
  - assert (E1 : (t <=? Minitel.horloge self)%N = false)
      by (apply N.leb_gt; lia).
    assert (E2 : (t <=? Minitel.horloge self + delai)%N = false)
      by (apply N.leb_gt; lia).
    rewrite E1, E2. reflexivity.
Qed.

Lemma get_octet_sept_bits (bloque : bool) (attente : option N)
    (self self' : Minitel.t) (octet : Z) :
  sept_bits (Minitel.arrivees self) = true ->
  Minitel.entree_get bloque attente self = Minitel.Ret octet self' ->
  0 <= octet < 128 /\ sept_bits (Minitel.arrivees self') = true.
Proof.
  intros H7 Hg. pose proof (entree_get_issue bloque attente self) as Hi.
  rewrite Hg in Hi. inversion Hi as [t b r h Ha Heq | |]; subst.
  rewrite Ha in H7. simpl in H7. apply andb_true_iff in H7.
  destruct H7 as [Hb Hr]. simpl in Hb. split; [lia|exact Hr].
Qed.

(** [recevoir_sequence] once its first byte is read. *)
Lemma recevoir_sequence_premier_octet (bloque : bool) (attente : option N)
    (self self1 : Minitel.t) (b0 : Z) :
  (forall c, 0 <= c < 128 -> normalize_NFKD c = [c]) ->
  0 <= b0 < 128 ->
  Minitel.entree_get bloque attente self = Minitel.Ret b0 self1 ->
  recevoir_sequence bloque attente self =
  (if (b0 =? Minitel.SS2 C) || (b0 =? Minitel.SEP C) then
     recevoir_dans (trame [b0]) true None self1
   else if b0 =? Minitel.ESC C then
     match recevoir_dans (trame [b0]) true (Some 100%N) self1 with
     | Minitel.Raise Empty self2 => Minitel.Ret (trame [b0]) self2
     | Minitel.Ret sequence self2 =>
         if py_eqb (PList (Sequence.valeurs sequence)) (Minitel.CSI C) then
           match recevoir_dans sequence true None self2 with
           | Minitel.Raise Empty self3 => Minitel.Ret sequence self3
           | Minitel.Ret sequence3 self3 =>
               match Minitel.dernier sequence3 self3 with
               | Minitel.Ret d self3' =>
                   if py_in d [PInt 0x32; PInt 0x34] then
                     match recevoir_dans sequence3 true None self3' with
                     | Minitel.Raise Empty self4 => Minitel.Ret sequence3 self4
                     | o => o
                     end
                   else Minitel.Ret sequence3 self3'
               | Minitel.Raise Empty self3' => Minitel.Ret sequence3 self3'
               | Minitel.Raise e self3' => Minitel.Raise e self3'
               | Minitel.Bloque => Minitel.Bloque
               end
           | o => o
           end
         else Minitel.Ret sequence self2
     | o => o
     end
   else Minitel.Ret (trame [b0]) self1).
Proof.
  intros Hn Hb Hg. unfold Minitel.recevoir_sequence, Minitel.Sequence_init.
  change (Sequence.init normalize_NFKD PNone Sequence.VIDEOTEX) with (Ok (trame [])).
  unfold Minitel.bind at 1. unfold Minitel.lift at 1, Minitel.ret at 1.
  unfold Minitel.bind at 1.
  rewrite (recevoir_dans_octet Hn [] bloque attente self self1 b0 Hb Hg).
  change ([] ++ [b0]) with [b0].
  change (Sequence.longueur (trame [b0]) =? 0) with false.
  cbv iota. unfold Minitel.bind at 1.
  change (Minitel.dernier (trame [b0]) self1) with (Minitel.Ret (PInt b0) self1).
  cbv iota beta.
  change (py_in (PInt b0) [PInt (Minitel.SS2 C); PInt (Minitel.SEP C)])
    with ((b0 =? Minitel.SS2 C) || ((b0 =? Minitel.SEP C) || false)).
  rewrite orb_false_r.
  change (py_eqb (PInt b0) (PInt (Minitel.ESC C))) with (b0 =? Minitel.ESC C).
  destruct ((b0 =? Minitel.SS2 C) || (b0 =? Minitel.SEP C)); [reflexivity|].
  destruct (b0 =? Minitel.ESC C); [|reflexivity].
  unfold Minitel.sauf_Empty at 1. unfold Minitel.bind at 1.
  destruct (recevoir_dans (trame [b0]) true (Some 100%N) self1)
    as [sequence self2 | e self2 |]; [| reflexivity | reflexivity].
  unfold Minitel.sauf_Empty at 1.
  destruct (py_eqb (PList (Sequence.valeurs sequence)) (Minitel.CSI C));
    [|reflexivity].
  unfold Minitel.bind at 1.
  destruct (recevoir_dans sequence true None self2)
    as [sequence3 self3 | e self3 |]; [| destruct e; reflexivity | reflexivity].
  unfold Minitel.sauf_Empty at 1. unfold Minitel.bind at 1.
  destruct (Minitel.dernier sequence3 self3) as [d self3' | e self3' |];
    [| destruct e; reflexivity | reflexivity].
  destruct (py_in d [PInt 50; PInt 52]); [|reflexivity].
  destruct (recevoir_dans sequence3 true None self3') as [s4 self4 | e self4 |];
    try reflexivity. destruct e; reflexivity.
Qed.

Lemma sept_bits_tete (instant : N) (octet : Z) (reste : list (N * Z)) :
  sept_bits ((instant, octet) :: reste) = true ->
  0 <= octet < 128 /\ sept_bits reste = true.
Proof.
  simpl. intros H. apply andb_true_iff in H. destruct H as [Hb Hr].
  split; [lia|exact Hr].
Qed.

(** C1. Framing. Let [b0] be the first byte that [recevoir_sequence] takes
    from the inbound queue.
    - [b0] is SS2 or SEP: one more byte is read, without limit of time, and
      the frame is [b0] and that byte; while no byte comes the call waits.
    - [b0] is Escape and no byte comes within 100 ms: the frame is Escape
      alone.
    - [b0] is Escape and a byte [b1] comes within 100 ms: if [b1] is not
      0x5b the frame is Escape, [b1]; if it is (the prefix is CSI) a third
      byte [b2] is read without limit of time, and a fourth one exactly when
      [b2] is 0x32 or 0x34.
    - any other [b0]: the frame is [b0] alone.
    In each case the bytes of the frame, and no others, have left the inbound
    side. *)
Theorem recevoir_sequence_cadrage (bloque : bool) (attente : option N)
    (self self1 : Minitel.t) (b0 : Z) :
  (forall c, 0 <= c < 128 -> normalize_NFKD c = [c]) ->
  sept_bits (Minitel.arrivees self) = true ->
  Minitel.ESC C <> Minitel.SS2 C ->
  Minitel.ESC C <> Minitel.SEP C ->
  Minitel.entree_get bloque attente self = Minitel.Ret b0 self1 ->
  ((b0 = Minitel.SS2 C \/ b0 = Minitel.SEP C) ->
   (forall t1 b1 reste,
       Minitel.arrivees self1 = (t1, b1) :: reste ->
       exists self2,
         recevoir_sequence bloque attente self = Minitel.Ret (trame [b0; b1]) self2 /\
         Minitel.arrivees self2 = reste) /\
   (Minitel.arrivees self1 = [] ->
    recevoir_sequence bloque attente self = Minitel.Bloque)) /\
  (b0 = Minitel.ESC C ->
   ((Minitel.arrivees self1 = [] \/
     exists t1 b1 reste,
       Minitel.arrivees self1 = (t1, b1) :: reste /\
       (Minitel.horloge self1 + 100 < t1)%N) ->
    recevoir_sequence bloque attente self =
    Minitel.Ret (trame [Minitel.ESC C])
      (Minitel.avec_horloge (Minitel.horloge self1 + 100) self1)) /\
   (forall t1 b1 reste,
       Minitel.arrivees self1 = (t1, b1) :: reste ->
       (t1 <= Minitel.horloge self1 + 100)%N ->
       (b1 <> 0x5b ->
        exists self2,
          recevoir_sequence bloque attente self =
            Minitel.Ret (trame [Minitel.ESC C; b1]) self2 /\
          Minitel.arrivees self2 = reste) /\
       (b1 = 0x5b ->
        forall t2 b2 reste2,
          reste = (t2, b2) :: reste2 ->
          (b2 <> 0x32 -> b2 <> 0x34 ->
           exists self3,
             recevoir_sequence bloque attente self =
               Minitel.Ret (trame [Minitel.ESC C; 0x5b; b2]) self3 /\
             Minitel.arrivees self3 = reste2) /\
          (b2 = 0x32 \/ b2 = 0x34 ->
           forall t3 b3 reste3,
             reste2 = (t3, b3) :: reste3 ->
             exists self4,
               recevoir_sequence bloque attente self =
                 Minitel.Ret (trame [Minitel.ESC C; 0x5b; b2; b3]) self4 /\
               Minitel.arrivees self4 = reste3)))) /\
  (b0 <> Minitel.SS2 C -> b0 <> Minitel.SEP C -> b0 <> Minitel.ESC C ->
   recevoir_sequence bloque attente self = Minitel.Ret (trame [b0]) self1).
Proof.
  intros Hn H7 Hss2 Hsep Hg.
  destruct (get_octet_sept_bits bloque attente self self1 b0 H7 Hg) as [Hb0 H71].
  rewrite (recevoir_sequence_premier_octet bloque attente self self1 b0 Hn Hb0 Hg).
  split; [|split].
  - intros H0.
    assert (E : (b0 =? Minitel.SS2 C) || (b0 =? Minitel.SEP C) = true)
      by (apply orb_true_iff; destruct H0; [left|right]; now apply Z.eqb_eq).
    rewrite E. split.
    + intros t1 b1 reste Ha.
      destruct (get_bloquant self1 t1 b1 reste Ha) as [self2 [Hg2 Ha2]].
      rewrite Ha in H71. destruct (sept_bits_tete _ _ _ H71) as [Hb1 _].
      exists self2. split; [|exact Ha2].
      exact (recevoir_dans_octet Hn [b0] true None self1 self2 b1 Hb1 Hg2).
    + intros Ha. unfold Minitel.recevoir_dans, Minitel.recevoir, Minitel.bind,
        Minitel.entree_get. now rewrite Ha.
  - intros ->.
    assert (E1 : (Minitel.ESC C =? Minitel.SS2 C) || (Minitel.ESC C =? Minitel.SEP C)
                 = false)
      by (apply orb_false_iff; split; now apply Z.eqb_neq).
    rewrite E1, Z.eqb_refl. split.
    + intros Hvide.
      rewrite (recevoir_dans_exception _ true (Some 100%N) self1 _ Empty
                 (get_delai_passe self1 100%N Hvide)).
      reflexivity.
    + intros t1 b1 reste Ha Ht.
      destruct (get_delai self1 100%N t1 b1 reste Ha Ht) as [self2 [Hg2 Ha2]].
      rewrite Ha in H71. destruct (sept_bits_tete _ _ _ H71) as [Hb1 H72].
      rewrite (recevoir_dans_octet Hn [Minitel.ESC C] true (Some 100%N)
                 self1 self2 b1 Hb1 Hg2).
      change ([Minitel.ESC C] ++ [b1]) with [Minitel.ESC C; b1].
      assert (Ecsi : py_eqb (PList (Sequence.valeurs (trame [Minitel.ESC C; b1])))
                       (Minitel.CSI C) = (b1 =? 0x5b)).
      { unfold Minitel.CSI, trame. simpl.
        now rewrite Z.eqb_refl, andb_true_r. }
      rewrite Ecsi. split.
      * intros Hb. apply Z.eqb_neq in Hb. rewrite Hb. now exists self2.
      * intros ->. intros t2 b2 reste2 ->.
        change (91 =? 91) with true. cbv iota.
        destruct (get_bloquant self2 t2 b2 reste2 Ha2) as [self3 [Hg3 Ha3]].
        destruct (sept_bits_tete _ _ _ H72) as [Hb2 H73].
        rewrite (recevoir_dans_octet Hn [Minitel.ESC C; 91] true None
                   self2 self3 b2 Hb2 Hg3).
        change ([Minitel.ESC C; 91] ++ [b2]) with [Minitel.ESC C; 91; b2].
        change (Minitel.dernier (trame [Minitel.ESC C; 91; b2]) self3)
          with (Minitel.Ret (PInt b2) self3).
        cbv iota beta.
        change (py_in (PInt b2) [PInt 50; PInt 52])
          with ((b2 =? 50) || ((b2 =? 52) || false)).
        rewrite orb_false_r. split.
        -- intros H32 H34. apply Z.eqb_neq in H32, H34. rewrite H32, H34.
           now exists self3.
        -- intros Hb t3 b3 reste3 ->.
           assert (E : (b2 =? 50) || (b2 =? 52) = true)
             by (apply orb_true_iff; destruct Hb; [left|right]; now apply Z.eqb_eq).
           rewrite E.
           destruct (get_bloquant self3 t3 b3 reste3 Ha3) as [self4 [Hg4 Ha4]].
           destruct (sept_bits_tete _ _ _ H73) as [Hb3 _].
           rewrite (recevoir_dans_octet Hn [Minitel.ESC C; 91; b2] true None
                      self3 self4 b3 Hb3 Hg4).
           now exists self4.
  - intros H1 H2 H3. apply Z.eqb_neq in H1, H2, H3. now rewrite H1, H2, H3.
Qed.

(** *** Redefinition of characters *)

Local Abbreviation envois := (executer normalize_NFKD).

Lemma bind_ext {A B : Type} (c1 c2 : Minitel.M A) (k1 k2 : A -> Minitel.M B)
    (self : Minitel.t) :
  (forall m, c1 m = c2 m) -> (forall a m, k1 a m = k2 a m) ->
  Minitel.bind c1 k1 self = Minitel.bind c2 k2 self.
Proof.
  intros Hc Hk. unfold Minitel.bind. rewrite Hc.
  destruct (c2 self); auto.
Qed.

Lemma executer_app (l1 l2 : list pyval) (self : Minitel.t) :
  envois (l1 ++ l2) self =
  Minitel.bind (envois l1) (fun _ => envois l2) self.
Proof.
  revert self. induction l1 as [|c r IH]; intros self; simpl.
  - reflexivity.
  - unfold Minitel.bind at 1 2 3.
    destruct (envoyer c self) as [[] m | e m |]; try reflexivity.
    rewrite IH. reflexivity.
Qed.

Lemma dessiner_executer (dessins : list Z) :
  forall (octet : list Z) (compte_pixel : Z) (self : Minitel.t),
    Minitel.dessiner normalize_NFKD dessins octet compte_pixel self =
    envois (dessiner_envois dessins octet compte_pixel) self.
Proof.
  induction dessins as [|pixel reste IH]; intros octet compte self;
    cbn [Minitel.dessiner dessiner_envois]; cbv zeta.
  - reflexivity.
  - destruct (negb (pixel =? 48) && negb (pixel =? 49)); [apply IH|].
    destruct (Z.of_nat (List.length (octet ++ [pixel])) =? 6);
      destruct (compte + 1 =? 80);
      cbn [app executer]; unfold Minitel.bind, Minitel.ret;
      cbn [app fst snd];
      repeat match goal with
             | |- context [envoyer ?c ?m] =>
                 destruct (envoyer c m) as [[] ? | ? ? |]; try reflexivity;
                 cbn [app fst snd]
             end;
      apply IH.
Qed.

Lemma redefinir_executer (depuis : Z) (dessins jeu : list Z) (self : Minitel.t) :
  jeu = Minitel.G0 \/ jeu = Minitel.G1 ->
  redefinir (PStr [depuis]) (PStr dessins) (PStr jeu) self =
  envois (redefinir_envois C depuis dessins jeu ++
            [PList [PInt (Minitel.ESC C); PInt 0x29; PInt 0x20; PInt 0x43]]) self.
Proof.
  intros Hj. unfold redefinir_envois.
  assert (E : redefinir (PStr [depuis]) (PStr dessins) (PStr jeu) self =
    Minitel.bind
      (envoyer (PList [PInt (Minitel.US C); PInt 0x23; PInt 0x20; PInt 0x20; PInt 0x20;
                       PInt (if Sequence.str_eqb jeu Minitel.G0 then 0x42 else 0x43);
                       PInt 0x49]))
      (fun _ =>
         Minitel.bind
           (envoyer (PList [PInt (Minitel.US C); PInt 0x23; PStr [depuis]; PInt 0x30]))
           (fun _ =>
              Minitel.bind (Minitel.dessiner normalize_NFKD dessins [] 0)
                (fun _ =>
                   Minitel.bind
                     (envoyer (PList [PInt (Minitel.US C); PInt 0x41; PInt 0x41]))
                     (fun _ =>
                        envoyer (PList [PInt (Minitel.ESC C); PInt 0x29;
                                        PInt 0x20; PInt 0x43]))))) self).
  { destruct Hj as [-> | ->]; reflexivity. }
  rewrite E. clear E. cbn [app executer].
  apply bind_ext; [reflexivity|]. intros _ m1.
  apply bind_ext; [reflexivity|]. intros _ m2.
  rewrite <- app_assoc, executer_app. cbn [app].
  apply bind_ext; [intros m; apply dessiner_executer|]. intros _ m3.
  cbn [executer].
  apply bind_ext; [reflexivity|]. intros _ m4.
  unfold Minitel.bind.
  destruct (envoyer _ m4) as [[] m5 | e m5 |]; reflexivity.
Qed.

Lemma int2_borne (l : list Z) :
  Forall (fun c => c = 48 \/ c = 49) l ->
  forall acc, 0 <= acc ->
    0 <= fold_left (fun a c => 2 * a + (c - 48)) l acc
      < (acc + 1) * 2 ^ Z.of_nat (List.length l).
Proof.
  induction 1 as [|c r Hc _ IH]; intros acc Hacc.
  - simpl. lia.
  - cbn [fold_left List.length]. rewrite Nat2Z.inj_succ, Z.pow_succ_r by lia.
    assert (H0 : 0 <= 2 * acc + (c - 48)) by lia.
    specialize (IH _ H0).
    assert (Hp : 0 < 2 ^ Z.of_nat (List.length r)) by (apply Z.pow_pos_nonneg; lia).
    split; [lia|]. destruct IH as [_ IH]. nia.
Qed.

Lemma int2_caractere (l : list Z) :
  Forall (fun c => c = 48 \/ c = 49) l -> (List.length l <= 9)%nat ->
  0 <= 0x40 + Minitel.int2 l < 0x110000.
Proof.
  intros Hb Hl. unfold Minitel.int2.
  pose proof (int2_borne l Hb 0 (Z.le_refl 0)) as H.
  assert (2 ^ Z.of_nat (List.length l) <= 2 ^ 9)
    by (apply Z.pow_le_mono_r; lia).
  change (2 ^ 9) with 512 in *. lia.
Qed.

Lemma dessiner_envois_entiers (dessins : list Z) :
  forall (octet : list Z) (compte_pixel : Z),
    Forall (fun c => c = 48 \/ c = 49) octet ->
    (List.length octet < 6)%nat ->
    Forall (fun v => exists n, v = PInt n /\ 0 <= n < 0x110000)
           (dessiner_envois dessins octet compte_pixel).
Proof.
  induction dessins as [|pixel reste IH]; intros octet compte Hb Hl;
    cbn [dessiner_envois]; cbv zeta.
  - constructor.
  - destruct (negb (pixel =? 48) && negb (pixel =? 49)) eqn:Hp; [now apply IH|].
    assert (Hpix : pixel = 48 \/ pixel = 49).
    { apply andb_false_iff in Hp. destruct Hp as [Hp | Hp];
        apply negb_false_iff, Z.eqb_eq in Hp; auto. }
    assert (Hb1 : Forall (fun c => c = 48 \/ c = 49) (octet ++ [pixel]))
      by (apply Forall_app; split; [exact Hb | now constructor]).
    assert (Hlen : List.length (octet ++ [pixel]) = S (List.length octet))
      by (rewrite length_app; simpl; lia).
    assert (Hz : Forall (fun c => c = 48 \/ c = 49) (py_str "0000"))
      by (repeat constructor; auto).
    assert (Hz4 : List.length (py_str "0000") = 4%nat) by reflexivity.
    assert (Hun : forall l, Forall (fun c => c = 48 \/ c = 49) l ->
                            (List.length l <= 9)%nat ->
                            exists n, PInt (64 + Minitel.int2 l) = PInt n /\
                                      0 <= n < 1114112).
    { intros l H1 H2. eexists. split; [reflexivity|].
      now apply int2_caractere. }
    assert (H30 : exists n, PInt 48 = PInt n /\ 0 <= n < 1114112)
      by (exists 48; split; [reflexivity|lia]).
    destruct (Z.of_nat (List.length (octet ++ [pixel])) =? 6) eqn:H6;
      destruct (compte + 1 =? 80); cbn [app].
    + constructor; [apply Hun; [assumption|lia]|].
      constructor; [apply Hun; [assumption|rewrite Hz4; lia]|].
      constructor; [exact H30|]. apply IH; [constructor|simpl; lia].
    + constructor; [apply Hun; [assumption|lia]|].
      apply IH; [constructor|simpl; lia].
    + apply Z.eqb_neq in H6.
      constructor; [apply Hun;
                    [apply Forall_app; split; assumption
                    |rewrite length_app, Hz4; lia]|].
      constructor; [exact H30|]. apply IH; [constructor|simpl; lia].
    + apply Z.eqb_neq in H6. apply IH; [assumption|lia].
Qed.

Lemma avec_sortie_deux (x y : list Z) (self : Minitel.t) :
  Minitel.avec_sortie
    (Minitel.sortie (Minitel.avec_sortie (Minitel.sortie self ++ x) self) ++ y)
    (Minitel.avec_sortie (Minitel.sortie self ++ x) self) =
  Minitel.avec_sortie (Minitel.sortie self ++ x ++ y) self.
Proof. destruct self. unfold Minitel.avec_sortie. simpl. now rewrite app_assoc. Qed.

Lemma executer_envoyables (l : list pyval) :
  Forall (fun c => exists chars, forall self,
            envoyer c self =
            Minitel.Ret tt (Minitel.avec_sortie (Minitel.sortie self ++ chars) self)) l ->
  exists chars, forall self,
    envois l self =
    Minitel.Ret tt (Minitel.avec_sortie (Minitel.sortie self ++ chars) self).
Proof.
  induction 1 as [|c r [x Hx] _ [y Hy]].
  - exists []. intros self. cbn [executer]. unfold Minitel.ret.
    now rewrite app_nil_r, avec_sortie_meme.
  - exists (x ++ y). intros self. cbn [executer]. unfold Minitel.bind.
    rewrite Hx, Hy. now rewrite avec_sortie_deux.
Qed.

Lemma caracteres_valides_octets (l : list Z) :
  Forall (fun n => 0 <= n <= 255) l -> caracteres_valides (map PInt l) = true.
Proof.
  induction 1 as [|n r Hn _ IH]; simpl; [reflexivity|].
  rewrite IH. replace ((0 <=? n) && (n <? 1114112)) with true by lia. reflexivity.
Qed.

Lemma caracteres_valides_app (l m : list pyval) :
  caracteres_valides (l ++ m) = caracteres_valides l && caracteres_valides m.
Proof. apply forallb_app. Qed.

Lemma envoyer_liste_entiers (l : list Z) :
  Forall (fun n => 0 <= n < 0x110000) l ->
  forall self,
    envoyer (PList (map PInt l)) self =
    Minitel.Ret tt (Minitel.avec_sortie (Minitel.sortie self ++ l) self).
Proof.
  intros Hl self.
  assert (E : flat_map (Sequence.canonise_element normalize_NFKD Sequence.VIDEOTEX)
                (map PInt l) = map PInt l).
  { clear Hl. induction l as [|n r IH]; simpl; [reflexivity|now rewrite IH]. }
  assert (Hc : codes (map PInt l) = l).
  { clear Hl E. induction l as [|n r IH]; simpl; [reflexivity|now rewrite IH]. }
  assert (Hv : caracteres_valides (map PInt l) = true).
  { clear E Hc. induction Hl as [|n r Hn _ IH]; simpl; [reflexivity|].
    rewrite IH. replace ((0 <=? n) && (n <? 1114112)) with true by lia.
    reflexivity. }
  rewrite envoyer_liste; rewrite E; [now rewrite Hc | exact Hv].
Qed.

Lemma envoyer_depuis (depuis : Z) :
  0 <= Minitel.US C < 0x110000 ->
  exists chars, forall self,
    envoyer (PList [PInt (Minitel.US C); PInt 0x23; PStr [depuis]; PInt 0x30]) self =
    Minitel.Ret tt (Minitel.avec_sortie (Minitel.sortie self ++ chars) self).
Proof.
  intros Hus. eexists. intros self. apply envoyer_liste.
  cbn [flat_map Sequence.canonise_element Sequence.texte app].
  rewrite !app_nil_r.
  change (?a :: ?b :: ?l ++ [?c]) with ([a; b] ++ l ++ [c]).
  rewrite !caracteres_valides_app.
  rewrite (caracteres_valides_octets _
             (unicode_vers_minitel_octets normalize_NFKD Sequence.VIDEOTEX depuis)).
  unfold caracteres_valides, forallb.
  replace ((0 <=? Minitel.US C) && (Minitel.US C <? 1114112)) with true by lia.
  reflexivity.
Qed.

(** C10. For both values of [jeu] that [redefinir] admits, the last thing
    sent is [ESC, 0x29, 0x20, 0x43], the selection of the set G'1: the calls
    of [envoyer] are those of [redefinir_envois] followed by that one, the
    selection [ESC, 0x28, 0x20, 0x42] of G'0 is not among them, and (the
    codes ESC and US being characters) the call ends with these four
    characters last in the outbound queue. *)
Theorem redefinir_selection_finale (depuis : Z) (dessins jeu : list Z) :
  jeu = Minitel.G0 \/ jeu = Minitel.G1 ->
  (forall self,
      redefinir (PStr [depuis]) (PStr dessins) (PStr jeu) self =
      executer normalize_NFKD
        (redefinir_envois C depuis dessins jeu ++
         [PList [PInt (Minitel.ESC C); PInt 0x29; PInt 0x20; PInt 0x43]]) self) /\
  ~ In (PList [PInt (Minitel.ESC C); PInt 0x28; PInt 0x20; PInt 0x42])
       (redefinir_envois C depuis dessins jeu ++
        [PList [PInt (Minitel.ESC C); PInt 0x29; PInt 0x20; PInt 0x43]]) /\
  (0 <= Minitel.ESC C < 0x110000 ->
   0 <= Minitel.US C < 0x110000 ->
   exists avant, forall self,
     redefinir (PStr [depuis]) (PStr dessins) (PStr jeu) self =
     Minitel.Ret tt
       (Minitel.avec_sortie
          (Minitel.sortie self ++ avant ++ [Minitel.ESC C; 0x29; 0x20; 0x43])
          self)).
Proof.
  intros Hj. split; [|split].
  - intros self. now apply redefinir_executer.
  - intros Hin. apply in_app_or in Hin. destruct Hin as [Hin | [Hin | []]];
      [|discriminate].
    unfold redefinir_envois in Hin.
    destruct Hin as [Hin | [Hin | Hin]]; try discriminate.
    apply in_app_or in Hin. destruct Hin as [Hin | [Hin | []]]; [|discriminate].
    pose proof (dessiner_envois_entiers dessins [] 0 (Forall_nil _)) as Hd.
    rewrite Forall_forall in Hd.
    destruct (Hd ltac:(simpl; lia) _ Hin) as [n [Hn _]]. discriminate.
  - intros Hesc Hus.
    assert (Hs : Forall (fun c => exists chars, forall self,
                   envoyer c self =
                   Minitel.Ret tt
                     (Minitel.avec_sortie (Minitel.sortie self ++ chars) self))
                 (redefinir_envois C depuis dessins jeu)).
    { unfold redefinir_envois. constructor; [|constructor; [|apply Forall_app; split]].
      - eexists. intros self.
        apply (envoyer_liste_entiers
                 [Minitel.US C; 0x23; 0x20; 0x20; 0x20;
                  if Sequence.str_eqb jeu Minitel.G0 then 0x42 else 0x43; 0x49]).
        destruct (Sequence.str_eqb jeu Minitel.G0);
          repeat (constructor; [lia|]); constructor.
      - now apply envoyer_depuis.
      - pose proof (dessiner_envois_entiers dessins [] 0 (Forall_nil _)) as Hd.
        specialize (Hd ltac:(simpl; lia)).
        rewrite Forall_forall in Hd |- *. intros v Hv.
        destruct (Hd v Hv) as [n [-> Hn]].
        exists [n]. intros self. now apply envoyer_entier.
      - constructor; [|constructor]. eexists. intros self.
        apply (envoyer_liste_entiers [Minitel.US C; 0x41; 0x41]).
        repeat (constructor; [lia|]); constructor. }
    destruct (executer_envoyables _ Hs) as [avant Ha].
    exists avant. intros self.
    rewrite (redefinir_executer depuis dessins jeu self Hj), executer_app.
    unfold Minitel.bind. rewrite Ha. cbn [executer]. unfold Minitel.bind.
    rewrite (envoyer_liste_entiers [Minitel.ESC C; 0x29; 0x20; 0x43])
      by (repeat (constructor; [lia|]); constructor).
    unfold Minitel.ret. now rewrite avec_sortie_deux.
Qed.

End MinitelFacts.

(** ** Concrete runs *)

(** The four framings of the specification: Escape followed by 150 ms of
    silence, [ESC, '[', 0x41], [ESC, '[', 0x32, 0x41] and [SEP, 0x5e]. *)
Example cadrage_exemples :
  (exists m,
      Minitel.recevoir_sequence sans_decomposition protocole true None
        (engin Sequence.VIDEOTEX [(10%N, 0x1b); (160%N, 0x41)]) =
      Minitel.Ret (trame [0x1b]) m /\ Minitel.arrivees m = [(160%N, 0x41)]) /\
  (exists m,
      Minitel.recevoir_sequence sans_decomposition protocole true None
        (engin Sequence.VIDEOTEX [(10%N, 0x1b); (20%N, 0x5b); (30%N, 0x41)]) =
      Minitel.Ret (trame [0x1b; 0x5b; 0x41]) m /\ Minitel.arrivees m = []) /\
  (exists m,
      Minitel.recevoir_sequence sans_decomposition protocole true None
        (engin Sequence.VIDEOTEX
           [(10%N, 0x1b); (20%N, 0x5b); (30%N, 0x32); (40%N, 0x41)]) =
      Minitel.Ret (trame [0x1b; 0x5b; 0x32; 0x41]) m /\ Minitel.arrivees m = []) /\
  (exists m,
      Minitel.recevoir_sequence sans_decomposition protocole true None
        (engin Sequence.VIDEOTEX [(10%N, 0x13); (20%N, 0x5e)]) =
      Minitel.Ret (trame [0x13; 0x5e]) m /\ Minitel.arrivees m = []).
Proof.
  repeat split; eexists; split; vm_compute; reflexivity.
Qed.

(** Witness of [recevoir_sequence_cadrage]: Escape, '[', 0x32 and 0x41 coming
    at 10, 50, 60 and 70 ms make one frame of four bytes. *)
Lemma recevoir_sequence_cadrage_temoin :
  (forall c, 0 <= c < 128 -> sans_decomposition c = [c]) /\
  sept_bits [(10%N, 0x1b); (50%N, 0x5b); (60%N, 0x32); (70%N, 0x41)] = true /\
  Minitel.ESC protocole <> Minitel.SS2 protocole /\
  Minitel.ESC protocole <> Minitel.SEP protocole /\
  Minitel.entree_get true None
    (engin Sequence.VIDEOTEX
       [(10%N, 0x1b); (50%N, 0x5b); (60%N, 0x32); (70%N, 0x41)]) =
  Minitel.Ret 0x1b
    (Minitel.avec_arrivees [(50%N, 0x5b); (60%N, 0x32); (70%N, 0x41)]
       (Minitel.avec_horloge 10%N (engin Sequence.VIDEOTEX []))) /\
  exists self4,
    Minitel.recevoir_sequence sans_decomposition protocole true None
      (engin Sequence.VIDEOTEX
         [(10%N, 0x1b); (50%N, 0x5b); (60%N, 0x32); (70%N, 0x41)]) =
    Minitel.Ret (trame [0x1b; 0x5b; 0x32; 0x41]) self4 /\
    Minitel.arrivees self4 = [].
Proof.
  assert (H1 : forall c, 0 <= c < 128 -> sans_decomposition c = [c])
    by (intros c _; reflexivity).
  assert (H2 : sept_bits [(10%N, 0x1b); (50%N, 0x5b); (60%N, 0x32); (70%N, 0x41)]
               = true) by reflexivity.
  assert (H3 : Minitel.ESC protocole <> Minitel.SS2 protocole)
    by (simpl; lia).
  assert (H4 : Minitel.ESC protocole <> Minitel.SEP protocole)
    by (simpl; lia).
  assert (H5 : Minitel.entree_get true None
                 (engin Sequence.VIDEOTEX
                    [(10%N, 0x1b); (50%N, 0x5b); (60%N, 0x32); (70%N, 0x41)]) =
               Minitel.Ret 0x1b
                 (Minitel.avec_arrivees [(50%N, 0x5b); (60%N, 0x32); (70%N, 0x41)]
                    (Minitel.avec_horloge 10%N (engin Sequence.VIDEOTEX []))))
    by reflexivity.
  repeat (split; [assumption|]).
  destruct (recevoir_sequence_cadrage sans_decomposition protocole true None
              (engin Sequence.VIDEOTEX
                 [(10%N, 0x1b); (50%N, 0x5b); (60%N, 0x32); (70%N, 0x41)])
              (Minitel.avec_arrivees [(50%N, 0x5b); (60%N, 0x32); (70%N, 0x41)]
                 (Minitel.avec_horloge 10%N (engin Sequence.VIDEOTEX [])))
              0x1b H1 H2 H3 H4 H5) as [_ [HB _]].
  destruct (HB eq_refl) as [_ HB2].
  destruct (HB2 50%N 0x5b [(60%N, 0x32); (70%N, 0x41)] eq_refl) as [_ H5b].
  { simpl. lia. }
  destruct (H5b eq_refl 60%N 0x32 [(70%N, 0x41)] eq_refl) as [_ H32].
  exact (H32 (or_introl eq_refl) 70%N 0x41 [] eq_refl).
Defined.

(** Witness of [recevoir_sequence_file_vide]: an engine to which nothing has
    come. *)
Lemma recevoir_sequence_file_vide_temoin :
  entree_vide (engin Sequence.VIDEOTEX []) = true /\
  Minitel.recevoir_sequence sans_decomposition protocole false None
    (engin Sequence.VIDEOTEX []) =
  Minitel.Raise Empty (engin Sequence.VIDEOTEX []).
Proof.
  split; [reflexivity|].
  apply (recevoir_sequence_file_vide sans_decomposition protocole None
           (engin Sequence.VIDEOTEX [])).
  reflexivity.
Defined.

(** C2 as stated fails: on an empty queue the call without blocking returns
    no Sequence at all, empty or not; it raises Empty. *)
Lemma recevoir_sequence_file_vide_sans_sequence :
  Minitel.recevoir_sequence sans_decomposition protocole false None
    (engin Sequence.VIDEOTEX []) =
  Minitel.Raise Empty (engin Sequence.VIDEOTEX []) /\
  ~ (exists self',
        Minitel.recevoir_sequence sans_decomposition protocole false None
          (engin Sequence.VIDEOTEX []) =
        Minitel.Ret (trame []) self').
Proof.
  split; [reflexivity|]. intros [self' H]. discriminate H.
Qed.

(** Witness of [definir_mode_teleinformatique_vers_mixte]: the device
    acknowledges both transactions. *)
Lemma definir_mode_teleinformatique_vers_mixte_temoin :
  Minitel.mode
    (engin Sequence.TELEINFORMATIQUE
       [(20%N, 0x13); (25%N, 0x5e); (60%N, 0x13); (65%N, 0x70)]) =
  Sequence.TELEINFORMATIQUE /\
  0 <= Minitel.ESC protocole < 0x110000 /\
  caracteres_valides
    (flat_map (Sequence.canonise_element sans_decomposition Sequence.VIDEOTEX)
       [Minitel.PRO2 protocole; Minitel.MIXTE1 protocole]) = true /\
  sept_bits [(20%N, 0x13); (25%N, 0x5e); (60%N, 0x13); (65%N, 0x70)] = true /\
  exists r1 self1,
    Minitel.appeler sans_decomposition duree_exemple
      (PList [Minitel.CSI protocole; PInt 0x3f; PInt 0x7b]) 2
      (engin Sequence.TELEINFORMATIQUE
         [(20%N, 0x13); (25%N, 0x5e); (60%N, 0x13); (65%N, 0x70)]) =
    Minitel.Ret r1 self1 /\
    Minitel.emis self1 = [0x1b; 0x5b; 0x3f; 0x7b].
Proof.
  assert (H1 : Minitel.mode
                 (engin Sequence.TELEINFORMATIQUE
                    [(20%N, 0x13); (25%N, 0x5e); (60%N, 0x13); (65%N, 0x70)]) =
               Sequence.TELEINFORMATIQUE) by reflexivity.
  assert (H2 : 0 <= Minitel.ESC protocole < 0x110000) by (simpl; lia).
  assert (H3 : caracteres_valides
                 (flat_map
                    (Sequence.canonise_element sans_decomposition Sequence.VIDEOTEX)
                    [Minitel.PRO2 protocole; Minitel.MIXTE1 protocole]) = true)
    by reflexivity.
  assert (H4 : sept_bits [(20%N, 0x13); (25%N, 0x5e); (60%N, 0x13); (65%N, 0x70)]
               = true) by reflexivity.
  repeat (split; [assumption|]).
  destruct (definir_mode_teleinformatique_vers_mixte sans_decomposition protocole
              duree_exemple
              (engin Sequence.TELEINFORMATIQUE
                 [(20%N, 0x13); (25%N, 0x5e); (60%N, 0x13); (65%N, 0x70)])
              H1 H2 H3 H4) as [r1 [self1 [Ha [He _]]]].
  exists r1, self1. split; [exact Ha | exact He].
Defined.

(** Witness of [definir_vitesse_acquittement]: 4800 bps asked of a device
    that can do 9600 and stays silent. *)
Lemma definir_vitesse_acquittement_temoin :
  Minitel.vitesses protocole 4800 = Some (PInt 0x76) /\
  4800 <= Minitel.vitesse_max (Minitel.capacite (engin Sequence.VIDEOTEX [])) /\
  caracteres_valides
    (flat_map (Sequence.canonise_element sans_decomposition Sequence.VIDEOTEX)
       [Minitel.PRO2 protocole; Minitel.PROG protocole; PInt 0x76]) = true /\
  sept_bits (Minitel.arrivees (engin Sequence.VIDEOTEX [])) = true /\
  exists retour self1,
    Minitel.appeler sans_decomposition duree_exemple
      (PList [Minitel.PRO2 protocole; Minitel.PROG protocole; PInt 0x76])
      (Minitel.LONGUEUR_PRO2 protocole) (engin Sequence.VIDEOTEX []) =
    Minitel.Ret retour self1 /\
    Minitel.baudrate self1 = 1200 /\ Minitel.vitesse self1 = 1200.
Proof.
  assert (H1 : Minitel.vitesses protocole 4800 = Some (PInt 0x76)) by reflexivity.
  assert (H2 : 4800 <= Minitel.vitesse_max
                         (Minitel.capacite (engin Sequence.VIDEOTEX [])))
    by (simpl; lia).
  assert (H3 : caracteres_valides
                 (flat_map
                    (Sequence.canonise_element sans_decomposition Sequence.VIDEOTEX)
                    [Minitel.PRO2 protocole; Minitel.PROG protocole; PInt 0x76])
               = true) by reflexivity.
  assert (H4 : sept_bits (Minitel.arrivees (engin Sequence.VIDEOTEX [])) = true)
    by reflexivity.
  repeat (split; [assumption|]).
  destruct (definir_vitesse_acquittement sans_decomposition protocole duree_exemple
              4800 (PInt 0x76) (engin Sequence.VIDEOTEX []) H1 H2 H3 H4)
    as [r [self1 [Ha [_ [Hb [Hv _]]]]]].
  exists r, self1. split; [exact Ha|]. split; [exact Hb | exact Hv].
Defined.

(** Witness of [definir_mode_nom_inconnu]: the name 'MINITEL'. *)
Lemma definir_mode_nom_inconnu_temoin :
  existsb (Sequence.str_eqb (py_str "MINITEL"))
    [Sequence.VIDEOTEX; Sequence.MIXTE; Sequence.TELEINFORMATIQUE] = false /\
  Minitel.definir_mode sans_decomposition protocole duree_exemple
    (PStr (py_str "MINITEL")) (engin Sequence.VIDEOTEX [(5%N, 0x41)]) =
  Minitel.Ret false (engin Sequence.VIDEOTEX [(5%N, 0x41)]).
Proof.
  split; [reflexivity|].
  apply (definir_mode_nom_inconnu sans_decomposition protocole duree_exemple
           (py_str "MINITEL") (engin Sequence.VIDEOTEX [(5%N, 0x41)])).
  reflexivity.
Defined.

(** C8 as stated fails: the unknown name 'MINITEL' raises nothing;
    [definir_mode] returns False. *)
Lemma definir_mode_nom_inconnu_sans_exception :
  Minitel.definir_mode sans_decomposition protocole duree_exemple
    (PStr (py_str "MINITEL")) (engin Sequence.VIDEOTEX []) =
  Minitel.Ret false (engin Sequence.VIDEOTEX []) /\
  ~ (exists e self',
        Minitel.definir_mode sans_decomposition protocole duree_exemple
          (PStr (py_str "MINITEL")) (engin Sequence.VIDEOTEX []) =
        Minitel.Raise e self').
Proof.
  split; [reflexivity|]. intros [e [self' H]]. discriminate H.
Qed.

(** Witness of [redefinir_selection_finale]: one row of pixels for 'A' in the
    set G0. *)
Lemma redefinir_selection_finale_temoin :
  (Minitel.G0 = Minitel.G0 \/ Minitel.G0 = Minitel.G1) /\
  0 <= Minitel.ESC protocole < 0x110000 /\
  0 <= Minitel.US protocole < 0x110000 /\
  exists avant, forall self,
    Minitel.redefinir sans_decomposition protocole (PStr [65])
      (PStr (py_str "111111 000000")) (PStr Minitel.G0) self =
    Minitel.Ret tt
      (Minitel.avec_sortie
         (Minitel.sortie self ++ avant ++ [0x1b; 0x29; 0x20; 0x43]) self).
Proof.
  assert (H1 : Minitel.G0 = Minitel.G0 \/ Minitel.G0 = Minitel.G1)
    by (left; reflexivity).
  assert (H2 : 0 <= Minitel.ESC protocole < 0x110000) by (simpl; lia).
  assert (H3 : 0 <= Minitel.US protocole < 0x110000) by (simpl; lia).
  repeat (split; [assumption|]).
  destruct (redefinir_selection_finale sans_decomposition protocole 65
              (py_str "111111 000000") Minitel.G0 H1) as [_ [_ H]].
  exact (H H2 H3).
Defined.

(** ** Further properties of Sequence *)

Lemma autre_ascii (c : Z) :
  0 <= c < 128 ->
  Sequence.dict_get Sequence.UNICODEVERSAUTRE c =
  if c =? 96 then Some "60"%string else None.
Proof.
  intros Hc. unfold Sequence.UNICODEVERSAUTRE, Sequence.dict_get.
  repeat match goal with
         | |- context [?k =? c] =>
             destruct (Z.eqb_spec k c); [try lia; subst c|]
         end; try reflexivity.
  destruct (Z.eqb_spec c 96); [lia|reflexivity].
Qed.

Lemma tables_sept_bits :
  forallb (fun kv => forallb (fun n => (0 <=? n) && (n <? 128))
                             (Sequence.unhexlify (snd kv)))
          (Sequence.UNICODEVERSVIDEOTEX ++ Sequence.UNICODEVERSAUTRE) = true.
Proof. reflexivity. Qed.

Lemma dict_get_In (table : list (Z * string)) (c : Z) (hex : string) :
  Sequence.dict_get table c = Some hex -> In (c, hex) table.
Proof.
  induction table as [|[k v] r IH]; simpl; [discriminate|].
  destruct (Z.eqb_spec k c) as [->|_].
  - intros H. inversion H. now left.
  - intros H. right. now apply IH.
Qed.

Section SequenceSuite.

Variable normalize_NFKD : Z -> list Z.

Local Abbreviation unicode_vers_minitel := (Sequence.unicode_vers_minitel normalize_NFKD).
Local Abbreviation canonise_element := (Sequence.canonise_element normalize_NFKD).
Local Abbreviation canonise := (Sequence.canonise normalize_NFKD).
Local Abbreviation ajoute := (Sequence.ajoute normalize_NFKD).
Local Abbreviation init := (Sequence.init normalize_NFKD).
Local Abbreviation egale := (Sequence.egale normalize_NFKD).

Lemma unicode_vers_minitel_ascii (standard : list Z) (c : Z) :
  (forall c, 0 <= c < 128 -> normalize_NFKD c = [c]) ->
  0 <= c < 128 ->
  unicode_vers_minitel standard c = [c].
Proof.
  intros Hn Hc. unfold Sequence.unicode_vers_minitel.
  assert (He : Sequence.encode_ascii_replace (normalize_NFKD c) = [c]).
  { rewrite (Hn c Hc). unfold Sequence.encode_ascii_replace. simpl.
    replace ((0 <=? c) && (c <? 128)) with true by lia. reflexivity. }
  destruct (Sequence.str_eqb standard Sequence.VIDEOTEX).
  - now rewrite (videotex_ascii_absent c Hc).
  - rewrite (autre_ascii c Hc). destruct (Z.eqb_spec c 96) as [->|_];
      [reflexivity|exact He].
Qed.

Lemma texte_ascii (standard s : list Z) :
  (forall c, 0 <= c < 128 -> normalize_NFKD c = [c]) ->
  Forall (fun c => 0 <= c < 128) s ->
  Sequence.texte normalize_NFKD standard s = map PInt s.
Proof.
  intros Hn. induction 1 as [|c r Hc _ IH]; [reflexivity|].
  unfold Sequence.texte in *. cbn [flat_map map].
  rewrite IH, (unicode_vers_minitel_ascii standard c Hn Hc). reflexivity.
Qed.

Lemma canonise_texte (standard s : list Z) :
  flat_map (canonise_element standard) (map (fun c => PStr [c]) s) =
  Sequence.texte normalize_NFKD standard s.
Proof.
  unfold Sequence.texte.
  induction s as [|c r IH]; [reflexivity|].
  cbn [map flat_map Sequence.canonise_element]. unfold Sequence.texte at 1.
  cbn [flat_map]. now rewrite app_nil_r, IH.
Qed.

(** X1. ASCII text is kept as it is: in each of the three standards, the
    Sequence built from a text of ASCII characters holds the codes of these
    characters, one value for each, in order. *)
Theorem sequence_texte_ascii (standard s : list Z) :
  (forall c, 0 <= c < 128 -> normalize_NFKD c = [c]) ->
  Sequence.standard_connu standard = true ->
  Forall (fun c => 0 <= c < 128) s ->
  init (PStr s) standard =
  Ok (Sequence.mk (map PInt s) (Z.of_nat (List.length s)) standard).
Proof.
  intros Hn Hs Ha. unfold Sequence.init. rewrite Hs. cbn [negb].
  unfold Sequence.ajoute, Sequence.canonise. cbn [isinstance_lisS negb].
  cbn [Sequence.standard Sequence.valeurs Sequence.iterer app].
  rewrite canonise_texte, (texte_ascii standard s Hn Ha), length_map.
  reflexivity.
Qed.

Lemma unicode_vers_minitel_sept_bits (standard : list Z) (c : Z) :
  Forall (fun n => 0 <= n < 128) (unicode_vers_minitel standard c).
Proof.
  assert (Henc : Forall (fun n => 0 <= n < 128)
                   (Sequence.encode_ascii_replace (normalize_NFKD c))).
  { unfold Sequence.encode_ascii_replace. apply Forall_forall. intros n Hn.
    apply in_map_iff in Hn. destruct Hn as [x [<- _]].
    destruct ((0 <=? x) && (x <? 128)) eqn:E; lia. }
  assert (Htab : forall table hex,
             (table = Sequence.UNICODEVERSVIDEOTEX \/
              table = Sequence.UNICODEVERSAUTRE) ->
             Sequence.dict_get table c = Some hex ->
             Forall (fun n => 0 <= n < 128) (Sequence.unhexlify hex)).
  { intros table hex Ht Hg. apply dict_get_In in Hg.
    pose proof tables_sept_bits as H. rewrite forallb_forall in H.
    assert (Hin : In (c, hex)
                    (Sequence.UNICODEVERSVIDEOTEX ++ Sequence.UNICODEVERSAUTRE))
      by (apply in_or_app; destruct Ht; subst table; auto).
    specialize (H _ Hin). cbn [snd] in H. rewrite forallb_forall in H.
    apply Forall_forall. intros n Hn. specialize (H n Hn). lia. }
  unfold Sequence.unicode_vers_minitel.
  destruct (Sequence.str_eqb standard Sequence.VIDEOTEX).
  - destruct (Sequence.dict_get Sequence.UNICODEVERSVIDEOTEX c) eqn:E;
      [exact (Htab _ _ (or_introl eq_refl) E) | exact Henc].
  - destruct (Sequence.dict_get Sequence.UNICODEVERSAUTRE c) eqn:E;
      [exact (Htab _ _ (or_intror eq_refl) E) | exact Henc].
Qed.

(** X2. Text only ever gives 7-bit codes: whatever the characters (accented
    letters, symbols, characters unknown to the tables) and whatever the
    standard, every value of a Sequence built from a text lies in [0,127]. *)
Theorem sequence_texte_sept_bits (standard s : list Z) (q : Sequence.t) :
  init (PStr s) standard = Ok q ->
  Forall (fun v => exists n, v = PInt n /\ 0 <= n < 128) (Sequence.valeurs q).
Proof.
  intros Hi. apply init_Ok in Hi. destruct Hi as [_ [[Habs _] | Ha]];
    [discriminate|].
  apply ajoute_Ok in Ha. destruct Ha as [c [Hc ->]].
  unfold Sequence.canonise in Hc. cbn [isinstance_lisS negb] in Hc.
  inversion Hc; subst c; clear Hc.
  cbn [Sequence.valeurs Sequence.standard app].
  rewrite canonise_texte. unfold Sequence.texte.
  apply Forall_flat_map, Forall_forall. intros c _.
  apply Forall_forall. intros v Hv. apply in_map_iff in Hv.
  destruct Hv as [n [<- Hn]]. exists n. split; [reflexivity|].
  pose proof (unicode_vers_minitel_sept_bits standard c) as H.
  rewrite Forall_forall in H. now apply H.
Qed.

Lemma canonise_entiers (standard : list Z) (l : list pyval) :
  Forall (fun v => exists n, v = PInt n) l ->
  flat_map (canonise_element standard) l = l.
Proof.
  induction 1 as [|v r [n ->] _ IH]; [reflexivity|].
  cbn [flat_map Sequence.canonise_element app]. now rewrite IH.
Qed.

Lemma forme_entiers (I : Z -> bool) (s : Sequence.t) :
  forme I s -> Forall (fun v => exists n, v = PInt n) (Sequence.valeurs s).
Proof.
  intros [H _]. apply Forall_forall. rewrite Forall_forall in H.
  intros v Hv. destruct (H v Hv) as [n [-> _]]. now exists n.
Qed.

(** X3. Round trip through the value list: for a Sequence [s] made by the
    constructor and [ajoute], the Sequence built from the list [s.valeurs]
    holds the same values and the same length, and [s.egale(s.valeurs)] is
    True. *)
Theorem sequence_depuis_valeurs (I : Z -> bool) (s : Sequence.t) (standard : list Z) :
  construite normalize_NFKD I s ->
  Sequence.standard_connu standard = true ->
  init (PList (Sequence.valeurs s)) standard =
    Ok (Sequence.mk (Sequence.valeurs s) (Sequence.longueur s) standard) /\
  egale s (PList (Sequence.valeurs s)) = Ok true.
Proof.
  intros Hc Hs. pose proof (construite_forme normalize_NFKD I s Hc) as Hf.
  pose proof (forme_entiers I s Hf) as He. destruct Hf as [_ Hl].
  split.
  - unfold Sequence.init. rewrite Hs. cbn [negb].
    unfold Sequence.ajoute, Sequence.canonise. cbn [isinstance_lisS negb].
    cbn [Sequence.standard Sequence.valeurs Sequence.iterer app].
    rewrite (canonise_entiers standard _ He), Hl. reflexivity.
  - unfold Sequence.egale. cbn [isinstance_lisS negb].
    unfold Sequence.init. cbn [Sequence.standard_connu]. 
    replace (Sequence.standard_connu Sequence.VIDEOTEX) with true by reflexivity.
    cbn [negb]. unfold Sequence.ajoute, Sequence.canonise.
    cbn [isinstance_lisS negb Sequence.standard Sequence.valeurs Sequence.iterer app].
    rewrite (canonise_entiers Sequence.VIDEOTEX _ He), valeurs_eqb_refl.
    reflexivity.
Qed.

Lemma canonise_liste_app (self : Sequence.t) (l1 l2 : list pyval) :
  canonise self (PList (l1 ++ l2)) =
  Ok (flat_map (canonise_element (Sequence.standard self)) l1 ++
      flat_map (canonise_element (Sequence.standard self)) l2).
Proof.
  unfold Sequence.canonise. cbn [isinstance_lisS negb Sequence.iterer].
  now rewrite flat_map_app.
Qed.

(** X4. Canonicalization follows concatenation and nesting: appending the
    list [l1 + l2] (or the text [s1 + s2]) is appending [l1] then [l2] (or
    [s1] then [s2]); a list wrapped in a list, or a text placed in a list,
    gives what the list or the text gives by itself. *)
Theorem ajoute_concatenation (self : Sequence.t) (l1 l2 : list pyval) (s1 s2 : list Z) :
  ajoute self (PList (l1 ++ l2)) =
    match ajoute self (PList l1) with
    | Ok s => ajoute s (PList l2)
    | Err e => Err e
    end /\
  ajoute self (PStr (s1 ++ s2)) =
    match ajoute self (PStr s1) with
    | Ok s => ajoute s (PStr s2)
    | Err e => Err e
    end /\
  ajoute self (PList [PList l1]) = ajoute self (PList l1) /\
  ajoute self (PList [PStr s1]) = ajoute self (PStr s1).
Proof.
  unfold Sequence.ajoute, Sequence.canonise.
  cbn [isinstance_lisS negb Sequence.iterer Sequence.valeurs Sequence.standard].
  repeat split.
  - rewrite flat_map_app, !app_assoc. reflexivity.
  - rewrite map_app, flat_map_app, !app_assoc. reflexivity.
  - cbn [flat_map Sequence.canonise_element]. now rewrite app_nil_r.
  - cbn [flat_map Sequence.canonise_element]. now rewrite app_nil_r, canonise_texte.
Qed.

Lemma entiers_eqb (l : list pyval) :
  Forall (fun v => exists n, v = PInt n) l ->
  forall m, Forall (fun v => exists n, v = PInt n) m ->
            (list_eqb py_eqb l m = true <-> l = m).
Proof.
  induction 1 as [|v r [n ->] _ IH]; intros m Hm.
  - destruct m; simpl; split; intros H; try reflexivity; discriminate.
  - destruct Hm as [|w m' [k ->] Hm']; simpl.
    + split; intros H; discriminate.
    + rewrite andb_true_iff, (IH m' Hm'), Z.eqb_eq. split.
      * intros [-> ->]. reflexivity.
      * intros H. inversion H. auto.
Qed.

(** X5. On Sequences made by the constructor and [ajoute], [egale] decides
    the equality of the value lists: it returns True exactly when the two
    lists are the same, False otherwise, and never raises. *)
Theorem egale_decide (I : Z -> bool) (s t : Sequence.t) :
  construite normalize_NFKD I s ->
  construite normalize_NFKD I t ->
  exists b, egale s (Sequence.objet t) = Ok b /\
            (b = true <-> Sequence.valeurs s = Sequence.valeurs t).
Proof.
  intros Hs Ht.
  pose proof (forme_entiers I s (construite_forme normalize_NFKD I s Hs)) as Es.
  pose proof (forme_entiers I t (construite_forme normalize_NFKD I t Ht)) as Et.
  eexists. split; [reflexivity|]. now apply entiers_eqb.
Qed.

End SequenceSuite.

(** Witness of [sequence_texte_ascii]: 'Minitel 2' in the standard MIXTE. *)
Lemma sequence_texte_ascii_temoin :
  (forall c, 0 <= c < 128 -> sans_decomposition c = [c]) /\
  Sequence.standard_connu Sequence.MIXTE = true /\
  Forall (fun c => 0 <= c < 128) (py_str "Minitel 2") /\
  Sequence.init sans_decomposition (PStr (py_str "Minitel 2")) Sequence.MIXTE =
  Ok (Sequence.mk (map PInt (py_str "Minitel 2"))
        (Z.of_nat (List.length (py_str "Minitel 2"))) Sequence.MIXTE).
Proof.
  assert (H1 : forall c, 0 <= c < 128 -> sans_decomposition c = [c])
    by (intros c _; reflexivity).
  assert (H2 : Sequence.standard_connu Sequence.MIXTE = true) by reflexivity.
  assert (H3 : Forall (fun c => 0 <= c < 128) (py_str "Minitel 2"))
    by (repeat constructor; simpl; lia).
  repeat (split; [assumption|]).
  exact (sequence_texte_ascii sans_decomposition Sequence.MIXTE
           (py_str "Minitel 2") H1 H2 H3).
Defined.

(** Witness of [sequence_texte_sept_bits]: 'déjà' in Videotex. *)
Lemma sequence_texte_sept_bits_temoin :
  Sequence.init sans_decomposition (PStr [100; 233; 106; 224]) Sequence.VIDEOTEX =
    Ok (Sequence.mk [PInt 100; PInt 25; PInt 66; PInt 101; PInt 106;
                     PInt 25; PInt 65; PInt 97] 8 Sequence.VIDEOTEX) /\
  Forall (fun v => exists n, v = PInt n /\ 0 <= n < 128)
    [PInt 100; PInt 25; PInt 66; PInt 101; PInt 106; PInt 25; PInt 65; PInt 97].
Proof.
  assert (H : Sequence.init sans_decomposition (PStr [100; 233; 106; 224])
                Sequence.VIDEOTEX =
              Ok (Sequence.mk [PInt 100; PInt 25; PInt 66; PInt 101; PInt 106;
                               PInt 25; PInt 65; PInt 97] 8 Sequence.VIDEOTEX))
    by reflexivity.
  split; [exact H|].
  exact (sequence_texte_sept_bits sans_decomposition Sequence.VIDEOTEX
           [100; 233; 106; 224] _ H).
Defined.

(** Witness of [sequence_depuis_valeurs]: [Sequence([27, 'A'])]. *)
Lemma sequence_depuis_valeurs_temoin :
  construite sans_decomposition tout_entier
    (Sequence.mk [PInt 27; PInt 65] 2 Sequence.VIDEOTEX) /\
  Sequence.standard_connu Sequence.MIXTE = true /\
  Sequence.init sans_decomposition (PList [PInt 27; PInt 65]) Sequence.MIXTE =
    Ok (Sequence.mk [PInt 27; PInt 65] 2 Sequence.MIXTE) /\
  Sequence.egale sans_decomposition
    (Sequence.mk [PInt 27; PInt 65] 2 Sequence.VIDEOTEX)
    (PList [PInt 27; PInt 65]) = Ok true.
Proof.
  assert (H1 : construite sans_decomposition tout_entier
                 (Sequence.mk [PInt 27; PInt 65] 2 Sequence.VIDEOTEX)).
  { apply (construite_init sans_decomposition tout_entier
             (PList [PInt 27; PStr [65]]) Sequence.VIDEOTEX); reflexivity. }
  assert (H2 : Sequence.standard_connu Sequence.MIXTE = true) by reflexivity.
  repeat (split; [assumption|]).
  exact (sequence_depuis_valeurs sans_decomposition tout_entier
           (Sequence.mk [PInt 27; PInt 65] 2 Sequence.VIDEOTEX)
           Sequence.MIXTE H1 H2).
Defined.

Lemma egale_decide_temoin :
  construite sans_decomposition tout_entier
    (Sequence.mk [PInt 27; PInt 65] 2 Sequence.VIDEOTEX) /\
  construite sans_decomposition tout_entier
    (Sequence.mk [PInt 27; PInt 66] 2 Sequence.MIXTE) /\
  exists b,
    Sequence.egale sans_decomposition
      (Sequence.mk [PInt 27; PInt 65] 2 Sequence.VIDEOTEX)
      (Sequence.objet (Sequence.mk [PInt 27; PInt 66] 2 Sequence.MIXTE)) = Ok b /\
    (b = true <-> [PInt 27; PInt 65] = [PInt 27; PInt 66]).
Proof.
  assert (H1 : construite sans_decomposition tout_entier
                 (Sequence.mk [PInt 27; PInt 65] 2 Sequence.VIDEOTEX)).
  { apply (construite_init sans_decomposition tout_entier
             (PList [PInt 27; PStr [65]]) Sequence.VIDEOTEX); reflexivity. }
  assert (H2 : construite sans_decomposition tout_entier
                 (Sequence.mk [PInt 27; PInt 66] 2 Sequence.MIXTE)).
  { apply (construite_init sans_decomposition tout_entier
             (PList [PInt 27; PInt 66]) Sequence.MIXTE); reflexivity. }
  repeat (split; [assumption|]).
  exact (egale_decide sans_decomposition tout_entier _ _ H1 H2).
Defined.


(** ** Further properties of the engine *)

(** Fields of an engine written with the [avec_] functions. *)
Ltac projeter_dans H :=
  unfold Minitel.avec_mode, Minitel.avec_vitesse, Minitel.avec_horloge,
    Minitel.avec_arrivees, Minitel.avec_sortie, Minitel.avec_emis,
    Minitel.avec_baudrate in H;
  cbn [Minitel.mode Minitel.vitesse Minitel.capacite Minitel.horloge
       Minitel.arrivees Minitel.sortie Minitel.emis Minitel.baudrate] in H.

Ltac projeter :=
  unfold Minitel.avec_mode, Minitel.avec_vitesse, Minitel.avec_horloge,
    Minitel.avec_arrivees, Minitel.avec_sortie, Minitel.avec_emis,
    Minitel.avec_baudrate;
  cbn [Minitel.mode Minitel.vitesse Minitel.capacite Minitel.horloge
       Minitel.arrivees Minitel.sortie Minitel.emis Minitel.baudrate].

Lemma conserve_ret {A : Type} (a : A) : conserve (Minitel.ret a).
Proof. intros self. reflexivity. Qed.

Lemma conserve_raise {A : Type} (e : exn) : conserve (@Minitel.raise A e).
Proof. intros self. reflexivity. Qed.

Lemma conserve_lift {A : Type} (r : result A) : conserve (Minitel.lift r).
Proof. destruct r; [apply conserve_ret | apply conserve_raise]. Qed.

Lemma conserve_bind {A B : Type} (c : Minitel.M A) (k : A -> Minitel.M B) :
  conserve c -> (forall a, conserve (k a)) -> conserve (Minitel.bind c k).
Proof.
  intros Hc Hk self. unfold Minitel.bind. specialize (Hc self).
  destruct (c self) as [a m | e m |]; simpl in *; auto.
  specialize (Hk a m). destruct (k a m); simpl in *; congruence.
Qed.

Lemma conserve_sauf_Empty {A : Type} (c h : Minitel.M A) :
  conserve c -> conserve h -> conserve (Minitel.sauf_Empty c h).
Proof.
  intros Hc Hh self. unfold Minitel.sauf_Empty. specialize (Hc self).
  destruct (c self) as [a m | e m |]; simpl in *; auto.
  destruct e; simpl; auto.
  specialize (Hh m). destruct (h m); simpl in *; congruence.
Qed.

Lemma conserve_entree_get (block : bool) (timeout : option N) :
  conserve (Minitel.entree_get block timeout).
Proof.
  intros self.
  destruct (entree_get_issue block timeout self); simpl; auto.
Qed.

Section EnginSuite.

Variable normalize_NFKD : Z -> list Z.
Variable C : Minitel.constantes.
Variable duree_emission : Z -> list Z -> N.

Local Abbreviation envoyer := (Minitel.envoyer normalize_NFKD).
Local Abbreviation appeler := (Minitel.appeler normalize_NFKD duree_emission).
Local Abbreviation collecter := (Minitel.collecter normalize_NFKD).
Local Abbreviation recevoir_dans := (Minitel.recevoir_dans normalize_NFKD).
Local Abbreviation recevoir_sequence := (Minitel.recevoir_sequence normalize_NFKD C).
Local Abbreviation definir_mode := (Minitel.definir_mode normalize_NFKD C duree_emission).
Local Abbreviation definir_vitesse := (Minitel.definir_vitesse normalize_NFKD C duree_emission).
Local Abbreviation redefinir := (Minitel.redefinir normalize_NFKD C).

Lemma conserve_mettre (l : list pyval) : conserve (Minitel.mettre l).
Proof.
  induction l as [|v r IH]; cbn [Minitel.mettre]; [apply conserve_ret|].
  apply conserve_bind; [apply conserve_lift|]. intros c.
  apply conserve_bind; [|intros _; exact IH].
  intros self. reflexivity.
Qed.

Lemma conserve_envoyer (contenu : pyval) : conserve (envoyer contenu).
Proof.
  assert (H : forall v, conserve
                (Minitel.bind
                   (Minitel.lift (Minitel.Sequence_init normalize_NFKD v
                                    Sequence.VIDEOTEX))
                   (fun s => Minitel.mettre (Sequence.valeurs s)))).
  { intros v. apply conserve_bind; [apply conserve_lift|].
    intros s. apply conserve_mettre. }
  destruct contenu; try apply H. apply conserve_mettre.
Qed.

Lemma conserve_collecter (n : nat) :
  forall retour, conserve (collecter n retour).
Proof.
  induction n as [|k IH]; intros retour; cbn [Minitel.collecter];
    [apply conserve_ret|].
  intros self. pose proof (conserve_entree_get true (Some 1000%N) self) as Hg.
  destruct (Minitel.entree_get true (Some 1000%N) self) as [o m | e m |];
    simpl in *; auto.
  - assert (Hk : conserve
                   (Minitel.bind (Minitel.lift (Minitel.decode o))
                      (fun caractere =>
                         Minitel.bind
                           (Minitel.lift
                              (Minitel.Sequence_ajoute normalize_NFKD retour caractere))
                           (fun retour => collecter k retour)))).
    { apply conserve_bind; [apply conserve_lift|]. intros c.
      apply conserve_bind; [apply conserve_lift|]. intros r. apply IH. }
    specialize (Hk m).
    match goal with |- etat_final _ ?o => destruct o end; simpl in *; congruence.
  - destruct e; simpl; auto.
Qed.

Lemma conserve_appeler (contenu : pyval) (attente : Z) :
  conserve (appeler contenu attente).
Proof.
  unfold Minitel.appeler.
  apply conserve_bind; [intros self; reflexivity|]. intros _.
  apply conserve_bind; [apply conserve_envoyer|]. intros _.
  apply conserve_bind; [intros self; reflexivity|]. intros _.
  apply conserve_bind; [apply conserve_lift|]. intros r.
  apply conserve_collecter.
Qed.

Lemma str_eqb_eq (a b : list Z) : Sequence.str_eqb a b = true -> a = b.
Proof.
  unfold Sequence.str_eqb. revert b.
  induction a as [|x r IH]; intros [|y m]; simpl; try discriminate; auto.
  intros H. apply andb_true_iff in H. destruct H as [Hx Hr].
  apply Z.eqb_eq in Hx. subst y. now rewrite (IH m Hr).
Qed.

Lemma reglages_eq (a b : Minitel.t) :
  reglages b = reglages a ->
  Minitel.mode b = Minitel.mode a /\ Minitel.vitesse b = Minitel.vitesse a /\
  Minitel.capacite b = Minitel.capacite a /\ Minitel.baudrate b = Minitel.baudrate a.
Proof. unfold reglages. intros H. inversion H. auto. Qed.

(** One transaction of [definir_mode], with the test of its reply. *)
Lemma transaction_mode (contenu ack : pyval) (n : Z) (nom : list Z)
    (depart self : Minitel.t) :
  reglages self = reglages depart ->
  issue_mode nom depart
    (Minitel.bind (appeler contenu n)
       (fun retour =>
          Minitel.bind
            (Minitel.lift (Minitel.Sequence_egale normalize_NFKD retour ack))
            (fun resultat => Minitel.garder_mode nom resultat)) self).
Proof.
  intros Hd. unfold Minitel.bind.
  pose proof (conserve_appeler contenu n self) as Ha.
  destruct (appeler contenu n self) as [r m | e m |]; simpl in *;
    [| congruence | exact I].
  assert (Hm : reglages m = reglages depart) by congruence.
  destruct (Minitel.Sequence_egale normalize_NFKD r ack) as [b | e];
    simpl; [|exact Hm].
  apply reglages_eq in Hm. destruct Hm as [H1 [H2 [H3 H4]]].
  destruct b; simpl; auto.
Qed.

(** X6. [definir_mode] changes nothing but the stored mode, and that only on
    success: when it returns True the stored mode is the requested name,
    which is one of the three known names; when it returns False the stored
    mode is the former one; stored speed, capabilities and port rate are
    never touched, also when an exception goes up. *)
Theorem definir_mode_resultat (nom : list Z) (self : Minitel.t) :
  issue_mode nom self (definir_mode (PStr nom) self) /\
  (forall m, definir_mode (PStr nom) self = Minitel.Ret true m ->
             Sequence.standard_connu nom = true).
Proof.
  unfold Minitel.definir_mode.
  change (existsb (Sequence.str_eqb nom)
            [Sequence.VIDEOTEX; Sequence.MIXTE; Sequence.TELEINFORMATIQUE])
    with (Sequence.standard_connu nom).
  destruct (Sequence.standard_connu nom) eqn:Hk; cbn [negb].
  2: { split; [simpl; auto | intros m H; discriminate H]. }
  split; [|reflexivity].
  unfold Minitel.bind at 1.
  destruct (Sequence.str_eqb (Minitel.mode self) nom) eqn:Hsame.
  { apply str_eqb_eq in Hsame. simpl. auto. }
  repeat match goal with
         | |- issue_mode _ _ ((if ?b then _ else _) _) => destruct b
         end;
    try (apply transaction_mode; reflexivity);
    try (simpl; auto; fail).
  (* the two transactions from TeleInformatique to Mixed *)
  unfold Minitel.bind at 1.
  pose proof (conserve_appeler (PList [Minitel.CSI C; PInt 63; PInt 123]) 2 self)
    as Ha.
  destruct (appeler (PList [Minitel.CSI C; PInt 63; PInt 123]) 2 self)
    as [r m | e m |]; simpl in Ha; [| exact Ha | exact I].
  unfold Minitel.bind at 1.
  destruct (Minitel.Sequence_egale normalize_NFKD r
              (PList [PInt (Minitel.SEP C); PInt 94])) as [b | e];
    cbn [Minitel.lift Minitel.ret Minitel.raise]; [|exact Ha].
  destruct b; cbn [negb].
  - apply transaction_mode. exact Ha.
  - apply reglages_eq in Ha. simpl. tauto.
Qed.

(** X7. [definir_vitesse] keeps the stored speed and the rate of the port in
    step: when it returns True, the rate is one of 300, 1200, 4800 and 9600,
    does not exceed the capability, and both are now that rate; when it
    returns False both are as before; mode and capabilities are never
    touched, also when an exception goes up. *)
Theorem definir_vitesse_resultat (vitesse : Z) (self : Minitel.t) :
  match definir_vitesse vitesse self with
  | Minitel.Ret r m =>
      Minitel.mode m = Minitel.mode self /\
      Minitel.capacite m = Minitel.capacite self /\
      (if r
       then In vitesse [300; 1200; 4800; 9600] /\
            vitesse <= Minitel.vitesse_max (Minitel.capacite self) /\
            Minitel.vitesse m = vitesse /\ Minitel.baudrate m = vitesse
       else Minitel.vitesse m = Minitel.vitesse self /\
            Minitel.baudrate m = Minitel.baudrate self)
  | Minitel.Raise _ m => reglages m = reglages self
  | Minitel.Bloque => True
  end.
Proof.
  unfold Minitel.definir_vitesse.
  destruct (Minitel.vitesses C vitesse) as [code|] eqn:Hv; [|simpl; auto].
  assert (Hin : In vitesse [300; 1200; 4800; 9600]).
  { unfold Minitel.vitesses in Hv. simpl.
    destruct (Z.eqb_spec vitesse 300); auto.
    destruct (Z.eqb_spec vitesse 1200); auto.
    destruct (Z.eqb_spec vitesse 4800); auto.
    destruct (Z.eqb_spec vitesse 9600); auto. discriminate. }
  destruct (vitesse >? Minitel.vitesse_max (Minitel.capacite self)) eqn:Hmax;
    [simpl; auto|].
  unfold Minitel.bind.
  pose proof (conserve_appeler
                (PList [Minitel.PRO2 C; Minitel.PROG C; code])
                (Minitel.LONGUEUR_PRO2 C) self) as Ha.
  destruct (appeler (PList [Minitel.PRO2 C; Minitel.PROG C; code])
              (Minitel.LONGUEUR_PRO2 C) self) as [r m | e m |];
    simpl in Ha; [| exact Ha | exact I].
  apply reglages_eq in Ha. destruct Ha as [H1 [H2 [H3 H4]]].
  destruct (Sequence.longueur r =? Minitel.LONGUEUR_PRO2 C); simpl.
  - auto.
  - repeat split; auto. lia.
Qed.

Lemma get_delai_issue (delai : N) (self : Minitel.t) :
  (exists t b r self',
      Minitel.arrivees self = (t, b) :: r /\
      Minitel.entree_get true (Some delai) self = Minitel.Ret b self' /\
      Minitel.arrivees self' = r /\ meme_engin self self' /\
      (Minitel.horloge self <= Minitel.horloge self' <= Minitel.horloge self + delai)%N) \/
  (exists self',
      Minitel.entree_get true (Some delai) self = Minitel.Raise Empty self' /\
      Minitel.arrivees self' = Minitel.arrivees self /\ meme_engin self self' /\
      Minitel.horloge self' = (Minitel.horloge self + delai)%N).
Proof.
  unfold Minitel.entree_get, meme_engin.
  destruct (Minitel.arrivees self) as [|[t b] r] eqn:Ha.
  - right. eexists. split; [reflexivity|]. simpl. rewrite Ha. tauto.
  - destruct (N.leb_spec t (Minitel.horloge self)).
    + left. exists t, b, r. eexists. split; [reflexivity|].
      split; [reflexivity|]. simpl. repeat split; auto; lia.
    + cbn [negb]. destruct (N.leb_spec t (Minitel.horloge self + delai)).
      * left. exists t, b, r. eexists. split; [reflexivity|].
        split; [reflexivity|]. simpl. repeat split; auto; lia.
      * right. eexists. split; [reflexivity|]. simpl. rewrite Ha. tauto.
Qed.

Lemma meme_engin_trans (a b c : Minitel.t) :
  meme_engin a b -> meme_engin b c -> meme_engin a c.
Proof. unfold meme_engin. intuition congruence. Qed.

Lemma collecter_deroule (n : nat) :
  (forall c, 0 <= c < 128 -> normalize_NFKD c = [c]) ->
  forall (acc : list Z) (self : Minitel.t),
    sept_bits (Minitel.arrivees self) = true ->
    exists k self',
      (k <= n)%nat /\
      collecter n (trame acc) self =
        Minitel.Ret (trame (acc ++ firstn k (map snd (Minitel.arrivees self)))) self' /\
      Minitel.arrivees self' = skipn k (Minitel.arrivees self) /\
      meme_engin self self' /\
      (Minitel.horloge self <= Minitel.horloge self'
       <= Minitel.horloge self + 1000 * N.of_nat n)%N.
Proof.
  intros Hn. induction n as [|m IH]; intros acc self H7.
  - exists 0%nat, self. cbn [Minitel.collecter firstn skipn].
    rewrite app_nil_r. unfold Minitel.ret, meme_engin.
    repeat split; auto; lia.
  - cbn [Minitel.collecter].
    destruct (get_delai_issue 1000%N self)
      as [[t [b [r [s1 [Ha [Hg [Ha1 [Hm1 Hh1]]]]]]]] | [s1 [Hg [Ha1 [Hm1 Hh1]]]]];
      rewrite Hg.
    + rewrite Ha in H7. destruct (sept_bits_tete _ _ _ H7) as [Hb H7r].
      unfold Minitel.bind at 1. unfold Minitel.lift at 1, Minitel.decode.
      replace ((0 <=? b) && (b <? 128)) with true by lia.
      unfold Minitel.ret at 1. unfold Minitel.bind at 1.
      unfold Minitel.Sequence_ajoute. rewrite (ajoute_trame normalize_NFKD Hn acc b Hb).
      unfold Minitel.lift, Minitel.ret.
      destruct (IH (acc ++ [b]) s1) as [k [s2 [Hk [Hc [Ha2 [Hm2 Hh2]]]]]].
      { now rewrite Ha1. }
      exists (S k), s2. rewrite Hc, Ha2, Ha1, Ha. cbn [map snd firstn skipn].
      rewrite <- app_assoc. cbn [app].
      split; [lia|]. split; [reflexivity|]. split; [reflexivity|].
      split; [exact (meme_engin_trans _ _ _ Hm1 Hm2)|]. lia.
    + exists 0%nat, s1. cbn [firstn skipn]. rewrite app_nil_r.
      split; [lia|]. split; [reflexivity|]. split; [exact Ha1|].
      split; [exact Hm1|]. lia.
Qed.

(** A transaction, step by step. *)
Lemma appeler_deroule (l : list pyval) (n : Z) (self : Minitel.t) :
  (forall c, 0 <= c < 128 -> normalize_NFKD c = [c]) ->
  caracteres_valides
    (flat_map (Sequence.canonise_element normalize_NFKD Sequence.VIDEOTEX) l) = true ->
  sept_bits (Minitel.arrivees self) = true ->
  exists k self',
    (k <= Z.to_nat n)%nat /\
    appeler (PList l) n self =
      Minitel.Ret
        (trame (firstn k (map snd (Minitel.oublier (Minitel.horloge self)
                                     (Minitel.arrivees self))))) self' /\
    Minitel.arrivees self' =
      skipn k (Minitel.oublier (Minitel.horloge self) (Minitel.arrivees self)) /\
    Minitel.sortie self' = [] /\
    Minitel.emis self' =
      Minitel.emis self ++ Minitel.sortie self ++
      codes (flat_map (Sequence.canonise_element normalize_NFKD Sequence.VIDEOTEX) l) /\
    (Minitel.horloge self +
     duree_emission (Minitel.baudrate self)
       (Minitel.sortie self ++
        codes (flat_map (Sequence.canonise_element normalize_NFKD
                           Sequence.VIDEOTEX) l))
     <= Minitel.horloge self'
     <= Minitel.horloge self +
        duree_emission (Minitel.baudrate self)
          (Minitel.sortie self ++
           codes (flat_map (Sequence.canonise_element normalize_NFKD
                              Sequence.VIDEOTEX) l)) +
        1000 * N.of_nat (Z.to_nat n))%N.
Proof.
  intros Hn Hc H7. unfold Minitel.appeler.
  unfold Minitel.bind at 1. unfold Minitel.bind at 1.
  rewrite (envoyer_liste normalize_NFKD l _ Hc).
  unfold Minitel.bind at 1. unfold Minitel.sortie_join.
  unfold Minitel.bind at 1. unfold Minitel.Sequence_init.
  change (Sequence.init normalize_NFKD PNone Sequence.VIDEOTEX) with (Ok (trame [])).
  unfold Minitel.lift, Minitel.ret.
  match goal with |- context [Minitel.collecter _ ?k (trame []) ?s] =>
    destruct (collecter_deroule k Hn [] s) as [j [s' [Hj [Hcol [Ha [Hm Hh]]]]]]
  end.
  { simpl. now apply sept_bits_oublier. }
  exists j, s'. split; [exact Hj|]. split; [exact Hcol|].
  destruct Hm as [_ [_ [_ [_ [Hs He]]]]].
  projeter_dans Ha. projeter_dans Hs. projeter_dans He. projeter_dans Hh.
  rewrite Ha, Hs, He.
  split; [reflexivity|]. split; [reflexivity|]. split; [reflexivity|]. exact Hh.
Qed.



Lemma mettre_partiel (c1 c2 : list pyval) (x : pyval) (e : exn) (self : Minitel.t) :
  caracteres_valides c1 = true -> Minitel.chr x = Err e ->
  Minitel.mettre (c1 ++ x :: c2) self =
  Minitel.Raise e (Minitel.avec_sortie (Minitel.sortie self ++ codes c1) self).
Proof.
  revert self. induction c1 as [|v r IH]; intros self Hv Hx.
  - cbn [app Minitel.mettre codes map]. unfold Minitel.bind, Minitel.lift.
    rewrite Hx. unfold Minitel.raise. now rewrite app_nil_r, avec_sortie_meme.
  - simpl in Hv. apply andb_true_iff in Hv. destruct Hv as [Hv Hr].
    destruct v as [| n | | |]; try discriminate.
    cbn [app Minitel.mettre]. unfold Minitel.bind, Minitel.lift, Minitel.chr.
    rewrite Hv. unfold Minitel.ret. rewrite (IH _ Hr Hx).
    cbn [codes map]. now rewrite avec_sortie_deux.
Qed.

Lemma envoyer_init (v : pyval) (q : Sequence.t) (self : Minitel.t) :
  Sequence.init normalize_NFKD v Sequence.VIDEOTEX = Ok q ->
  envoyer v self = Minitel.mettre (Sequence.valeurs q) self /\
  envoyer (Sequence.objet q) self = Minitel.mettre (Sequence.valeurs q) self.
Proof.
  intros Hi. split; [|reflexivity].
  unfold Minitel.envoyer, Minitel.Sequence_init.
  destruct v as [| n | t | l | w n t];
    try (rewrite Hi; reflexivity).
  unfold Sequence.init in Hi. simpl in Hi. inversion Hi. reflexivity.
Qed.

(** X10. [envoyer] queues the canonical values of its argument, and nothing
    else, in order and after what the outbound queue already holds; sending a
    raw value or the Sequence built from it is the same; the rest of the
    engine is untouched. *)
Theorem envoyer_ordre (v : pyval) (q : Sequence.t) (self : Minitel.t) :
  Sequence.init normalize_NFKD v Sequence.VIDEOTEX = Ok q ->
  caracteres_valides (Sequence.valeurs q) = true ->
  envoyer v self =
    Minitel.Ret tt
      (Minitel.avec_sortie (Minitel.sortie self ++ codes (Sequence.valeurs q)) self) /\
  envoyer (Sequence.objet q) self = envoyer v self.
Proof.
  intros Hi Hv. destruct (envoyer_init v q self Hi) as [H1 H2].
  rewrite H2, H1. split; [now apply mettre_valides | reflexivity].
Qed.

(** X11. A value that [chr] refuses stops [envoyer] in the middle: the
    values that come before it in the canonical list are already in the
    outbound queue when the exception goes up, the ones after it are not. *)
Theorem envoyer_partiel (v x : pyval) (q : Sequence.t) (c1 c2 : list pyval)
    (e : exn) (self : Minitel.t) :
  Sequence.init normalize_NFKD v Sequence.VIDEOTEX = Ok q ->
  Sequence.valeurs q = c1 ++ x :: c2 ->
  caracteres_valides c1 = true ->
  Minitel.chr x = Err e ->
  envoyer v self =
  Minitel.Raise e (Minitel.avec_sortie (Minitel.sortie self ++ codes c1) self).
Proof.
  intros Hi Hq Hv Hx. destruct (envoyer_init v q self Hi) as [H1 _].
  rewrite H1, Hq. now apply mettre_partiel.
Qed.

(** X12. Sending a text never fails: whatever its characters, [envoyer]
    returns, and what it adds to the outbound queue are 7-bit codes only. *)
Theorem envoyer_texte (s : list Z) (self : Minitel.t) :
  exists c,
    envoyer (PStr s) self =
      Minitel.Ret tt (Minitel.avec_sortie (Minitel.sortie self ++ c) self) /\
    Forall (fun n => 0 <= n < 128) c.
Proof.
  assert (Hi : Sequence.init normalize_NFKD (PStr s) Sequence.VIDEOTEX =
               Ok (Sequence.mk (Sequence.texte normalize_NFKD Sequence.VIDEOTEX s)
                     (Z.of_nat (List.length
                        (Sequence.texte normalize_NFKD Sequence.VIDEOTEX s)))
                     Sequence.VIDEOTEX)).
  { unfold Sequence.init, Sequence.ajoute, Sequence.canonise.
    cbn [Sequence.standard_connu]. 
    replace (Sequence.standard_connu Sequence.VIDEOTEX) with true by reflexivity.
    cbn [negb isinstance_lisS Sequence.iterer Sequence.standard Sequence.valeurs app].
    now rewrite canonise_texte. }
  destruct (envoyer_init _ _ self Hi) as [H1 _]. rewrite H1.
  cbn [Sequence.valeurs].
  assert (Hb : Forall (fun v => exists n, v = PInt n /\ 0 <= n < 128)
                 (Sequence.texte normalize_NFKD Sequence.VIDEOTEX s)).
  { unfold Sequence.texte. apply Forall_flat_map, Forall_forall. intros c _.
    apply Forall_forall. intros v Hv. apply in_map_iff in Hv.
    destruct Hv as [n [<- Hn]]. exists n. split; [reflexivity|].
    pose proof (unicode_vers_minitel_sept_bits normalize_NFKD Sequence.VIDEOTEX c) as H.
    rewrite Forall_forall in H. now apply H. }
  exists (codes (Sequence.texte normalize_NFKD Sequence.VIDEOTEX s)). split.
  - apply mettre_valides. unfold caracteres_valides. apply forallb_forall.
    intros v Hv. rewrite Forall_forall in Hb. destruct (Hb v Hv) as [n [-> Hn]].
    apply andb_true_iff. split; lia.
  - unfold codes. apply Forall_forall. intros n Hn. apply in_map_iff in Hn.
    destruct Hn as [v [<- Hv]]. rewrite Forall_forall in Hb.
    destruct (Hb v Hv) as [k [-> Hk]]. exact Hk.
Qed.

Lemma recevoir_dans_issue (l : list Z) (bloque : bool) (attente : option N)
    (self : Minitel.t) :
  (forall c, 0 <= c < 128 -> normalize_NFKD c = [c]) ->
  sept_bits (Minitel.arrivees self) = true ->
  (exists t b r self',
      Minitel.arrivees self = (t, b) :: r /\
      recevoir_dans (trame l) bloque attente self =
        Minitel.Ret (trame (l ++ [b])) self' /\
      Minitel.arrivees self' = r) \/
  (exists self',
      recevoir_dans (trame l) bloque attente self = Minitel.Raise Empty self' /\
      Minitel.arrivees self' = Minitel.arrivees self /\
      (bloque = false \/ attente <> None)) \/
  recevoir_dans (trame l) bloque attente self = Minitel.Bloque.
Proof.
  intros Hn H7.
  pose proof (entree_get_issue bloque attente self) as Hi.
  inversion Hi as [t b r h Ha Heq | h Hv Hb Heq | Ha Hb Ht Heq]; symmetry in Heq.
  - left. exists t, b, r. eexists. split; [exact Ha|].
    rewrite Ha in H7. destruct (sept_bits_tete _ _ _ H7) as [Hb _].
    split; [exact (recevoir_dans_octet normalize_NFKD Hn l _ _ _ _ b Hb Heq)|].
    reflexivity.
  - right. left. eexists. split;
      [exact (recevoir_dans_exception normalize_NFKD _ _ _ _ _ _ Heq)|].
    split; [reflexivity|exact Hb].
  - right. right. unfold Minitel.recevoir_dans, Minitel.recevoir, Minitel.bind.
    now rewrite Heq.
Qed.

Lemma recevoir_sequence_echec (bloque : bool) (attente : option N)
    (self : Minitel.t) (o : Minitel.outcome Sequence.t) :
  recevoir_dans (trame []) bloque attente self = o ->
  match o with Minitel.Ret _ _ => False | _ => True end ->
  recevoir_sequence bloque attente self = o.
Proof.
  intros Hr Ho. unfold Minitel.recevoir_sequence, Minitel.Sequence_init.
  change (Sequence.init normalize_NFKD PNone Sequence.VIDEOTEX) with (Ok (trame [])).
  unfold Minitel.bind at 1. unfold Minitel.lift at 1, Minitel.ret at 1.
  unfold Minitel.bind at 1. rewrite Hr.
  destruct o; [contradiction | reflexivity | reflexivity].
Qed.

(** X13. What [recevoir_sequence] gives back is a frame of 1 to 4 bytes that
    are exactly the next bytes of the inbound stream, in order: nothing is
    skipped, nothing is taken beyond the frame. The only exception it raises
    is Empty, only from its first read (called without blocking, or with a
    limit of time), and then no byte has been taken. *)
Theorem recevoir_sequence_trame (bloque : bool) (attente : option N)
    (self : Minitel.t) :
  (forall c, 0 <= c < 128 -> normalize_NFKD c = [c]) ->
  sept_bits (Minitel.arrivees self) = true ->
  match recevoir_sequence bloque attente self with
  | Minitel.Ret s self' =>
      exists l, s = trame l /\ (1 <= List.length l <= 4)%nat /\
                map snd (Minitel.arrivees self) =
                l ++ map snd (Minitel.arrivees self')
  | Minitel.Raise e self' =>
      e = Empty /\ Minitel.arrivees self' = Minitel.arrivees self /\
      (bloque = false \/ attente <> None)
  | Minitel.Bloque => True
  end.
Proof.
  intros Hn H7.
  pose proof (entree_get_issue bloque attente self) as Hi.
  inversion Hi as [t0 b0 r0 h Ha0 Heq | h Hv Hb Heq | Ha Hb Ht Heq];
    symmetry in Heq.
  2: { rewrite (recevoir_sequence_echec bloque attente self
                  (Minitel.Raise Empty (Minitel.avec_horloge h self)));
         [| exact (recevoir_dans_exception normalize_NFKD _ _ _ _ _ _ Heq)
          | exact I].
       split; [reflexivity|]. split; [reflexivity|exact Hb]. }
  2: { rewrite (recevoir_sequence_echec bloque attente self Minitel.Bloque);
         [exact I | | exact I].
       unfold Minitel.recevoir_dans, Minitel.recevoir, Minitel.bind.
       now rewrite Heq. }
  rewrite Ha0 in H7. destruct (sept_bits_tete _ _ _ H7) as [Hb0 H71].
  rewrite (recevoir_sequence_premier_octet normalize_NFKD C bloque attente self
             _ b0 Hn Hb0 Heq).
  set (self1 := Minitel.avec_arrivees r0 (Minitel.avec_horloge h self)) in *.
  assert (Ha1 : Minitel.arrivees self1 = r0) by reflexivity.
  rewrite Ha0. cbn [map snd].
  assert (Fin1 : exists l, trame [b0] = trame l /\
                           (1 <= List.length l <= 4)%nat /\
                           b0 :: map snd r0 = l ++ map snd (Minitel.arrivees self1)).
  { exists [b0]. rewrite Ha1. simpl. repeat split; lia. }
  assert (Suite : forall l s, sept_bits (Minitel.arrivees s) = true ->
            (List.length l < 4)%nat -> (1 <= List.length l)%nat ->
            b0 :: map snd r0 = l ++ map snd (Minitel.arrivees s) ->
            forall b a,
            match recevoir_dans (trame l) b a s with
            | Minitel.Ret q s' =>
                exists o, q = trame (l ++ [o]) /\
                          sept_bits (Minitel.arrivees s') = true /\
                          b0 :: map snd r0 =
                          (l ++ [o]) ++ map snd (Minitel.arrivees s')
            | Minitel.Raise e s' =>
                e = Empty /\ Minitel.arrivees s' = Minitel.arrivees s /\
                (b = false \/ a <> None)
            | Minitel.Bloque => True
            end).
  { intros l s Hs7 Hl4 Hl1 Hpre b a.
    destruct (recevoir_dans_issue l b a s Hn Hs7)
      as [[t [o [r [s' [Has [Hr Has']]]]]] | [[s' [Hr [Has' Hba]]] | Hr]];
      rewrite Hr; auto.
    exists o. split; [reflexivity|]. rewrite Has in Hs7, Hpre.
    destruct (sept_bits_tete _ _ _ Hs7) as [_ Hs7']. rewrite Has'.
    split; [exact Hs7'|]. rewrite Hpre. cbn [map snd].
    now rewrite <- app_assoc. }
  assert (H71' : sept_bits (Minitel.arrivees self1) = true) by exact H71.
  assert (Hpre1 : b0 :: map snd r0 = [b0] ++ map snd (Minitel.arrivees self1))
    by reflexivity.
  destruct ((b0 =? Minitel.SS2 C) || (b0 =? Minitel.SEP C)).
  { pose proof (Suite [b0] self1 H71' ltac:(simpl; lia) ltac:(simpl; lia)
                  Hpre1 true None) as H.
    destruct (recevoir_dans (trame [b0]) true None self1) as [q s' | e s' |];
      [| | exact I].
    - destruct H as [o [-> [_ Hp]]]. exists ([b0] ++ [o]).
      split; [reflexivity|]. split; [simpl; lia|exact Hp].
    - exfalso. destruct H as [_ [_ [Hc | Hc]]]; [discriminate | now apply Hc]. }
  destruct (b0 =? Minitel.ESC C); [|exact Fin1].
  pose proof (Suite [b0] self1 H71' ltac:(simpl; lia) ltac:(simpl; lia)
                Hpre1 true (Some 100%N)) as H1.
  destruct (recevoir_dans (trame [b0]) true (Some 100%N) self1)
    as [q1 s2 | e s2 |]; [| | exact I].
  2: { destruct H1 as [-> [Has _]]. exists [b0]. rewrite Has.
       split; [reflexivity|]. split; [simpl; lia|reflexivity]. }
  destruct H1 as [b1 [-> [H72 Hp2]]].
  assert (Fin2 : exists l, trame ([b0] ++ [b1]) = trame l /\
                           (1 <= List.length l <= 4)%nat /\
                           b0 :: map snd r0 = l ++ map snd (Minitel.arrivees s2)).
  { exists ([b0] ++ [b1]). split; [reflexivity|]. split; [simpl; lia|exact Hp2]. }
  destruct (py_eqb _ (Minitel.CSI C)); [|exact Fin2].
  pose proof (Suite ([b0] ++ [b1]) s2 H72 ltac:(simpl; lia) ltac:(simpl; lia)
                Hp2 true None) as H2.
  destruct (recevoir_dans (trame ([b0] ++ [b1])) true None s2)
    as [q2 s3 | e s3 |]; [| | exact I].
  2: { destruct H2 as [-> [Has _]]. rewrite <- Has in Hp2.
       exists ([b0] ++ [b1]). split; [reflexivity|].
       split; [simpl; lia|exact Hp2]. }
  destruct H2 as [b2 [-> [H73 Hp3]]].
  change (Minitel.dernier (trame (([b0] ++ [b1]) ++ [b2])) s3)
    with (Minitel.Ret (PInt b2) s3).
  cbv iota beta.
  assert (Fin3 : exists l, trame (([b0] ++ [b1]) ++ [b2]) = trame l /\
                           (1 <= List.length l <= 4)%nat /\
                           b0 :: map snd r0 = l ++ map snd (Minitel.arrivees s3)).
  { eexists. split; [reflexivity|]. split; [simpl; lia|exact Hp3]. }
  destruct (py_in (PInt b2) [PInt 50; PInt 52]); [|exact Fin3].
  pose proof (Suite (([b0] ++ [b1]) ++ [b2]) s3 H73 ltac:(simpl; lia)
                ltac:(simpl; lia) Hp3 true None) as H3.
  destruct (recevoir_dans (trame (([b0] ++ [b1]) ++ [b2])) true None s3)
    as [q3 s4 | e s4 |]; [| | exact I].
  - destruct H3 as [b3 [-> [_ Hp4]]]. eexists. split; [reflexivity|].
    split; [simpl; lia|exact Hp4].
  - destruct H3 as [-> [Has _]]. rewrite <- Has in Hp3.
    eexists. split; [reflexivity|]. split; [simpl; lia|exact Hp3].
Qed.

End EnginSuite.


(** ** Detection of the speed, configuration of the keyboard *)

Section NegociationSuite.

Variable normalize_NFKD : Z -> list Z.
Variable C : Minitel.constantes.
Variable K : Negociation.constantes.
Variable duree_emission : Z -> list Z -> N.

Local Abbreviation appeler := (Minitel.appeler normalize_NFKD duree_emission).
Local Abbreviation essayer := (Negociation.essayer normalize_NFKD C K duree_emission).
Local Abbreviation deviner_vitesse :=
  (Negociation.deviner_vitesse normalize_NFKD C K duree_emission).
Local Abbreviation appels_un_par_un :=
  (Negociation.appels_un_par_un normalize_NFKD duree_emission).
Local Abbreviation configurer_clavier :=
  (Negociation.configurer_clavier normalize_NFKD C K duree_emission).

Lemma last_cons (l : list Z) :
  forall v d, last (v :: l) d = last l v.
Proof.
  induction l as [|z r IH]; intros v d; [reflexivity|].
  change (last (v :: z :: r) d) with (last (z :: r) d).
  now rewrite !IH.
Qed.

Lemma essayer_resultat (vitesses : list Z) :
  forall self,
    match essayer vitesses self with
    | Minitel.Ret r m =>
        Minitel.mode m = Minitel.mode self /\
        Minitel.capacite m = Minitel.capacite self /\
        ((In r vitesses /\ Minitel.vitesse m = r /\ Minitel.baudrate m = r) \/
         (r = -1 /\ Minitel.vitesse m = Minitel.vitesse self /\
          Minitel.baudrate m = last vitesses (Minitel.baudrate self)))
    | Minitel.Raise _ m =>
        Minitel.mode m = Minitel.mode self /\
        Minitel.capacite m = Minitel.capacite self /\
        Minitel.vitesse m = Minitel.vitesse self /\
        In (Minitel.baudrate m) vitesses
    | Minitel.Bloque => True
    end.
Proof.
  induction vitesses as [|v reste IH]; intros self.
  - simpl. split; [reflexivity|]. split; [reflexivity|]. right. auto.
  - cbn [Negociation.essayer]. unfold Minitel.bind at 1. unfold Minitel.bind at 1.
    pose proof (conserve_appeler normalize_NFKD duree_emission
                  (PList [Negociation.PRO1 K; Negociation.STATUS_TERMINAL K])
                  (Minitel.LONGUEUR_PRO2 C) (Minitel.avec_baudrate v self)) as Ha.
    destruct (appeler (PList [Negociation.PRO1 K; Negociation.STATUS_TERMINAL K])
                (Minitel.LONGUEUR_PRO2 C) (Minitel.avec_baudrate v self))
      as [r m | e m |]; cbn [etat_final] in Ha; [| | exact I].
    + apply reglages_eq in Ha. destruct Ha as [H1 [H2 [H3 H4]]].
      projeter_dans H1. projeter_dans H2. projeter_dans H3. projeter_dans H4.
      destruct (Sequence.longueur r =? Minitel.LONGUEUR_PRO2 C).
      * projeter. split; [exact H1|]. split; [exact H3|]. left.
        split; [now left|]. split; [reflexivity | exact H4].
      * specialize (IH m). destruct (essayer reste m) as [r' m' | e' m' |];
          [| | exact I].
        -- destruct IH as [I1 [I2 I3]]. split; [congruence|]. split; [congruence|].
           destruct I3 as [[Hin [Hv Hb]] | [Hr [Hv Hb]]].
           ++ left. split; [now right|]. auto.
           ++ right. split; [exact Hr|]. split; [congruence|].
              rewrite Hb, H4. symmetry. apply last_cons.
        -- destruct IH as [I1 [I2 [I3 I4]]].
           repeat split; try congruence. now right.
    + apply reglages_eq in Ha. destruct Ha as [H1 [H2 [H3 H4]]].
      projeter_dans H1. projeter_dans H2. projeter_dans H3. projeter_dans H4.
      repeat split; auto. left. now rewrite H4.
Qed.

(** X14. [deviner_vitesse] returns one of 9600, 4800, 1200 and 300, or -1.
    When it returns a speed, the stored speed and the rate of the port are
    both that speed. When it returns -1 the stored speed is the former one
    and the port is left at 300 bps, the last rate tried. Mode and
    capabilities are never touched, and if an exception goes up the stored
    speed is the former one and the port is at one of the four rates. *)
Theorem deviner_vitesse_resultat (self : Minitel.t) :
  match deviner_vitesse self with
  | Minitel.Ret r m =>
      Minitel.mode m = Minitel.mode self /\
      Minitel.capacite m = Minitel.capacite self /\
      ((In r [9600; 4800; 1200; 300] /\
        Minitel.vitesse m = r /\ Minitel.baudrate m = r) \/
       (r = -1 /\ Minitel.vitesse m = Minitel.vitesse self /\
        Minitel.baudrate m = 300))
  | Minitel.Raise _ m =>
      Minitel.mode m = Minitel.mode self /\
      Minitel.capacite m = Minitel.capacite self /\
      Minitel.vitesse m = Minitel.vitesse self /\
      In (Minitel.baudrate m) [9600; 4800; 1200; 300]
  | Minitel.Bloque => True
  end.
Proof.
  exact (essayer_resultat [9600; 4800; 1200; 300] self).
Qed.

Lemma sept_bits_skipn (k : nat) :
  forall l, sept_bits l = true -> sept_bits (skipn k l) = true.
Proof.
  induction k as [|j IH]; intros l Hl; [exact Hl|].
  destruct l as [|x r]; [reflexivity|]. cbn [skipn].
  simpl in Hl. apply andb_true_iff in Hl. now apply IH.
Qed.

Lemma essayer_retourne (vitesses : list Z) :
  (forall c, 0 <= c < 128 -> normalize_NFKD c = [c]) ->
  caracteres_valides
    (flat_map (Sequence.canonise_element normalize_NFKD Sequence.VIDEOTEX)
       [Negociation.PRO1 K; Negociation.STATUS_TERMINAL K]) = true ->
  forall self,
    sept_bits (Minitel.arrivees self) = true ->
    exists r m,
      essayer vitesses self = Minitel.Ret r m /\
      sept_bits (Minitel.arrivees m) = true.
Proof.
  intros Hn Hc. induction vitesses as [|v reste IH]; intros self H7.
  - exists (-1), self. cbn [Negociation.essayer]. unfold Minitel.ret. auto.
  - cbn [Negociation.essayer]. unfold Minitel.bind at 1. unfold Minitel.bind at 1.
    destruct (appeler_deroule normalize_NFKD duree_emission
                [Negociation.PRO1 K; Negociation.STATUS_TERMINAL K]
                (Minitel.LONGUEUR_PRO2 C) (Minitel.avec_baudrate v self) Hn Hc H7)
      as [k [m [_ [Ha [Harr _]]]]].
    rewrite Ha.
    assert (H7m : sept_bits (Minitel.arrivees m) = true).
    { rewrite Harr. apply sept_bits_skipn, sept_bits_oublier. exact H7. }
    destruct (Sequence.longueur _ =? Minitel.LONGUEUR_PRO2 C).
    + eexists _, _. split; [reflexivity|]. exact H7m.
    + exact (IH m H7m).
Qed.


Lemma appels_deroule (appels : list (list pyval * Z)) :
  (forall c, 0 <= c < 128 -> normalize_NFKD c = [c]) ->
  Forall (fun a => caracteres_valides
                     (flat_map (Sequence.canonise_element normalize_NFKD
                                  Sequence.VIDEOTEX) (fst a)) = true) appels ->
  forall self,
    sept_bits (Minitel.arrivees self) = true ->
    exists k r m,
      (k <= List.length appels)%nat /\
      (appels <> [] -> (1 <= k)%nat) /\
      appels_un_par_un (map (fun a => (PList (fst a), snd a)) appels) self =
        Minitel.Ret r m /\
      Minitel.emis m ++ Minitel.sortie m =
        Minitel.emis self ++ Minitel.sortie self ++
        flat_map (fun a => codes (flat_map (Sequence.canonise_element normalize_NFKD
                                              Sequence.VIDEOTEX) (fst a)))
                 (firstn k appels) /\
      (r = true -> k = List.length appels) /\
      reglages m = reglages self.
Proof.
  intros Hn. induction 1 as [|[l n] reste Hl _ IH]; intros self H7.
  - exists 0%nat, true, self. cbn. rewrite !app_nil_r.
    repeat split; auto. intros H; now elim H.
  - cbn [map fst snd Negociation.appels_un_par_un]. unfold Minitel.bind at 1.
    cbn [fst] in Hl.
    destruct (appeler_deroule normalize_NFKD duree_emission l n self Hn Hl H7)
      as [k [m [_ [Ha [Harr [Hs [He _]]]]]]].
    rewrite Ha.
    pose proof (conserve_appeler normalize_NFKD duree_emission (PList l) n self) as Hc.
    rewrite Ha in Hc. cbn [etat_final] in Hc.
    assert (H7m : sept_bits (Minitel.arrivees m) = true).
    { rewrite Harr. apply sept_bits_skipn, sept_bits_oublier. exact H7. }
    destruct (negb (Sequence.longueur _ =? n)).
    + exists 1%nat, false, m. cbn [firstn flat_map List.length fst].
      rewrite Hs, He, !app_nil_r. unfold Minitel.ret.
      split; [lia|]. split; [intros _; lia|]. split; [reflexivity|].
      split; [reflexivity|]. split; [intros H; discriminate | exact Hc].
    + destruct (IH m H7m) as [j [r [m' [Hj [_ [Hr [Hem [Hrt Hreg]]]]]]]].
      exists (S j), r, m'. cbn [firstn flat_map List.length fst].
      rewrite Hr, Hem, Hs, He, ?app_nil_r, <- ?app_assoc.
      split; [lia|]. split; [intros _; lia|]. split; [reflexivity|].
      split; [reflexivity|].
      split; [intros Ht; now rewrite (Hrt Ht) | congruence].
Qed.


End NegociationSuite.


(** ** Redefinition of characters: the format of the upload *)

Section RedefinirSuite.

Variable normalize_NFKD : Z -> list Z.
Variable C : Minitel.constantes.

Local Abbreviation envoyer := (Minitel.envoyer normalize_NFKD).
Local Abbreviation dessiner := (Minitel.dessiner normalize_NFKD).
Local Abbreviation redefinir := (Minitel.redefinir normalize_NFKD C).

Lemma dessiner_filtre (dessins : list Z) :
  forall octet compte self,
    dessiner dessins octet compte self =
    dessiner (filter est_pixel dessins) octet compte self.
Proof.
  induction dessins as [|pixel reste IH]; intros octet compte self;
    [reflexivity|].
  cbn [filter]. unfold est_pixel at 1.
  destruct (pixel =? 48) eqn:E0; [|destruct (pixel =? 49) eqn:E1];
    cbn [orb]; cbn [Minitel.dessiner]; rewrite E0, ?E1; cbn [negb andb];
    try apply IH;
    cbv zeta; (apply bind_ext; [reflexivity|]; intros o m;
               apply bind_ext; [reflexivity|]; intros e m'; apply IH).
Qed.

(** X17. [redefinir] reads the characters '0' and '1' of the drawing and
    nothing else: a drawing and the same drawing without its other
    characters (spaces, line ends, comments) have the same effect, whatever
    the other arguments and the state of the engine. *)
Theorem redefinir_ignore_commentaires (depuis jeu : pyval) (dessins : list Z)
    (self : Minitel.t) :
  redefinir depuis (PStr dessins) jeu self =
  redefinir depuis (PStr (filter est_pixel dessins)) jeu self.
Proof.
  unfold Minitel.redefinir.
  destruct (negb (py_eqb jeu (PStr Minitel.G0) || py_eqb jeu (PStr Minitel.G1)));
    [reflexivity|].
  destruct depuis as [| n | d | l | w n t]; try reflexivity.
  destruct (negb (Z.of_nat (List.length d) =? 1)); [reflexivity|].
  apply bind_ext; [reflexivity|]. intros _ m1.
  apply bind_ext; [reflexivity|]. intros _ m2.
  apply bind_ext; [|reflexivity]. intros m. apply dessiner_filtre.
Qed.

Lemma pixel_binaire (c : Z) : est_pixel c = true -> c = 48 \/ c = 49.
Proof.
  unfold est_pixel. intros H. apply orb_true_iff in H.
  destruct H as [H | H]; apply Z.eqb_eq in H; auto.
Qed.

Lemma pas_pixel (pixel : Z) (reste octet : list Z) (compte : Z) :
  est_pixel pixel = true ->
  dessiner_envois (pixel :: reste) octet compte =
  (if Z.of_nat (List.length (octet ++ [pixel])) =? 6
   then [PInt (0x40 + Minitel.int2 (octet ++ [pixel]))] else []) ++
  (if compte + 1 =? 80
   then [PInt (0x40 + Minitel.int2
                 ((if Z.of_nat (List.length (octet ++ [pixel])) =? 6
                   then [] else octet ++ [pixel]) ++ py_str "0000"));
         PInt 0x30]
   else []) ++
  dessiner_envois reste
    (if compte + 1 =? 80 then []
     else if Z.of_nat (List.length (octet ++ [pixel])) =? 6 then []
          else octet ++ [pixel])
    (if compte + 1 =? 80 then 0 else compte + 1).
Proof.
  intros Hp. cbn [dessiner_envois].
  destruct (pixel_binaire pixel Hp) as [-> | ->]; reflexivity.
Qed.

Lemma pas_groupe (g reste : list Z) (compte : Z) :
  List.length g = 6%nat ->
  forallb est_pixel g = true ->
  compte + 6 < 80 -> 0 <= compte ->
  dessiner_envois (g ++ reste) [] compte =
  PInt (0x40 + Minitel.int2 g) :: dessiner_envois reste [] (compte + 6).
Proof.
  intros Hl Hp Hc H0.
  destruct g as [|a [|b [|c [|d [|e [|f [|x g]]]]]]]; try discriminate.
  cbn [forallb] in Hp.
  repeat match type of Hp with
         | _ && _ = true => apply andb_true_iff in Hp; destruct Hp as [? Hp]
         end.
  cbn [app].
  repeat (rewrite pas_pixel by assumption; cbn [app List.length Z.of_nat];
          match goal with
          | |- context [?x + 1 =? 80] =>
              replace (x + 1 =? 80) with false by lia
          end;
          cbn [Pos.of_succ_nat Pos.succ Z.eqb Pos.eqb app]).
  replace (compte + 1 + 1 + 1 + 1 + 1 + 1) with (compte + 6) by lia.
  reflexivity.
Qed.

Lemma pas_fin (a b : Z) (reste : list Z) :
  est_pixel a = true -> est_pixel b = true ->
  dessiner_envois ([a; b] ++ reste) [] 78 =
  [PInt (0x40 + Minitel.int2 ([a; b] ++ py_str "0000")); PInt 0x30] ++
  dessiner_envois reste [] 0.
Proof.
  intros Ha Hb. cbn [app].
  rewrite (pas_pixel a _ [] 78 Ha). cbn [app List.length Z.of_nat].
  change (78 + 1 =? 80) with false. cbv iota.
  cbn [Pos.of_succ_nat Pos.succ Z.eqb Pos.eqb app].
  rewrite (pas_pixel b _ [a] (78 + 1) Hb). reflexivity.
Qed.

Lemma forallb_firstn_skipn (n : nat) (l : list Z) :
  forallb est_pixel l = true ->
  forallb est_pixel (firstn n l) = true /\ forallb est_pixel (skipn n l) = true.
Proof.
  intros H. rewrite <- (firstn_skipn n l), forallb_app in H.
  now apply andb_true_iff in H.
Qed.

Lemma dessiner_envois_caractere (n : nat) :
  forall (p reste : list Z),
    forallb est_pixel p = true ->
    List.length p = (6 * n + 2)%nat ->
    (n <= 13)%nat ->
    dessiner_envois (p ++ reste) [] (78 - 6 * Z.of_nat n) =
    map (fun g => PInt (0x40 + Minitel.int2 g)) (groupes n p) ++
    [PInt (0x40 + Minitel.int2 (skipn (6 * n) p ++ py_str "0000")); PInt 0x30] ++
    dessiner_envois reste [] 0.
Proof.
  induction n as [|n IH]; intros p reste Hp Hl Hn.
  - destruct p as [|a [|b [|c p]]]; try discriminate.
    cbn [forallb] in Hp. apply andb_true_iff in Hp. destruct Hp as [Ha Hp].
    apply andb_true_iff in Hp. destruct Hp as [Hb _].
    exact (pas_fin a b reste Ha Hb).
  - destruct (forallb_firstn_skipn 6 p Hp) as [Hf Hs].
    rewrite <- (firstn_skipn 6 p) at 1. rewrite <- app_assoc.
    rewrite pas_groupe; [| rewrite length_firstn; lia | exact Hf | lia | lia].
    replace (78 - 6 * Z.of_nat (S n) + 6) with (78 - 6 * Z.of_nat n) by lia.
    rewrite IH; [| exact Hs | rewrite length_skipn; lia | lia].
    cbn [groupes map app]. rewrite skipn_skipn.
    replace (6 * n + 6)%nat with (6 * S n)%nat by lia. reflexivity.
Qed.

Lemma groupes_bourrage (n : nat) :
  forall (p z : list Z),
    List.length p = (6 * n + 2)%nat -> List.length z = 4%nat ->
    groupes (S n) (p ++ z) = groupes n p ++ [skipn (6 * n) p ++ z].
Proof.
  induction n as [|n IH]; intros p z Hp Hz.
  - cbn [groupes app skipn Nat.mul]. rewrite firstn_all2; [reflexivity|].
    rewrite length_app. lia.
  - change (groupes (S (S n)) (p ++ z))
      with (firstn 6 (p ++ z) :: groupes (S n) (skipn 6 (p ++ z))).
    rewrite firstn_app, skipn_app.
    replace (6 - List.length p)%nat with 0%nat by lia.
    change (firstn 0 z) with (@nil Z). change (skipn 0 z) with z.
    rewrite app_nil_r.
    rewrite IH; [| rewrite length_skipn; lia | exact Hz].
    cbn [groupes app]. rewrite skipn_skipn.
    replace (6 * n + 6)%nat with (6 * S n)%nat by lia. reflexivity.
Qed.

Lemma executer_entiers (l : list Z) :
  Forall (fun n => 0 <= n < 0x110000) l ->
  forall self,
    executer normalize_NFKD (map PInt l) self =
    Minitel.Ret tt (Minitel.avec_sortie (Minitel.sortie self ++ l) self).
Proof.
  induction 1 as [|n r Hn _ IH]; intros self.
  - cbn [map executer]. unfold Minitel.ret.
    now rewrite app_nil_r, avec_sortie_meme.
  - cbn [map executer]. unfold Minitel.bind.
    rewrite (envoyer_entier normalize_NFKD n self Hn), IH.
    now rewrite (avec_sortie_deux [n] r self).
Qed.

Lemma int2_six (g : list Z) :
  List.length g = 6%nat -> forallb est_pixel g = true ->
  0x40 <= 0x40 + Minitel.int2 g <= 0x7f /\ bits6 (0x40 + Minitel.int2 g) = g.
Proof.
  intros Hl Hp.
  destruct g as [|a [|b [|c [|d [|e [|f [|x g]]]]]]]; try discriminate.
  cbn [forallb] in Hp.
  repeat match type of Hp with
         | _ && _ = true => apply andb_true_iff in Hp; destruct Hp as [? Hp]
         end.
  repeat match goal with
         | H : est_pixel ?c = true |- _ =>
             destruct (pixel_binaire c H) as [-> | ->]; clear H
         end;
    (split; [vm_compute; split; discriminate | reflexivity]).
Qed.

Lemma groupes_pixels (n : nat) :
  forall q, forallb est_pixel q = true -> (6 * n <= List.length q)%nat ->
    Forall (fun g => List.length g = 6%nat /\ forallb est_pixel g = true)
           (groupes n q) /\
    List.concat (groupes n q) = firstn (6 * n) q.
Proof.
  induction n as [|n IH]; intros q Hq Hl.
  - split; [constructor|reflexivity].
  - destruct (forallb_firstn_skipn 6 q Hq) as [Hf Hs].
    destruct (IH (skipn 6 q) Hs) as [I1 I2]; [rewrite length_skipn; lia|].
    cbn [groupes List.concat]. split.
    + constructor; [|exact I1]. split; [rewrite length_firstn; lia|exact Hf].
    + rewrite I2. replace (6 * S n)%nat with (6 + 6 * n)%nat by lia.
      rewrite <- (firstn_skipn 6 q) at 3.
      rewrite firstn_app, length_firstn.
      replace (6 + 6 * n - Nat.min 6 (List.length q))%nat with (6 * n)%nat by lia.
      rewrite firstn_firstn.
      replace (Nat.min (6 + 6 * n) 6) with 6%nat by lia. reflexivity.
Qed.

(** X18. The upload of one character: eighty pixels, whatever they are, make
    [dessiner] queue exactly fifteen characters, the fourteen data bytes of
    the groups of six pixels of the drawing followed by four zero bits, each
    between 0x40 and 0x7F, then the end mark 0x30; the loop then goes on with
    the rest of the drawing as it started, with no pixel pending. *)
Theorem dessiner_un_caractere (p reste : list Z) (self : Minitel.t) :
  forallb est_pixel p = true ->
  List.length p = 80%nat ->
  dessiner (p ++ reste) [] 0 self =
    dessiner reste [] 0
      (Minitel.avec_sortie
         (Minitel.sortie self ++
          map (fun g => 0x40 + Minitel.int2 g) (groupes 14 (p ++ py_str "0000")) ++
          [0x30]) self) /\
  List.length (groupes 14 (p ++ py_str "0000")) = 14%nat /\
  Forall (fun g => 0x40 <= 0x40 + Minitel.int2 g <= 0x7f)
         (groupes 14 (p ++ py_str "0000")).
Proof.
  intros Hp Hl.
  assert (Hq : forallb est_pixel (p ++ py_str "0000") = true)
    by (rewrite forallb_app, Hp; reflexivity).
  destruct (groupes_pixels 14 (p ++ py_str "0000") Hq) as [Hg _];
    [rewrite length_app, Hl; simpl; lia|].
  split; [|split].
  - assert (Hv : Forall (fun n => 0 <= n < 0x110000)
                  (map (fun g => 0x40 + Minitel.int2 g)
                       (groupes 14 (p ++ py_str "0000")) ++ [0x30])).
    { apply Forall_app. split; [|repeat constructor; lia].
      apply Forall_forall. intros n Hn. apply in_map_iff in Hn.
      destruct Hn as [g [<- Hin]]. rewrite Forall_forall in Hg.
      destruct (Hg g Hin) as [G1 G2].
      destruct (int2_six g G1 G2) as [Hb _]. lia. }
    rewrite !dessiner_executer.
    pose proof (dessiner_envois_caractere 13 p reste Hp) as H.
    change (78 - 6 * Z.of_nat 13) with 0 in H.
    rewrite H by (rewrite ?Hl; lia). clear H.
    assert (He : map (fun g => PInt (0x40 + Minitel.int2 g)) (groupes 13 p) ++
                 [PInt (0x40 + Minitel.int2 (skipn (6 * 13) p ++ py_str "0000"));
                  PInt 0x30] ++ dessiner_envois reste [] 0 =
                 map PInt (map (fun g => 0x40 + Minitel.int2 g)
                             (groupes 14 (p ++ py_str "0000")) ++ [0x30]) ++
                 dessiner_envois reste [] 0).
    { rewrite (groupes_bourrage 13 p (py_str "0000")) by (rewrite ?Hl; auto).
      rewrite !map_app, map_map, <- !app_assoc. reflexivity. }
    rewrite He, executer_app. unfold Minitel.bind.
    rewrite executer_entiers by exact Hv. reflexivity.
  - clear. generalize (p ++ py_str "0000"). intros q. reflexivity.
  - apply Forall_forall. intros g Hin. rewrite Forall_forall in Hg.
    destruct (Hg g Hin) as [G1 G2]. now destruct (int2_six g G1 G2).
Qed.

(** X19. The upload can be read back: taking for each of the fourteen data
    bytes of a character the six bits that it holds above 0x40 gives again
    the eighty pixels of the drawing, followed by the four zero bits of the
    padding. *)
Theorem dessiner_relecture (p : list Z) :
  forallb est_pixel p = true ->
  List.length p = 80%nat ->
  flat_map bits6
    (map (fun g => 0x40 + Minitel.int2 g) (groupes 14 (p ++ py_str "0000"))) =
  p ++ py_str "0000".
Proof.
  intros Hp Hl.
  assert (Hq : forallb est_pixel (p ++ py_str "0000") = true)
    by (rewrite forallb_app, Hp; reflexivity).
  destruct (groupes_pixels 14 (p ++ py_str "0000") Hq) as [Hg Hc];
    [rewrite length_app, Hl; simpl; lia|].
  rewrite firstn_all2 in Hc by (rewrite length_app, Hl; simpl; lia).
  rewrite <- Hc at 2. rewrite flat_map_concat_map, map_map. f_equal.
  rewrite <- (map_id (groupes 14 (p ++ py_str "0000"))) at 2.
  apply map_ext_in. intros g Hin. rewrite Forall_forall in Hg.
  destruct (Hg g Hin) as [G1 G2]. now destruct (int2_six g G1 G2).
Qed.

End RedefinirSuite.


(** ** Menus: the neighbouring options *)

Lemma range_nil (a b : Z) : b <= a -> range a b = [].
Proof.
  intros H. unfold range. replace (Z.to_nat (b - a)) with 0%nat by lia.
  reflexivity.
Qed.

Lemma range_cons (a b : Z) :
  a < b -> range a b = a :: range (a + 1) b.
Proof.
  intros H. unfold range.
  replace (Z.to_nat (b - a)) with (S (Z.to_nat (b - (a + 1)))) by lia.
  cbn [seq map]. rewrite <- seq_shift, map_map. f_equal; [lia|].
  apply map_ext. intros k. lia.
Qed.

Lemma range_decroissant_nil (a b : Z) :
  a <= b -> range_decroissant a b = [].
Proof.
  intros H. unfold range_decroissant.
  replace (Z.to_nat (a - b)) with 0%nat by lia. reflexivity.
Qed.

Lemma range_decroissant_cons (a b : Z) :
  b < a -> range_decroissant a b = a :: range_decroissant (a - 1) b.
Proof.
  intros H. unfold range_decroissant.
  replace (Z.to_nat (a - b)) with (S (Z.to_nat (a - 1 - b))) by lia.
  cbn [seq map]. rewrite <- seq_shift, map_map. f_equal; [lia|].
  apply map_ext. intros k. lia.
Qed.

Lemma indice_present {A : Type} (l : list A) (i : Z) :
  0 <= i < Z.of_nat (List.length l) ->
  exists x, indice l i = Ok x.
Proof.
  intros H. unfold indice.
  destruct (i <? 0) eqn:E; [lia|]. rewrite E.
  destruct (nth_error l (Z.to_nat i)) as [x|] eqn:N; [now exists x|].
  apply nth_error_None in N. lia.
Qed.

Lemma premier_croissant {A : Type} (garde : A -> bool) (l : list A) (n : nat) :
  forall a b, Z.to_nat (b - a) = n -> 0 <= a ->
    b <= Z.of_nat (List.length l) ->
    trouve_apres garde l a b (premier_indice garde l (range a b)).
Proof.
  induction n as [|n IH]; intros a b Hn Ha Hb.
  - rewrite range_nil by lia. cbn. intros j Hj. lia.
  - rewrite range_cons by lia. cbn [premier_indice].
    destruct (indice_present l a) as [x Hx]; [lia|].
    rewrite Hx.
    destruct (garde x) eqn:E.
    + cbn. split; [lia|]. split; [unfold verifie; now rewrite Hx|].
      intros j Hj. lia.
    + specialize (IH (a + 1) b ltac:(lia) ltac:(lia) Hb).
      assert (Hs : verifie garde l a = false)
        by (unfold verifie; now rewrite Hx).
      destruct (premier_indice garde l (range (a + 1) b)) as [[i|]|e];
        cbn in IH |- *; [|intros j Hj|exact IH].
      * destruct IH as [Hi [Hsel Hav]]. split; [lia|]. split; [exact Hsel|].
        intros j Hj. destruct (Z.eq_dec j a) as [->|Hne]; [exact Hs|].
        apply Hav. lia.
      * destruct (Z.eq_dec j a) as [->|Hne]; [exact Hs|]. apply IH. lia.
Qed.

Lemma premier_decroissant {A : Type} (garde : A -> bool) (l : list A) (n : nat) :
  forall a b, Z.to_nat (a - b) = n -> -1 <= b ->
    a < Z.of_nat (List.length l) ->
    trouve_avant garde l a b (premier_indice garde l (range_decroissant a b)).
Proof.
  induction n as [|n IH]; intros a b Hn Hb Ha.
  - rewrite range_decroissant_nil by lia. cbn. intros j Hj. lia.
  - rewrite range_decroissant_cons by lia. cbn [premier_indice].
    destruct (indice_present l a) as [x Hx]; [lia|].
    rewrite Hx.
    destruct (garde x) eqn:E.
    + cbn. split; [lia|]. split; [unfold verifie; now rewrite Hx|].
      intros j Hj. lia.
    + specialize (IH (a - 1) b ltac:(lia) Hb ltac:(lia)).
      assert (Hs : verifie garde l a = false)
        by (unfold verifie; now rewrite Hx).
      destruct (premier_indice garde l (range_decroissant (a - 1) b))
        as [[i|]|e]; cbn in IH |- *; [|intros j Hj|exact IH].
      * destruct IH as [Hi [Hsel Hav]]. split; [lia|]. split; [exact Hsel|].
        intros j Hj. destruct (Z.eq_dec j a) as [->|Hne]; [exact Hs|].
        apply Hav. lia.
      * destruct (Z.eq_dec j a) as [->|Hne]; [exact Hs|]. apply IH. lia.
Qed.

(** A search up then a search down from what it found come back to the
    start, when the element at the start passes the test. *)
Lemma aller_retour_apres {A : Type} (garde : A -> bool) (l : list A)
    (depart i : Z) (r : result (option Z)) :
  verifie garde l depart = true ->
  depart < i ->
  (forall j, depart + 1 <= j < i -> verifie garde l j = false) ->
  trouve_avant garde l (i - 1) (-1) r ->
  0 <= depart ->
  r = Ok (Some depart).
Proof.
  intros Hd Hi Hav T H0. destruct r as [[k|]|e]; cbn in T; [| |contradiction].
  - destruct T as [Hk [Hks Hkav]].
    destruct (Z.lt_trichotomy k depart) as [L | [-> | L]]; [|reflexivity|].
    + rewrite Hkav in Hd by lia. discriminate.
    + rewrite Hav in Hks by lia. discriminate.
  - rewrite T in Hd by lia. discriminate.
Qed.

Lemma aller_retour_avant {A : Type} (garde : A -> bool) (l : list A)
    (depart i fin : Z) (r : result (option Z)) :
  verifie garde l depart = true ->
  i < depart ->
  (forall j, i < j <= depart - 1 -> verifie garde l j = false) ->
  trouve_apres garde l (i + 1) fin r ->
  depart < fin ->
  r = Ok (Some depart).
Proof.
  intros Hd Hi Hav T H0. destruct r as [[k|]|e]; cbn in T; [| |contradiction].
  - destruct T as [Hk [Hks Hkav]].
    destruct (Z.lt_trichotomy k depart) as [L | [-> | L]]; [|reflexivity|].
    + rewrite Hav in Hks by lia. discriminate.
    + rewrite Hkav in Hd by lia. discriminate.
  - rewrite T in Hd by lia. discriminate.
Qed.

Lemma separateur_dans_menu (options : list (list Z)) (j : Z) :
  0 <= j < Z.of_nat (List.length options) ->
  verifie Menu.pas_separateur options j = false ->
  est_separateur options j = true.
Proof.
  intros Hj. unfold verifie, est_separateur, Menu.pas_separateur.
  destruct (indice_present options j Hj) as [o ->].
  now destruct (Sequence.str_eqb o Menu.separateur).
Qed.

Lemma numero_valide_bornes (options : list (list Z)) (numero : Z) :
  Menu.numero_valide options numero = true <->
  0 <= numero < Z.of_nat (List.length options).
Proof.
  unfold Menu.numero_valide. rewrite andb_true_iff. lia.
Qed.

Lemma suivante_trouve (options : list (list Z)) (numero : Z) :
  0 <= numero < Z.of_nat (List.length options) ->
  trouve_apres Menu.pas_separateur options (numero + 1)
    (Z.of_nat (List.length options)) (Menu.option_suivante options numero).
Proof.
  intros H. unfold Menu.option_suivante.
  rewrite (proj2 (numero_valide_bornes options numero) H). cbn [negb].
  apply (premier_croissant _ options _ _ _ eq_refl); lia.
Qed.

Lemma precedente_trouve (options : list (list Z)) (numero : Z) :
  0 <= numero < Z.of_nat (List.length options) ->
  trouve_avant Menu.pas_separateur options (numero - 1) (-1)
    (Menu.option_precedente options numero).
Proof.
  intros H. unfold Menu.option_precedente.
  rewrite (proj2 (numero_valide_bornes options numero) H). cbn [negb].
  apply (premier_decroissant _ options _ _ _ eq_refl); lia.
Qed.

(** X20. For a line number inside the menu, [option_suivante] never fails
    and returns the nearest line below that is not a separator: the index it
    returns is after [numero] and inside the list, its line is not a
    separator and every line in between is one; it returns [None] exactly
    when every line below is a separator. *)
Theorem option_suivante_plus_proche (options : list (list Z)) (numero : Z) :
  0 <= numero < Z.of_nat (List.length options) ->
  exists r, Menu.option_suivante options numero = Ok r /\
    match r with
    | Some i =>
        numero < i < Z.of_nat (List.length options) /\
        selectionnable options i = true /\
        forall j, numero < j < i -> est_separateur options j = true
    | None =>
        forall j, numero < j < Z.of_nat (List.length options) ->
                  est_separateur options j = true
    end.
Proof.
  intros H. pose proof (suivante_trouve options numero H) as T.
  destruct (Menu.option_suivante options numero) as [[i|]|e];
    cbn in T; [| |contradiction].
  - exists (Some i). split; [reflexivity|].
    destruct T as [Hi [Hs Hav]]. split; [lia|]. split; [exact Hs|].
    intros j Hj. apply separateur_dans_menu; [lia|]. apply Hav. lia.
  - exists None. split; [reflexivity|]. intros j Hj.
    apply separateur_dans_menu; [lia|]. apply T. lia.
Qed.

(** X21. For a line number inside the menu, [option_precedente] never fails
    and returns the nearest line above that is not a separator, or [None]
    exactly when every line above is a separator; it never returns a
    negative index, so it never reads the list from its end. *)
Theorem option_precedente_plus_proche (options : list (list Z)) (numero : Z) :
  0 <= numero < Z.of_nat (List.length options) ->
  exists r, Menu.option_precedente options numero = Ok r /\
    match r with
    | Some i =>
        0 <= i < numero /\
        selectionnable options i = true /\
        forall j, i < j < numero -> est_separateur options j = true
    | None =>
        forall j, 0 <= j < numero -> est_separateur options j = true
    end.
Proof.
  intros H. pose proof (precedente_trouve options numero H) as T.
  destruct (Menu.option_precedente options numero) as [[i|]|e];
    cbn in T; [| |contradiction].
  - exists (Some i). split; [reflexivity|].
    destruct T as [Hi [Hs Hav]]. split; [lia|]. split; [exact Hs|].
    intros j Hj. apply separateur_dans_menu; [lia|]. apply Hav. lia.
  - exists None. split; [reflexivity|]. intros j Hj.
    apply separateur_dans_menu; [lia|]. apply T. lia.
Qed.

(** X22. Going down then up comes back: from a line that is not a separator,
    if [option_suivante] gives the line [i], then [option_precedente] of [i]
    gives the starting line again; and the same the other way round. *)
Theorem option_suivante_puis_precedente (options : list (list Z))
    (numero i : Z) :
  selectionnable options numero = true ->
  (Menu.option_suivante options numero = Ok (Some i) ->
   Menu.option_precedente options i = Ok (Some numero)) /\
  (Menu.option_precedente options numero = Ok (Some i) ->
   Menu.option_suivante options i = Ok (Some numero)).
Proof.
  intros Hsel. unfold selectionnable in Hsel. split; intros Hr.
  - assert (Hv : 0 <= numero < Z.of_nat (List.length options)).
    { apply numero_valide_bornes. unfold Menu.option_suivante in Hr.
      destruct (Menu.numero_valide options numero); [reflexivity|discriminate]. }
    pose proof (suivante_trouve options numero Hv) as T.
    rewrite Hr in T. cbn in T. destruct T as [Hi [_ Hav]].
    apply (aller_retour_apres Menu.pas_separateur options numero i);
      [exact Hsel | lia | exact Hav | | lia].
    apply precedente_trouve. lia.
  - assert (Hv : 0 <= numero < Z.of_nat (List.length options)).
    { apply numero_valide_bornes. unfold Menu.option_precedente in Hr.
      destruct (Menu.numero_valide options numero); [reflexivity|discriminate]. }
    pose proof (precedente_trouve options numero Hv) as T.
    rewrite Hr in T. cbn in T. destruct T as [Hi [_ Hav]].
    apply (aller_retour_avant Menu.pas_separateur options numero i
             (Z.of_nat (List.length options)));
      [exact Hsel | lia | exact Hav | | lia].
    apply suivante_trouve. lia.
Qed.


(** ** Containers: the active element *)

Lemma indice_nth {A : Type} (l : list A) (i : Z) :
  0 <= i -> indice l i =
            match nth_error l (Z.to_nat i) with
            | Some x => Ok x
            | None => Err IndexError
            end.
Proof.
  intros H. unfold indice. destruct (i <? 0) eqn:E; [lia|]. now rewrite E.
Qed.

Lemma index_trouve (l : list Conteneur.element) (objet : Z) :
  forall p, Conteneur.index l objet = Ok p ->
    0 <= p < Z.of_nat (List.length l) /\
    exists e, indice l p = Ok e /\ Conteneur.ident e = objet.
Proof.
  induction l as [|x r IH]; intros p H; [discriminate|].
  cbn [Conteneur.index] in H.
  destruct (Conteneur.ident x =? objet) eqn:E.
  - injection H as <-. split; [cbn [List.length]; lia|].
    exists x. split; [reflexivity|]. now apply Z.eqb_eq.
  - destruct (Conteneur.index r objet) as [i|] eqn:Hi; [|discriminate].
    injection H as <-. destruct (IH i eq_refl) as [Hb [e [He Hid]]].
    split; [cbn [List.length]; lia|]. exists e. split; [|exact Hid].
    rewrite indice_nth in He |- * by lia.
    replace (Z.to_nat (i + 1)) with (S (Z.to_nat i)) by lia. exact He.
Qed.

Lemma index_place (l : list Conteneur.element) :
  NoDup (map Conteneur.ident l) ->
  forall n e, nth_error l n = Some e ->
    Conteneur.index l (Conteneur.ident e) = Ok (Z.of_nat n).
Proof.
  induction l as [|x r IH]; intros Hn n e He; [now destruct n|].
  cbn [map] in Hn. apply NoDup_cons_iff in Hn. destruct Hn as [Hx Hr].
  cbn [Conteneur.index]. destruct n as [|n]; cbn [nth_error] in He.
  - injection He as ->. now rewrite Z.eqb_refl.
  - destruct (Conteneur.ident x =? Conteneur.ident e) eqn:E.
    + apply Z.eqb_eq in E. exfalso. apply Hx. rewrite E.
      apply in_map. eapply nth_error_In. exact He.
    + rewrite (IH Hr n e He). f_equal. lia.
Qed.

Lemma index_indice (l : list Conteneur.element) (i : Z) (e : Conteneur.element) :
  NoDup (map Conteneur.ident l) -> 0 <= i -> indice l i = Ok e ->
  Conteneur.index l (Conteneur.ident e) = Ok i.
Proof.
  intros Hn Hi He. rewrite indice_nth in He by lia.
  destruct (nth_error l (Z.to_nat i)) as [x|] eqn:N; [|discriminate].
  injection He as ->. rewrite (index_place l Hn _ _ N). f_equal. lia.
Qed.

Lemma indice_In {A : Type} (l : list A) (i : Z) (x : A) :
  0 <= i -> indice l i = Ok x -> In x l.
Proof.
  intros Hi H. rewrite indice_nth in H by lia.
  destruct (nth_error l (Z.to_nat i)) as [y|] eqn:N; [|discriminate].
  injection H as ->. eapply nth_error_In. exact N.
Qed.

Lemma meme_objet (l : list Conteneur.element) (e e' : Conteneur.element) :
  NoDup (map Conteneur.ident l) -> In e l -> In e' l ->
  Conteneur.ident e = Conteneur.ident e' -> e = e'.
Proof.
  intros Hn He He' Hid.
  destruct (In_nth_error l e He) as [n Nn].
  destruct (In_nth_error l e' He') as [n' Nn'].
  pose proof (index_place l Hn n e Nn) as P.
  pose proof (index_place l Hn n' e' Nn') as P'.
  rewrite Hid, P' in P. injection P as P. apply Nat2Z.inj in P. subst n'.
  rewrite Nn in Nn'. now injection Nn'.
Qed.

(** Where the active element of a coherent container is. *)
Lemma place_coherente (c : Conteneur.t) (actif : Z) :
  coherent c -> Conteneur.element_actif c = Some actif ->
  exists p, Conteneur.index (Conteneur.elements c) actif = Ok p /\
            0 <= p < Z.of_nat (List.length (Conteneur.elements c)) /\
            verifie Conteneur.activable (Conteneur.elements c) p = true.
Proof.
  intros [Hn Ha] Hs. rewrite Hs in Ha. destruct Ha as [e [Hin [Hid Hact]]].
  destruct (In_nth_error _ e Hin) as [n Nn].
  pose proof (index_place _ Hn n e Nn) as P. rewrite Hid in P.
  exists (Z.of_nat n). split; [exact P|].
  destruct (index_trouve _ _ _ P) as [Hb _]. split; [exact Hb|].
  unfold verifie. rewrite indice_nth by lia. rewrite Nat2Z.id, Nn. exact Hact.
Qed.

Lemma activer_coherent (c c' : Conteneur.t) (i : Z) (b : bool) :
  NoDup (map Conteneur.ident (Conteneur.elements c)) -> 0 <= i ->
  verifie Conteneur.activable (Conteneur.elements c) i = true ->
  Conteneur.activer c i = Ok (b, c') -> coherent c'.
Proof.
  intros Hn Hi Hv H. unfold Conteneur.activer in H. unfold verifie in Hv.
  destruct (indice (Conteneur.elements c) i) as [e|] eqn:He; [|discriminate].
  injection H as _ <-. split; [exact Hn|]. cbn.
  exists e. split; [exact (indice_In _ _ _ Hi He)|]. split; [reflexivity|exact Hv].
Qed.

Lemma ajoute_coherent (c c' : Conteneur.t) (e : Conteneur.element) :
  coherent c -> Conteneur.ajoute c e = Ok c' -> coherent c'.
Proof.
  intros [Hn Ha] H. unfold Conteneur.ajoute in H.
  destruct (existsb _ (Conteneur.elements c)) eqn:Ex; [discriminate|].
  injection H as <-. set (e' := if py_eqb (Conteneur.couleur e) PNone then _ else e).
  assert (Hid : Conteneur.ident e' = Conteneur.ident e)
    by (unfold e'; now destruct (py_eqb (Conteneur.couleur e) PNone)).
  assert (Hac : Conteneur.activable e' = Conteneur.activable e)
    by (unfold e'; now destruct (py_eqb (Conteneur.couleur e) PNone)).
  split; cbn [Conteneur.elements Conteneur.element_actif].
  - rewrite map_app. cbn [map]. rewrite Hid.
    apply NoDup_rev in Hn. rewrite <- (rev_involutive (_ ++ _)).
    apply NoDup_rev. rewrite rev_app_distr. cbn [rev app].
    constructor; [|exact Hn]. rewrite <- in_rev. intros Hin.
    apply in_map_iff in Hin. destruct Hin as [x [Hx Hin]].
    assert (existsb (fun e0 => Conteneur.ident e0 =? Conteneur.ident e)
                    (Conteneur.elements c) = true).
    { apply existsb_exists. exists x. split; [exact Hin|]. now apply Z.eqb_eq. }
    congruence.
  - destruct (Conteneur.element_actif c) as [a|].
    + destruct Ha as [x [Hin Hx]]. exists x. split; [|exact Hx].
      apply in_or_app. now left.
    + destruct (Conteneur.activable e') eqn:Act.
      * exists e'. split; [apply in_or_app; right; now left|]. now split.
      * intros x Hin. apply in_app_or in Hin. destruct Hin as [Hin|[<-|[]]];
          [now apply Ha|exact Act].
Qed.

Lemma suivant_deroule (c : Conteneur.t) :
  coherent c ->
  Conteneur.elements c <> [] ->
  exists depart,
    place_active (-1) c = Ok depart /\
    -1 <= depart < Z.of_nat (List.length (Conteneur.elements c)) /\
    (Conteneur.element_actif c <> None ->
     verifie Conteneur.activable (Conteneur.elements c) depart = true) /\
    trouve_apres Conteneur.activable (Conteneur.elements c) (depart + 1)
      (Z.of_nat (List.length (Conteneur.elements c)))
      (premier_indice Conteneur.activable (Conteneur.elements c)
         (range (depart + 1) (Z.of_nat (List.length (Conteneur.elements c))))) /\
    Conteneur.suivant c =
      match premier_indice Conteneur.activable (Conteneur.elements c)
              (range (depart + 1) (Z.of_nat (List.length (Conteneur.elements c)))) with
      | Err x => Err x
      | Ok (Some i) => Conteneur.activer c i
      | Ok None => Ok (false, c)
      end.
Proof.
  intros Hc Hne.
  assert (Hl : (Z.of_nat (List.length (Conteneur.elements c)) =? 0) = false).
  { apply Z.eqb_neq. destruct (Conteneur.elements c); [congruence|].
    cbn [List.length]. lia. }
  unfold Conteneur.suivant, place_active. cbv zeta. rewrite Hl.
  destruct (Conteneur.element_actif c) as [a|] eqn:Ea.
  - destruct (place_coherente c a Hc Ea) as [p [Hp [Hb Hv]]].
    exists p. rewrite Hp. split; [reflexivity|]. split; [lia|].
    split; [intros _; exact Hv|]. split; [|reflexivity].
    apply (premier_croissant _ _ _ _ _ eq_refl); lia.
  - exists (-1). split; [reflexivity|].
    apply Z.eqb_neq in Hl. split; [lia|]. split; [congruence|].
    split; [|reflexivity].
    apply (premier_croissant _ _ _ _ _ eq_refl); lia.
Qed.

Lemma precedent_deroule (c : Conteneur.t) :
  coherent c ->
  Conteneur.elements c <> [] ->
  exists depart,
    place_active (Z.of_nat (List.length (Conteneur.elements c))) c = Ok depart /\
    0 <= depart <= Z.of_nat (List.length (Conteneur.elements c)) /\
    (Conteneur.element_actif c <> None ->
     depart < Z.of_nat (List.length (Conteneur.elements c)) /\
     verifie Conteneur.activable (Conteneur.elements c) depart = true) /\
    trouve_avant Conteneur.activable (Conteneur.elements c) (depart - 1) (-1)
      (premier_indice Conteneur.activable (Conteneur.elements c)
         (range_decroissant (depart - 1) (-1))) /\
    Conteneur.precedent c =
      match premier_indice Conteneur.activable (Conteneur.elements c)
              (range_decroissant (depart - 1) (-1)) with
      | Err x => Err x
      | Ok (Some i) => Conteneur.activer c i
      | Ok None => Ok (false, c)
      end.
Proof.
  intros Hc Hne.
  assert (Hl : (Z.of_nat (List.length (Conteneur.elements c)) =? 0) = false).
  { apply Z.eqb_neq. destruct (Conteneur.elements c); [congruence|].
    cbn [List.length]. lia. }
  unfold Conteneur.precedent, place_active. cbv zeta. rewrite Hl.
  destruct (Conteneur.element_actif c) as [a|] eqn:Ea.
  - destruct (place_coherente c a Hc Ea) as [p [Hp [Hb Hv]]].
    exists p. rewrite Hp. split; [reflexivity|]. split; [lia|].
    split; [intros _; split; [lia|exact Hv]|]. split; [|reflexivity].
    apply (premier_decroissant _ _ _ _ _ eq_refl); lia.
  - exists (Z.of_nat (List.length (Conteneur.elements c))).
    split; [reflexivity|].
    apply Z.eqb_neq in Hl. split; [lia|]. split; [congruence|].
    split; [|reflexivity].
    apply (premier_decroissant _ _ _ _ _ eq_refl); lia.
Qed.

Lemma vide_ou_non {A : Type} (l : list A) : l = [] \/ l <> [].
Proof. destruct l; [left; reflexivity|right; discriminate]. Qed.

Lemma suivant_coherent (c c' : Conteneur.t) (b : bool) :
  coherent c -> Conteneur.suivant c = Ok (b, c') -> coherent c'.
Proof.
  intros Hc H.
  destruct (vide_ou_non (Conteneur.elements c)) as [El | El].
  - unfold Conteneur.suivant in H. rewrite El in H. cbn in H.
    injection H as _ <-. exact Hc.
  - destruct (suivant_deroule c Hc El) as [d [_ [Hd [_ [T E]]]]].
    rewrite E in H.
    destruct (premier_indice _ _ _) as [[i|]|]; cbn in T; [| |contradiction].
    + destruct T as [Hi [Hv _]].
      apply (activer_coherent c c' i b (proj1 Hc)); [lia|exact Hv|exact H].
    + injection H as _ <-. exact Hc.
Qed.

Lemma precedent_coherent (c c' : Conteneur.t) (b : bool) :
  coherent c -> Conteneur.precedent c = Ok (b, c') -> coherent c'.
Proof.
  intros Hc H.
  destruct (vide_ou_non (Conteneur.elements c)) as [El | El].
  - unfold Conteneur.precedent in H. rewrite El in H. cbn in H.
    injection H as _ <-. exact Hc.
  - destruct (precedent_deroule c Hc El) as [d [_ [Hd [_ [T E]]]]].
    rewrite E in H.
    destruct (premier_indice _ _ _) as [[i|]|]; cbn in T; [| |contradiction].
    + destruct T as [Hi [Hv _]].
      apply (activer_coherent c c' i b (proj1 Hc)); [lia|exact Hv|exact H].
    + injection H as _ <-. exact Hc.
Qed.

(** X23. Invariant of a container: whatever elements are added and however
    the user moves between them, the elements stay distinct objects and the
    active element, when there is one, is an element of the list that can be
    activated; there is none only while no element can be activated. *)
Theorem conteneur_coherent (c : Conteneur.t) :
  accessible c -> coherent c.
Proof.
  induction 1 as [couleur | c e c' _ IH H | c b c' _ IH H | c b c' _ IH H].
  - split; [constructor|]. cbn. intros e [].
  - exact (ajoute_coherent c c' e IH H).
  - exact (suivant_coherent c c' b IH H).
  - exact (precedent_coherent c c' b IH H).
Qed.

(** X24. [suivant] on a coherent container never fails (the search of the
    active element cannot raise ValueError) and never changes the list: it
    returns True after making active the nearest element after the active
    one that can be activated, and False with the container unchanged
    exactly when no element after the active one can be activated. *)
Theorem suivant_plus_proche (c : Conteneur.t) :
  coherent c ->
  exists depart b c',
    (Conteneur.elements c <> [] -> place_active (-1) c = Ok depart) /\
    Conteneur.suivant c = Ok (b, c') /\
    Conteneur.elements c' = Conteneur.elements c /\
    if b then
      exists i e,
        depart < i < Z.of_nat (List.length (Conteneur.elements c)) /\
        indice (Conteneur.elements c) i = Ok e /\
        Conteneur.activable e = true /\
        Conteneur.element_actif c' = Some (Conteneur.ident e) /\
        forall j, depart < j < i ->
                  verifie Conteneur.activable (Conteneur.elements c) j = false
    else
      c' = c /\
      forall j, depart < j < Z.of_nat (List.length (Conteneur.elements c)) ->
                verifie Conteneur.activable (Conteneur.elements c) j = false.
Proof.
  intros Hc.
  destruct (vide_ou_non (Conteneur.elements c)) as [El | El].
  - exists (-1), false, c. split; [congruence|].
    unfold Conteneur.suivant. rewrite El. cbn.
    split; [reflexivity|]. split; [reflexivity|]. split; [reflexivity|].
    intros j Hj. lia.
  - destruct (suivant_deroule c Hc El) as [d [Hp [Hd [_ [T E]]]]].
    rewrite E.
    destruct (premier_indice _ _ _) as [[i|]|]; cbn in T; [| |contradiction].
    + destruct T as [Hi [Hv Hav]]. unfold verifie in Hv.
      unfold Conteneur.activer.
      destruct (indice (Conteneur.elements c) i) as [e|] eqn:Ie; [|discriminate].
      eexists d, true, _. split; [intros _; exact Hp|].
      split; [reflexivity|]. split; [reflexivity|].
      exists i, e. split; [lia|]. split; [exact Ie|]. split; [exact Hv|].
      split; [reflexivity|]. intros j Hj. apply Hav. lia.
    + exists d, false, c. split; [intros _; exact Hp|].
      split; [reflexivity|]. split; [reflexivity|]. split; [reflexivity|].
      intros j Hj. apply T. lia.
Qed.

Lemma activer_place (c : Conteneur.t) (p actif : Z) :
  Conteneur.element_actif c = Some actif ->
  Conteneur.index (Conteneur.elements c) actif = Ok p ->
  forall autre,
    Conteneur.activer
      (Conteneur.mk (Conteneur.elements c) autre (Conteneur.couleur_conteneur c))
      p = Ok (true, c).
Proof.
  intros Ea Hp autre. destruct (index_trouve _ _ _ Hp) as [_ [e [He Hid]]].
  unfold Conteneur.activer. cbn [Conteneur.elements Conteneur.couleur_conteneur].
  rewrite He, Hid. destruct c as [l a k]. cbn in *. now subst a.
Qed.

(** X25. Moving forth and back comes back: on a coherent container, when
    [suivant] returns True, [precedent] on the container it leaves returns
    True and leaves the container as it was at the start; and the same for
    [precedent] followed by [suivant]. *)
Theorem suivant_puis_precedent (c c' : Conteneur.t) :
  coherent c ->
  (Conteneur.suivant c = Ok (true, c') ->
   Conteneur.precedent c' = Ok (true, c)) /\
  (Conteneur.precedent c = Ok (true, c') ->
   Conteneur.suivant c' = Ok (true, c)).
Proof.
  intros Hc. split; intros H.
  - assert (Hne : Conteneur.elements c <> []).
    { intros El. unfold Conteneur.suivant in H. rewrite El in H. discriminate. }
    assert (Hc' : coherent c') by exact (suivant_coherent c c' true Hc H).
    destruct (suivant_deroule c Hc Hne) as [d [Hp [Hd [Hv [T E]]]]].
    rewrite E in H.
    destruct (premier_indice _ _ _) as [[i|]|]; cbn in T;
      [|discriminate|contradiction].
    destruct T as [Hi [Hiv Hav]]. unfold Conteneur.activer in H.
    destruct (indice (Conteneur.elements c) i) as [e|] eqn:Ie; [|discriminate].
    injection H as <-.
    destruct (Conteneur.element_actif c) as [a|] eqn:Ea.
    + unfold place_active in Hp. rewrite Ea in Hp.
      specialize (Hv ltac:(discriminate)).
      destruct (index_trouve _ _ _ Hp) as [Hd0 _].
      destruct (precedent_deroule _ Hc' Hne) as [d' [Hp' [_ [_ [T' E']]]]].
      unfold place_active in Hp'.
      cbn [Conteneur.element_actif Conteneur.elements] in Hp', T', E'.
      rewrite (index_indice _ i e (proj1 Hc) ltac:(lia) Ie) in Hp'.
      injection Hp' as <-. rewrite E'.
      rewrite (aller_retour_apres Conteneur.activable (Conteneur.elements c)
                 d i _ Hv ltac:(lia) Hav T' ltac:(lia)).
      apply (activer_place c d a Ea Hp).
    + exfalso. destruct Hc as [_ Ha]. rewrite Ea in Ha.
      unfold verifie in Hiv. rewrite Ie in Hiv.
      assert (Hpos : 0 <= i) by lia.
      rewrite (Ha e (indice_In _ i e Hpos Ie)) in Hiv. discriminate.
  - assert (Hne : Conteneur.elements c <> []).
    { intros El. unfold Conteneur.precedent in H. rewrite El in H. discriminate. }
    assert (Hc' : coherent c') by exact (precedent_coherent c c' true Hc H).
    destruct (precedent_deroule c Hc Hne) as [d [Hp [Hd [Hv [T E]]]]].
    rewrite E in H.
    destruct (premier_indice _ _ _) as [[i|]|]; cbn in T;
      [|discriminate|contradiction].
    destruct T as [Hi [Hiv Hav]]. unfold Conteneur.activer in H.
    destruct (indice (Conteneur.elements c) i) as [e|] eqn:Ie; [|discriminate].
    injection H as <-.
    destruct (Conteneur.element_actif c) as [a|] eqn:Ea.
    + unfold place_active in Hp. rewrite Ea in Hp.
      destruct (Hv ltac:(discriminate)) as [Hdl Hdv].
      destruct (suivant_deroule _ Hc' Hne) as [d' [Hp' [_ [_ [T' E']]]]].
      unfold place_active in Hp'.
      cbn [Conteneur.element_actif Conteneur.elements] in Hp', T', E'.
      rewrite (index_indice _ i e (proj1 Hc) ltac:(lia) Ie) in Hp'.
      injection Hp' as <-. rewrite E'.
      rewrite (aller_retour_avant Conteneur.activable (Conteneur.elements c)
                 d i _ _ Hdv ltac:(lia) Hav T' Hdl).
      apply (activer_place c d a Ea Hp).
    + exfalso. destruct Hc as [_ Ha]. rewrite Ea in Ha.
      unfold verifie in Hiv. rewrite Ie in Hiv.
      assert (Hpos : 0 <= i) by lia.
      rewrite (Ha e (indice_In _ i e Hpos Ie)) in Hiv. discriminate.
Qed.


(** ** The properties above on examples *)



Lemma envoyer_ordre_temoin :
  Sequence.init sans_decomposition (PList [PStr (py_str "A"); PList [PInt 0x42]])
    Sequence.VIDEOTEX = Ok (trame [0x41; 0x42]) /\
  caracteres_valides (Sequence.valeurs (trame [0x41; 0x42])) = true /\
  Minitel.envoyer sans_decomposition
    (PList [PStr (py_str "A"); PList [PInt 0x42]])
    (engin Sequence.VIDEOTEX []) =
  Minitel.Ret tt (Minitel.avec_sortie [0x41; 0x42] (engin Sequence.VIDEOTEX [])) /\
  Minitel.envoyer sans_decomposition (Sequence.objet (trame [0x41; 0x42]))
    (engin Sequence.VIDEOTEX []) =
  Minitel.envoyer sans_decomposition
    (PList [PStr (py_str "A"); PList [PInt 0x42]])
    (engin Sequence.VIDEOTEX []).
Proof.
  assert (H1 : Sequence.init sans_decomposition
                 (PList [PStr (py_str "A"); PList [PInt 0x42]])
                 Sequence.VIDEOTEX = Ok (trame [0x41; 0x42])) by reflexivity.
  assert (H2 : caracteres_valides (Sequence.valeurs (trame [0x41; 0x42])) = true)
    by reflexivity.
  repeat (split; [assumption|]).
  exact (envoyer_ordre sans_decomposition
           (PList [PStr (py_str "A"); PList [PInt 0x42]]) (trame [0x41; 0x42])
           (engin Sequence.VIDEOTEX []) H1 H2).
Defined.

Lemma envoyer_partiel_temoin :
  Sequence.init sans_decomposition (PList [PInt 0x41; PInt (-1); PInt 0x42])
    Sequence.VIDEOTEX =
  Ok (Sequence.mk [PInt 0x41; PInt (-1); PInt 0x42] 3 Sequence.VIDEOTEX) /\
  caracteres_valides [PInt 0x41] = true /\
  Minitel.chr (PInt (-1)) = Err ValueError /\
  Minitel.envoyer sans_decomposition (PList [PInt 0x41; PInt (-1); PInt 0x42])
    (engin Sequence.VIDEOTEX []) =
  Minitel.Raise ValueError
    (Minitel.avec_sortie [0x41] (engin Sequence.VIDEOTEX [])).
Proof.
  assert (H1 : Sequence.init sans_decomposition
                 (PList [PInt 0x41; PInt (-1); PInt 0x42]) Sequence.VIDEOTEX =
               Ok (Sequence.mk [PInt 0x41; PInt (-1); PInt 0x42] 3
                     Sequence.VIDEOTEX)) by reflexivity.
  assert (H2 : caracteres_valides [PInt 0x41] = true) by reflexivity.
  assert (H3 : Minitel.chr (PInt (-1)) = Err ValueError) by reflexivity.
  repeat (split; [assumption|]).
  exact (envoyer_partiel sans_decomposition
           (PList [PInt 0x41; PInt (-1); PInt 0x42]) (PInt (-1))
           (Sequence.mk [PInt 0x41; PInt (-1); PInt 0x42] 3 Sequence.VIDEOTEX)
           [PInt 0x41] [PInt 0x42] ValueError (engin Sequence.VIDEOTEX [])
           H1 eq_refl H2 H3).
Defined.

Lemma recevoir_sequence_trame_temoin :
  (forall c, 0 <= c < 128 -> sans_decomposition c = [c]) /\
  sept_bits (Minitel.arrivees
               (engin Sequence.VIDEOTEX
                  [(10%N, 0x1b); (50%N, 0x5b); (60%N, 0x41); (900%N, 0x42)]))
  = true /\
  match Minitel.recevoir_sequence sans_decomposition protocole true None
          (engin Sequence.VIDEOTEX
             [(10%N, 0x1b); (50%N, 0x5b); (60%N, 0x41); (900%N, 0x42)]) with
  | Minitel.Ret s self' =>
      exists l, s = trame l /\ (1 <= List.length l <= 4)%nat /\
                [0x1b; 0x5b; 0x41; 0x42] = l ++ map snd (Minitel.arrivees self')
  | Minitel.Raise e self' =>
      e = Empty /\
      Minitel.arrivees self' =
        [(10%N, 0x1b); (50%N, 0x5b); (60%N, 0x41); (900%N, 0x42)] /\
      (true = false \/ @None N <> None)
  | Minitel.Bloque => True
  end.
Proof.
  assert (H1 : forall c, 0 <= c < 128 -> sans_decomposition c = [c])
    by (intros c _; reflexivity).
  assert (H2 : sept_bits (Minitel.arrivees
                 (engin Sequence.VIDEOTEX
                    [(10%N, 0x1b); (50%N, 0x5b); (60%N, 0x41); (900%N, 0x42)]))
               = true) by reflexivity.
  repeat (split; [assumption|]).
  exact (recevoir_sequence_trame sans_decomposition protocole true None
           (engin Sequence.VIDEOTEX
              [(10%N, 0x1b); (50%N, 0x5b); (60%N, 0x41); (900%N, 0x42)]) H1 H2).
Defined.



Lemma dessiner_un_caractere_temoin :
  forallb est_pixel damier = true /\
  List.length damier = 80%nat /\
  Minitel.dessiner sans_decomposition (damier ++ py_str "1") [] 0
    (engin Sequence.VIDEOTEX []) =
  Minitel.dessiner sans_decomposition (py_str "1") [] 0
    (Minitel.avec_sortie
       (Minitel.sortie (engin Sequence.VIDEOTEX []) ++
        map (fun g => 0x40 + Minitel.int2 g)
          (groupes 14 (damier ++ py_str "0000")) ++ [0x30])
       (engin Sequence.VIDEOTEX [])).
Proof.
  assert (H1 : forallb est_pixel damier = true) by reflexivity.
  assert (H2 : List.length damier = 80%nat) by reflexivity.
  repeat (split; [assumption|]).
  exact (proj1 (dessiner_un_caractere sans_decomposition damier (py_str "1")
                  (engin Sequence.VIDEOTEX []) H1 H2)).
Defined.

Lemma dessiner_relecture_temoin :
  forallb est_pixel damier = true /\
  List.length damier = 80%nat /\
  flat_map bits6
    (map (fun g => 0x40 + Minitel.int2 g) (groupes 14 (damier ++ py_str "0000"))) =
  damier ++ py_str "0000".
Proof.
  assert (H1 : forallb est_pixel damier = true) by reflexivity.
  assert (H2 : List.length damier = 80%nat) by reflexivity.
  repeat (split; [assumption|]).
  exact (dessiner_relecture damier H1 H2).
Defined.

Lemma option_suivante_plus_proche_temoin :
  0 <= 1 < Z.of_nat (List.length menu_exemple) /\
  exists r, Menu.option_suivante menu_exemple 1 = Ok r /\
    match r with
    | Some i =>
        1 < i < Z.of_nat (List.length menu_exemple) /\
        selectionnable menu_exemple i = true /\
        forall j, 1 < j < i -> est_separateur menu_exemple j = true
    | None =>
        forall j, 1 < j < Z.of_nat (List.length menu_exemple) ->
                  est_separateur menu_exemple j = true
    end.
Proof.
  assert (H1 : 0 <= 1 < Z.of_nat (List.length menu_exemple)) by (simpl; lia).
  split; [exact H1|].
  exact (option_suivante_plus_proche menu_exemple 1 H1).
Defined.

Lemma option_precedente_plus_proche_temoin :
  0 <= 4 < Z.of_nat (List.length menu_exemple) /\
  exists r, Menu.option_precedente menu_exemple 4 = Ok r /\
    match r with
    | Some i =>
        0 <= i < 4 /\
        selectionnable menu_exemple i = true /\
        forall j, i < j < 4 -> est_separateur menu_exemple j = true
    | None =>
        forall j, 0 <= j < 4 -> est_separateur menu_exemple j = true
    end.
Proof.
  assert (H1 : 0 <= 4 < Z.of_nat (List.length menu_exemple)) by (simpl; lia).
  split; [exact H1|].
  exact (option_precedente_plus_proche menu_exemple 4 H1).
Defined.

Lemma option_suivante_puis_precedente_temoin :
  selectionnable menu_exemple 1 = true /\
  Menu.option_suivante menu_exemple 1 = Ok (Some 4) /\
  Menu.option_precedente menu_exemple 4 = Ok (Some 1).
Proof.
  assert (H1 : selectionnable menu_exemple 1 = true) by reflexivity.
  assert (H2 : Menu.option_suivante menu_exemple 1 = Ok (Some 4)) by reflexivity.
  repeat (split; [assumption|]).
  exact (proj1 (option_suivante_puis_precedente menu_exemple 1 4 H1) H2).
Defined.

Lemma formulaire_accessible : accessible formulaire.
Proof.
  pose (e10 := {| Conteneur.ident := 10; Conteneur.activable := false;
                  Conteneur.couleur := PNone |}).
  pose (e11 := {| Conteneur.ident := 11; Conteneur.activable := true;
                  Conteneur.couleur := PNone |}).
  pose (e12 := {| Conteneur.ident := 12; Conteneur.activable := false;
                  Conteneur.couleur := PNone |}).
  pose (e13 := {| Conteneur.ident := 13; Conteneur.activable := true;
                  Conteneur.couleur := PNone |}).
  apply (acc_ajoute (Conteneur.mk [e10; e11; e12] (Some 11) PNone) e13);
    [|reflexivity].
  apply (acc_ajoute (Conteneur.mk [e10; e11] (Some 11) PNone) e12);
    [|reflexivity].
  apply (acc_ajoute (Conteneur.mk [e10] None PNone) e11); [|reflexivity].
  apply (acc_ajoute (Conteneur.vide PNone) e10); [|reflexivity].
  exact (acc_vide PNone).
Defined.

Lemma formulaire_coherent : coherent formulaire.
Proof.
  split.
  - cbn. repeat constructor; cbn; intuition discriminate.
  - cbn. eexists. split; [right; left; reflexivity|]. split; reflexivity.
Defined.

Lemma conteneur_coherent_temoin :
  accessible formulaire /\ coherent formulaire.
Proof.
  split; [exact formulaire_accessible|].
  exact (conteneur_coherent formulaire formulaire_accessible).
Defined.

Lemma suivant_plus_proche_temoin :
  coherent formulaire /\
  exists depart b c',
    (Conteneur.elements formulaire <> [] ->
     place_active (-1) formulaire = Ok depart) /\
    Conteneur.suivant formulaire = Ok (b, c') /\
    Conteneur.elements c' = Conteneur.elements formulaire.
Proof.
  split; [exact formulaire_coherent|].
  destruct (suivant_plus_proche formulaire formulaire_coherent)
    as [depart [b [c' [Hp [Hs [He _]]]]]].
  exists depart, b, c'. split; [exact Hp|]. split; [exact Hs | exact He].
Defined.

Lemma suivant_puis_precedent_temoin :
  coherent formulaire /\
  Conteneur.suivant formulaire =
    Ok (true, Conteneur.mk (Conteneur.elements formulaire) (Some 13) PNone) /\
  Conteneur.precedent
    (Conteneur.mk (Conteneur.elements formulaire) (Some 13) PNone) =
    Ok (true, formulaire).
Proof.
  assert (H2 : Conteneur.suivant formulaire =
               Ok (true, Conteneur.mk (Conteneur.elements formulaire) (Some 13)
                           PNone)) by reflexivity.
  split; [exact formulaire_coherent|]. split; [exact H2|].
  exact (proj1 (suivant_puis_precedent formulaire _ formulaire_coherent) H2).
Defined.
